(** * Image-to-Python converter: sampling and code emission

    A shallow embedding of [image_to_python_sketch.py]: the two samplers
    ([image_to_points_sketch], [image_to_points_color]), the two emitters
    ([generate_python_code_sketch], [generate_python_code_color]) and the
    size selection of [main], together with the parts of Pillow, NumPy and
    [textwrap] those functions call.

    Python integers are [Z].  A raised exception is [None].  A decoded
    Pillow image is a record of its size and a pixel accessor; a NumPy
    array of shape (h, w) is a list of h rows of w entries. *)

From Stdlib Require Import ZArith QArith Qround Qabs List Bool Lia.
From Stdlib Require Import Sorted.
From Stdlib Require String Ascii DecimalString SpecFloat DecimalPos DecimalZ.
Import ListNotations.

Local Open Scope Z_scope.

(** ** Images *)

(** [Image.size] is [(im_width, im_height)]; [im_pixel x y] is the value
    [Image.getpixel((x, y))] returns.  [P] is [Z] for mode "L" and a triple
    for mode "RGB". *)
Record Image (P : Type) : Type := mkImage {
  im_width : Z;
  im_height : Z;
  im_pixel : Z -> Z -> P
}.

Arguments mkImage {P} _ _ _.
Arguments im_width {P} _.
Arguments im_height {P} _.
Arguments im_pixel {P} _ _ _.

(** Python's [range(n)]. *)
Definition range (n : Z) : list Z := map Z.of_nat (seq 0 (Z.to_nat n)).

(** ** Pillow *)

Module Pillow.

(** [min(math.floor(number), math.ceil(number), key=key)] keeps the floor
    unless the ceiling has a strictly smaller key; the result is clamped
    below by 1. *)
Definition round_aspect (number : Q) (key : Z -> Q) : Z :=
  let lo := Qfloor number in
  let hi := Qceiling number in
  Z.max (if Qle_bool (key lo) (key hi) then lo else hi) 1.

(** The nested function [preserve_aspect_ratio] of [Image.thumbnail]
    (Pillow 7 and later).  The outer [option] is the exception
    ([ZeroDivisionError], from [width / height], [x / y] or [x / aspect]),
    the inner one is Python's [None] ("the image already fits").  Pillow
    evaluates the quotients in binary64; they are exact rationals here. *)
Definition preserve_aspect_ratio (width height : Z) (provided_size : Z * Z)
  : option (option (Z * Z)) :=
  let '(x, y) := provided_size in
  if (width <=? x) && (height <=? y) then Some None
  else if height =? 0 then None
  else
    let aspect := (inject_Z width / inject_Z height)%Q in
    if y =? 0 then None
    else if Qle_bool aspect (inject_Z x / inject_Z y) then
      let x' := round_aspect (inject_Z y * aspect)
                  (fun n => Qabs (aspect - inject_Z n / inject_Z y)) in
      Some (Some (x', y))
    else if width =? 0 then None
    else
      let y' := round_aspect (inject_Z x / aspect)
                  (fun n => if n =? 0 then 0%Q
                            else Qabs (aspect - inject_Z x / inject_Z n)) in
      Some (Some (x, y')).

Section Resize.

Context {P : Type}.

(** [resample im w h x y]: the pixel at (x, y) of [im] resized to w by h
    (bicubic interpolation in Pillow; its arithmetic is not modelled). *)
Variable resample : Image P -> Z -> Z -> Z -> Z -> P.

(** [Image.resize]: a non-positive side raises [ValueError]. *)
Definition resize (im : Image P) (size : Z * Z) : option (Image P) :=
  let '(w, h) := size in
  if (w <=? 0) || (h <=? 0) then None
  else Some (mkImage w h (resample im w h)).

(** [Image.thumbnail(size)], returning the image it leaves in place.  The
    image comes from [convert], so [draft] answers [None] and the size is
    the one [preserve_aspect_ratio] computes after [load]; the image is
    resized only when that size differs from its own. *)
Definition thumbnail (im : Image P) (size : Z * Z) : option (Image P) :=
  match preserve_aspect_ratio (im_width im) (im_height im) size with
  | None => None
  | Some None => Some im
  | Some (Some size') =>
      if (fst size' =? im_width im) && (snd size' =? im_height im)
      then Some im
      else resize im size'
  end.

End Resize.

(** [clip8] of [Filter.c], on the accumulated sum. *)
Definition clip8 (v : Q) : Z :=
  if Qle_bool v 0 then 0
  else if Qle_bool 255 v then 255
  else Qfloor v.

(** [ImageFilter.FIND_EDGES.filterargs]: size (3, 3), scale 1, offset 0. *)
Definition FIND_EDGES : list Z * Z * Z :=
  ([-1; -1; -1;
    -1;  8; -1;
    -1; -1; -1], 1, 0).

(** [ImagingFilter] with a 3x3 kernel on a one-band image
    ([ImagingFilter3x3]): an image smaller than the kernel is copied; the
    first and last row and the first and last pixel of every row are copied
    from the input; 0.5 is added to the offset before clipping. *)
Definition filter (args : list Z * Z * Z) (im : Image Z) : Image Z :=
  let '(kernel, scale, offset) := args in
  let w := im_width im in
  let h := im_height im in
  if (w <? 3) || (h <? 3) then im
  else
    let k i := nth i kernel 0 in
    mkImage w h (fun x y =>
      if (y =? 0) || (y =? h - 1) || (x =? 0) || (x =? w - 1)
      then im_pixel im x y
      else
        let row yy a b c :=
          k a * im_pixel im (x - 1) yy + k b * im_pixel im x yy
          + k c * im_pixel im (x + 1) yy in
        let ss := row (y + 1) 0%nat 1%nat 2%nat
                  + row y 3%nat 4%nat 5%nat
                  + row (y - 1) 6%nat 7%nat 8%nat in
        clip8 (inject_Z ss / inject_Z scale + inject_Z offset + (1 # 2))%Q).

End Pillow.

(** ** NumPy *)

Module Numpy.

(** A binary64 value: not-a-number, or [m * 2^e]. *)
Inductive float64 : Type :=
| NaN
| Finite (m e : Z).

(** The integer nearest to [a / b] for [0 < b], ties to even. *)
Definition round_half_even (a b : Z) : Z :=
  let q := a / b in
  match 2 * (a mod b) ?= b with
  | Lt => q
  | Gt => q + 1
  | Eq => if Z.even q then q else q + 1
  end.

(** [a * 2^k / b] as a numerator and a denominator, for any sign of [k]. *)
Definition scaled (a k b : Z) : Z * Z :=
  if 0 <=? k then (a * 2 ^ k, b) else (a, b * 2 ^ (- k)).

(** binary64 division of two positive integers that are themselves exact in
    binary64, for a quotient in the normal range: the quotient is rounded
    to 53 significant bits, ties to even. *)
Definition fl64_div (s n : Z) : float64 :=
  if s =? 0 then Finite 0 0
  else
    let d := Z.log2 s - Z.log2 n in
    let '(a, b) := scaled s (52 - d) n in
    let e := if b * 2 ^ 52 <=? a then d - 52 else d - 53 in
    let '(a', b') := scaled s (- e) n in
    Finite (round_half_even a' b') e.

(** [a < b] on binary64; false when either side is not a number. *)
Definition f64_ltb (a b : float64) : bool :=
  match a, b with
  | Finite m1 e1, Finite m2 e2 =>
      let e := Z.min e1 e2 in
      m1 * 2 ^ (e1 - e) <? m2 * 2 ^ (e2 - e)
  | _, _ => false
  end.

(** A two-dimensional [ndarray]: [arr.shape] and the rows of entries. *)
Record ndarray (A : Type) : Type := mkArray {
  shape : Z * Z;
  rows : list (list A)
}.

Arguments mkArray {A} _ _.
Arguments shape {A} _.
Arguments rows {A} _.

(** [np.array(img)]: shape (height, width), row [y] column [x]. *)
Definition array {P : Type} (im : Image P) : ndarray P :=
  mkArray (im_height im, im_width im)
          (map (fun y => map (fun x => im_pixel im x y) (range (im_width im)))
               (range (im_height im))).

Definition sum (arr : ndarray Z) : Z := fold_right Z.add 0 (concat (rows arr)).

(** The number of entries. *)
Definition size {A : Type} (arr : ndarray A) : Z :=
  Z.of_nat (List.length (concat (rows arr))).

(** [arr.mean()] of a uint8 array: the entries are added in binary64 (exact
    below 2^53) and the total is divided by the count; an empty array
    gives nan. *)
Definition mean (arr : ndarray Z) : float64 :=
  if size arr =? 0 then NaN else fl64_div (sum arr) (size arr).

(** [arr > threshold]: each uint8 entry is converted to binary64. *)
Definition gt (arr : ndarray Z) (threshold : float64) : ndarray bool :=
  mkArray (shape arr)
          (map (map (fun v => f64_ltb threshold (Finite v 0))) (rows arr)).

Definition enumerate {A : Type} (l : list A) : list (Z * A) :=
  combine (range (Z.of_nat (List.length l))) l.

(** The (row, column) indices of the true entries, in C order. *)
Definition argwhere (mask : ndarray bool) : list (Z * Z) :=
  flat_map (fun '(y, row) =>
              map (fun '(x, _) => (y, x))
                  (List.filter (fun '(_, b) => b) (enumerate row)))
           (enumerate (rows mask)).

(** [np.where(mask)] on a 2-D mask: the row indices, then the column
    indices. *)
Definition np_where (mask : ndarray bool) : list Z * list Z :=
  let idx := argwhere mask in (map fst idx, map snd idx).

(** [arr[y, x]] for indices inside the array. *)
Definition item {A : Type} (arr : ndarray A) (y x : Z) (default : A) : A :=
  nth (Z.to_nat x) (nth (Z.to_nat y) (rows arr) []) default.

End Numpy.

(** ** The samplers *)

Section Sampler.

(** The resampling of [Image.thumbnail] for mode "L". *)
Variable resample : Image Z -> Z -> Z -> Z -> Z -> Z.

(** [image_to_points_sketch]; [img] is [Image.open(image_path).convert("L")]. *)
Definition image_to_points_sketch (img : Image Z) (max_size : Z)
  : option ((Z * Z) * list (Z * Z)) :=
  match Pillow.thumbnail resample img (max_size, max_size) with
  | None => None
  | Some img =>
      let edges := Pillow.filter Pillow.FIND_EDGES img in
      let arr := Numpy.array edges in
      let threshold := Numpy.mean arr in
      let '(ys, xs) := Numpy.np_where (Numpy.gt arr threshold) in
      let points := combine xs ys in
      Some ((im_width img, im_height img), points)
  end.

End Sampler.

Definition RGB : Type := (Z * Z * Z)%type.

Section SamplerColor.

(** The resampling of [Image.thumbnail] for mode "RGB". *)
Variable resample : Image RGB -> Z -> Z -> Z -> Z -> RGB.

(** [image_to_points_color]; [img] is [Image.open(image_path).convert("RGB")].
    The two nested [for] loops append in the order of [flat_map]. *)
Definition image_to_points_color (img : Image RGB) (max_size : Z)
  : option ((Z * Z) * list (Z * Z * RGB)) :=
  match Pillow.thumbnail resample img (max_size, max_size) with
  | None => None
  | Some img =>
      let arr := Numpy.array img in
      let '(h, w) := Numpy.shape arr in
      let points :=
        flat_map (fun y =>
          map (fun x =>
                 let '(r, g, b) := Numpy.item arr y x (0, 0, 0) in
                 (x, y, (r, g, b)))
              (range w))
          (range h) in
      Some ((w, h), points)
  end.

End SamplerColor.

(** ** Python values and text *)

Module Python.

Import String Ascii.
Local Open Scope string_scope.

(** The values the emitters format: integers, the non-finite floats, tuples
    and lists.  (Finite floats and strings are outside the model.) *)
#[warnings="-register-all"]
Inductive pyvalue : Type :=
| PyInt (z : Z)
| PyNan
| PyInf (negative : bool)
| PyTuple (items : list pyvalue)
| PyList (items : list pyvalue).

(** [str.join]. *)
Fixpoint join (sep : string) (parts : list string) : string :=
  match parts with
  | [] => EmptyString
  | [p] => p
  | p :: rest => p ++ sep ++ join sep rest
  end.

(** [repr] of an [int]. *)
Definition decimal (z : Z) : string :=
  DecimalString.NilZero.string_of_int (Z.to_int z).

(** [repr(v)]: a one-element tuple carries a trailing comma. *)
Fixpoint repr (v : pyvalue) : string :=
  match v with
  | PyInt z => decimal z
  | PyNan => "nan"
  | PyInf false => "inf"
  | PyInf true => "-inf"
  | PyTuple items =>
      match items with
      | [x] => "(" ++ repr x ++ ",)"
      | _ => "(" ++ join ", " (map repr items) ++ ")"
      end
  | PyList items => "[" ++ join ", " (map repr items) ++ "]"
  end.

(** [format(v, '')], which an f-string field without conversion applies:
    [str(v)], and [str] is [repr] for these values. *)
Definition str (v : pyvalue) : string := repr v.

Definition newline : ascii := "010"%char.

(** A double quote. *)
Definition dq : string := String "034"%char EmptyString.

(** The text whose lines are [lines], each ended by a newline. *)
Fixpoint unlines (lines : list string) : string :=
  match lines with
  | [] => EmptyString
  | l :: rest => l ++ String newline (unlines rest)
  end.

(** [text.split('\n')]. *)
Fixpoint split_lines (text : string) : list string :=
  match text with
  | EmptyString => [EmptyString]
  | String c rest =>
      if (c =? newline)%char then EmptyString :: split_lines rest
      else match split_lines rest with
           | l :: ls => String c l :: ls
           | [] => [String c EmptyString]
           end
  end.

Definition is_blank (c : ascii) : bool := (c =? " ")%char || (c =? "009")%char.

(** The longest prefix of spaces and tabs, and what follows it. *)
Fixpoint span_blank (line : string) : string * string :=
  match line with
  | EmptyString => (EmptyString, EmptyString)
  | String c rest =>
      if is_blank c
      then let '(ws, tl) := span_blank rest in (String c ws, tl)
      else (EmptyString, line)
  end.

(** A match of [_whitespace_only_re]: a non-empty line of spaces and
    tabs. *)
Definition whitespace_only (line : string) : bool :=
  match span_blank line with
  | (String _ _, EmptyString) => true
  | _ => false
  end.

(** The group [_leading_whitespace_re] captures on a line, if it matches:
    the leading spaces and tabs of a line that has another character. *)
Definition leading_whitespace (line : string) : option string :=
  match span_blank line with
  | (ws, String _ _) => Some ws
  | _ => None
  end.

Fixpoint common_prefix (a b : string) : string :=
  match a, b with
  | String x a', String y b' =>
      if (x =? y)%char then String x (common_prefix a' b') else EmptyString
  | _, _ => EmptyString
  end.

(** One round of the loop over the indents in [textwrap.dedent]. *)
Definition margin_step (margin : option string) (indent : string)
  : option string :=
  match margin with
  | None => Some indent
  | Some m =>
      if prefix m indent then Some m
      else if prefix indent m then Some indent
      else Some (common_prefix m indent)
  end.

(** [re.sub(r'(?m)^' + margin, '', text)] on one line. *)
Fixpoint strip_prefix (margin line : string) : option string :=
  match margin, line with
  | EmptyString, _ => Some line
  | String x m', String y l' =>
      if (x =? y)%char then strip_prefix m' l' else None
  | String _ _, EmptyString => None
  end.

(** [textwrap.dedent]. *)
Definition dedent (text : string) : string :=
  let lines :=
    map (fun l => if whitespace_only l then EmptyString else l)
        (split_lines text) in
  let indents :=
    flat_map (fun l => match leading_whitespace l with
                       | Some ws => [ws]
                       | None => []
                       end) lines in
  match fold_left margin_step indents None with
  | Some (String c m) =>
      join (String newline EmptyString)
           (map (fun l => match strip_prefix (String c m) l with
                          | Some l' => l'
                          | None => l
                          end) lines)
  | _ => join (String newline EmptyString) lines
  end.

(** The text holds no line break. *)
Fixpoint no_newline (s : string) : bool :=
  match s with
  | EmptyString => true
  | String c rest => negb (c =? newline)%char && no_newline rest
  end.

(** A line [dedent] leaves alone: one line, not made of blanks only. *)
Definition plain_line (l : string) : bool :=
  no_newline l && negb (whitespace_only l).

End Python.

(** ** The emitters *)

Module Emitter.

Import String Python.
Local Open Scope string_scope.

(** The f-string of [generate_python_code_sketch], line by line. *)
Definition sketch_template (width height points : pyvalue) : list string :=
  [ "import matplotlib.pyplot as plt";
    EmptyString;
    "WIDTH, HEIGHT = " ++ str width ++ ", " ++ str height;
    "POINTS = " ++ repr points;
    EmptyString;
    EmptyString;
    "def main():";
    "    xs = [p[0] for p in POINTS]";
    "    ys = [HEIGHT - p[1] for p in POINTS]  # flip Y so image isn't upside-down";
    EmptyString;
    "    plt.figure(figsize=(WIDTH / 80, HEIGHT / 80), facecolor=" ++ dq ++ "white" ++ dq ++ ")";
    "    plt.scatter(xs, ys, s=1, c=" ++ dq ++ "black" ++ dq ++ ", marker=" ++ dq ++ "." ++ dq ++ ", linewidths=0)";
    "    plt.axis(" ++ dq ++ "off" ++ dq ++ ")";
    "    plt.gca().set_aspect(" ++ dq ++ "equal" ++ dq ++ ", adjustable=" ++ dq ++ "box" ++ dq ++ ")";
    "    plt.tight_layout()";
    "    plt.show()";
    EmptyString;
    EmptyString;
    "if __name__ == " ++ dq ++ "__main__" ++ dq ++ ":";
    "    main()" ].

(** The f-string of [generate_python_code_color], line by line. *)
Definition color_template (width height points : pyvalue) : list string :=
  [ "import matplotlib.pyplot as plt";
    EmptyString;
    "WIDTH, HEIGHT = " ++ str width ++ ", " ++ str height;
    "# Each point is (x, y, (r, g, b))";
    "POINTS = " ++ repr points;
    EmptyString;
    EmptyString;
    "def main():";
    "    xs = [p[0] for p in POINTS]";
    "    ys = [HEIGHT - p[1] for p in POINTS]  # flip Y so image isn't upside-down";
    "    colors = [";
    "        (rgb[0] / 255.0, rgb[1] / 255.0, rgb[2] / 255.0)";
    "        for (_, _, rgb) in POINTS";
    "    ]";
    EmptyString;
    "    plt.figure(figsize=(WIDTH / 50, HEIGHT / 50), facecolor=" ++ dq ++ "white" ++ dq ++ ")";
    "    plt.scatter(xs, ys, s=8, c=colors, marker=" ++ dq ++ "s" ++ dq ++ ", linewidths=0)";
    "    plt.axis(" ++ dq ++ "off" ++ dq ++ ")";
    "    plt.gca().set_aspect(" ++ dq ++ "equal" ++ dq ++ ", adjustable=" ++ dq ++ "box" ++ dq ++ ")";
    "    plt.tight_layout()";
    "    plt.show()";
    EmptyString;
    EmptyString;
    "if __name__ == " ++ dq ++ "__main__" ++ dq ++ ":";
    "    main()" ].


(** [generate_python_code_sketch]. *)
Definition generate_python_code_sketch (width height points : pyvalue) : string :=
  let code := unlines (sketch_template width height points) in
  dedent code.

(** [generate_python_code_color]. *)
Definition generate_python_code_color (width height points : pyvalue) : string :=
  let code := unlines (color_template width height points) in
  dedent code.

End Emitter.

(** ** The command line *)

Module CLI.

Import String Python Emitter.
Local Open Scope string_scope.

(** [--mode]. *)
Inductive Mode : Type := Sketch | Color.

(** The namespace [parser.parse_args()] returns. *)
Record Args : Type := mkArgs {
  image : option string;
  out : string;
  max_size : Z;
  mode : Mode
}.

(** The defaults of the four options. *)
Definition default_args : Args :=
  mkArgs None "sketch_draw.py" 160 Sketch.

(** What [main] does to the outside, in order.  Paths are the strings
    given; what [pathlib] does to their spelling is not modelled. *)
Inductive event : Type :=
| Print (text : string)
| Sample_sketch (image_path : string) (max_size : Z)
| Sample_color (image_path : string) (max_size : Z)
| Write_text (path text : string)
| Run_path (path : string).

(** A computation that logs events and may stop on an exception. *)
Definition M (A : Type) : Type := (list event * option A)%type.

Definition ret {A : Type} (a : A) : M A := ([], Some a).

Definition bind {A B : Type} (m : M A) (k : A -> M B) : M B :=
  match m with
  | (t, None) => (t, None)
  | (t, Some a) => let '(t', r) := k a in ((t ++ t')%list, r)
  end.

Definition raise {A : Type} : M A := ([], None).

Definition emit (e : event) : M unit := ([e], Some tt).

Notation "x <- m ;; k" := (bind m (fun x => k))
  (at level 61, m at next level, right associativity).
Notation "m ;;; k" := (bind m (fun _ => k))
  (at level 61, right associativity).

(** The points of the samplers as Python values. *)
Definition sketch_points_value (points : list (Z * Z)) : pyvalue :=
  PyList (map (fun '(x, y) => PyTuple [PyInt x; PyInt y]) points).

Definition color_points_value (points : list (Z * Z * RGB)) : pyvalue :=
  PyList (map (fun '(x, y, (r, g, b)) =>
                 PyTuple [PyInt x; PyInt y; PyTuple [PyInt r; PyInt g; PyInt b]])
              points).

Section Main.

(** The outside of [main]: the answer of [find_latest_image(cwd)] ([None]
    when it exits), [Path.is_file], and the decoders
    [Image.open(path).convert(mode)] ([None] when they raise). *)
Variable find_latest_image : option string.
Variable is_file : string -> bool.
Variable open_L : string -> option (Image Z).
Variable open_RGB : string -> option (Image RGB).
Variable resample_L : Image Z -> Z -> Z -> Z -> Z -> Z.
Variable resample_RGB : Image RGB -> Z -> Z -> Z -> Z -> RGB.

(** The call [image_to_points_sketch(str(image_path), max_size=...)]. *)
Definition call_sketch (image_path : string) (size : Z)
  : M ((Z * Z) * list (Z * Z)) :=
  ([Sample_sketch image_path size],
   match open_L image_path with
   | None => None
   | Some img => image_to_points_sketch resample_L img size
   end).

(** The call [image_to_points_color(str(image_path), max_size=...)]. *)
Definition call_color (image_path : string) (size : Z)
  : M ((Z * Z) * list (Z * Z * RGB)) :=
  ([Sample_color image_path size],
   match open_RGB image_path with
   | None => None
   | Some img => image_to_points_color resample_RGB img size
   end).

(** [main], after [parse_args]. *)
Definition main (args : Args) : M unit :=
  image_path <-
    match image args with
    | Some (String c p) => ret (String c p)
    | _ => match find_latest_image with
           | Some p => ret p
           | None => raise
           end
    end ;;
  (if is_file image_path then ret tt else raise) ;;;
  emit (Print ("Using image: " ++ image_path)) ;;;
  code <-
    match mode args with
    | Sketch =>
        r <- call_sketch image_path (max_size args) ;;
        let '((w, h), points) := r in
        ret (generate_python_code_sketch
               (PyInt w) (PyInt h) (sketch_points_value points))
    | Color =>
        let size := if negb (max_size args =? 160)%Z
                    then max_size args else 80 in
        r <- call_color image_path size ;;
        let '((w, h), points) := r in
        ret (generate_python_code_color
               (PyInt w) (PyInt h) (color_points_value points))
    end ;;
  emit (Write_text (out args) code) ;;;
  emit (Print ("Generated Python file: " ++ out args)) ;;;
  emit (Print "Opening drawing window...") ;;;
  emit (Run_path (out args)).

End Main.

Definition is_sampler_call (e : event) : bool :=
  match e with
  | Sample_sketch _ _ | Sample_color _ _ => true
  | _ => false
  end.

(** The sampler calls of a run, in order. *)
Definition sampler_calls {A : Type} (run : M A) : list event :=
  List.filter is_sampler_call (fst run).

(** A sample invocation: [--image photo.png --mode color]. *)
Definition sample_path : string := "photo.png".

Definition sample_color_args : Args :=
  mkArgs (Some sample_path) "sketch_draw.py" 160 Color.

(** The path [main] settles on: [--image] when given and not empty, the
    newest image of the folder otherwise. *)
Definition resolved_image (find_latest_image : option string) (args : Args)
           (image_path : string) : Prop :=
  match image args with
  | Some (String c p) => image_path = String c p
  | _ => find_latest_image = Some image_path
  end.

End CLI.

(** ** Vocabulary of the properties *)

(** The scan [np.where] performs on a mask given by its entries. *)
Definition scan (w h : Z) (test : Z -> Z -> bool) : list (Z * Z) :=
  flat_map (fun y => map (fun x => (x, y)) (List.filter (fun x => test x y) (range w)))
           (range h).

(** Row-major order on (x, y) coordinates: the row first, then the column. *)
Definition row_major_lt (p q : Z * Z) : Prop :=
  snd p < snd q \/ (snd p = snd q /\ fst p < fst q).

(** Every pixel inside the image is an 8-bit value. *)
Definition uint8_image (im : Image Z) : Prop :=
  forall x y, 0 <= x < im_width im -> 0 <= y < im_height im ->
              0 <= im_pixel im x y <= 255.

(** The entries the sketch sampler keeps: those above the binary64 mean of
    the filtered array. *)
Definition above_threshold (edges : Image Z) (x y : Z) : bool :=
  Numpy.f64_ltb (Numpy.mean (Numpy.array edges))
                (Numpy.Finite (im_pixel edges x y) 0).

(** The arithmetic mean of the entries, as an exact rational. *)
Definition arithmetic_mean (arr : Numpy.ndarray Z) : Q :=
  inject_Z (Numpy.sum arr) / inject_Z (Numpy.size arr).

Definition Qlt_bool (a b : Q) : bool := negb (Qle_bool b a).

(** The number of entries strictly greater than the arithmetic mean. *)
Definition count_above_mean (arr : Numpy.ndarray Z) : nat :=
  List.length
    (List.filter (fun v => Qlt_bool (arithmetic_mean arr) (inject_Z v))
                 (concat (Numpy.rows arr))).

(** Pillow's [Image.MAX_IMAGE_PIXELS]; [Image.open] refuses an image of
    more than twice as many pixels. *)
Definition MAX_IMAGE_PIXELS : Z := 1024 * 1024 * 1024 / 4 / 3.

(** What [Image.open(path).convert("L")] can return: positive sides, no
    more pixels than [Image.open] accepts, 8-bit values. *)
Record decoded_L (img : Image Z) : Prop := {
  decoded_width : 1 <= im_width img;
  decoded_height : 1 <= im_height img;
  decoded_pixels : im_width img * im_height img <= 2 * MAX_IMAGE_PIXELS;
  decoded_uint8 : uint8_image img
}.

(** Resampling a mode "L" image gives 8-bit values. *)
Definition resample_uint8 (resample : Image Z -> Z -> Z -> Z -> Z -> Z) : Prop :=
  forall im w h x y, 0 <= resample im w h x y <= 255.

(** The dense enumeration of an image, row by row. *)
Definition pixels_row_major {P : Type} (im : Image P) : list (Z * Z * P) :=
  flat_map (fun y => map (fun x => (x, y, im_pixel im x y)) (range (im_width im)))
           (range (im_height im)).


(** Every pixel inside the image has the value [c]. *)
Definition uniform {P : Type} (im : Image P) (c : P) : Prop :=
  forall x y, 0 <= x < im_width im -> 0 <= y < im_height im ->
              im_pixel im x y = c.


(** The quotient of [Numpy.fl64_div] and the one of the standard library's
    [SpecFloat.SFdiv] at binary64 denote the same number. *)
Definition fl64_div_agrees (s n : positive) : bool :=
  match Numpy.fl64_div (Z.pos s) (Z.pos n),
        SpecFloat.SFdiv 53 1024 (SpecFloat.S754_finite false s 0)
                        (SpecFloat.S754_finite false n 0) with
  | Numpy.Finite m e, SpecFloat.S754_finite false m' e' =>
      let e0 := Z.min e e' in
      m * 2 ^ (e - e0) =? Z.pos m' * 2 ^ (e' - e0)
  | _, _ => false
  end.

(** ** Sample inputs *)

(** Nearest-neighbour resampling, clipped to 8 bits. *)
Definition nearest_L (im : Image Z) (w h x y : Z) : Z :=
  Z.max 0 (Z.min 255 (im_pixel im (x * im_width im / w) (y * im_height im / h))).

Definition nearest_RGB (im : Image RGB) (w h x y : Z) : RGB :=
  im_pixel im (x * im_width im / w) (y * im_height im / h).

(** A 2x2 image, black but for its last pixel. *)
Definition corner_image : Image Z :=
  mkImage 2 2 (fun x y => if (x =? 1) && (y =? 1) then 255 else 0).

(** A 7x5 image with a bright diagonal band. *)
Definition band_image : Image Z :=
  mkImage 7 5 (fun x y => if Z.abs (x - y) <=? 1 then 200 else 10).


(** A 3x3 image of solid red. *)
Definition red_image : Image RGB := mkImage 3 3 (fun _ _ => (255, 0, 0)).

(** ** Expected scripts *)

Module Expected.

Import String Python.
Local Open Scope string_scope.

(** The sketch script for a 10 by 10 image without points. *)
Definition sketch_10_10_empty : list string :=
  [ "import matplotlib.pyplot as plt";
    EmptyString;
    "WIDTH, HEIGHT = 10, 10";
    "POINTS = []";
    EmptyString;
    EmptyString;
    "def main():";
    "    xs = [p[0] for p in POINTS]";
    "    ys = [HEIGHT - p[1] for p in POINTS]  # flip Y so image isn't upside-down";
    EmptyString;
    "    plt.figure(figsize=(WIDTH / 80, HEIGHT / 80), facecolor=" ++ dq ++ "white" ++ dq ++ ")";
    "    plt.scatter(xs, ys, s=1, c=" ++ dq ++ "black" ++ dq ++ ", marker=" ++ dq ++ "." ++ dq ++ ", linewidths=0)";
    "    plt.axis(" ++ dq ++ "off" ++ dq ++ ")";
    "    plt.gca().set_aspect(" ++ dq ++ "equal" ++ dq ++ ", adjustable=" ++ dq ++ "box" ++ dq ++ ")";
    "    plt.tight_layout()";
    "    plt.show()";
    EmptyString;
    EmptyString;
    "if __name__ == " ++ dq ++ "__main__" ++ dq ++ ":";
    "    main()" ].

(** The color script for a 10 by 10 image without points. *)
Definition color_10_10_empty : list string :=
  [ "import matplotlib.pyplot as plt";
    EmptyString;
    "WIDTH, HEIGHT = 10, 10";
    "# Each point is (x, y, (r, g, b))";
    "POINTS = []";
    EmptyString;
    EmptyString;
    "def main():";
    "    xs = [p[0] for p in POINTS]";
    "    ys = [HEIGHT - p[1] for p in POINTS]  # flip Y so image isn't upside-down";
    "    colors = [";
    "        (rgb[0] / 255.0, rgb[1] / 255.0, rgb[2] / 255.0)";
    "        for (_, _, rgb) in POINTS";
    "    ]";
    EmptyString;
    "    plt.figure(figsize=(WIDTH / 50, HEIGHT / 50), facecolor=" ++ dq ++ "white" ++ dq ++ ")";
    "    plt.scatter(xs, ys, s=8, c=colors, marker=" ++ dq ++ "s" ++ dq ++ ", linewidths=0)";
    "    plt.axis(" ++ dq ++ "off" ++ dq ++ ")";
    "    plt.gca().set_aspect(" ++ dq ++ "equal" ++ dq ++ ", adjustable=" ++ dq ++ "box" ++ dq ++ ")";
    "    plt.tight_layout()";
    "    plt.show()";
    EmptyString;
    EmptyString;
    "if __name__ == " ++ dq ++ "__main__" ++ dq ++ ":";
    "    main()" ].

(** The line that defines the constants, and the line that holds the
    points. *)
Definition constants_line : string := "WIDTH, HEIGHT = 10, 10".

Definition empty_points_line : string := "POINTS = []".

End Expected.

(** ** Choosing the newest image *)

Module Files.

Import String.
Local Open Scope string_scope.

(** [IMAGE_EXTENSIONS]. *)
Definition IMAGE_EXTENSIONS : list string :=
  [ "*.png"; "*.jpg"; "*.jpeg"; "*.webp"; "*.bmp"; "*.gif"; "*.tif"; "*.tiff" ].

Section FindLatest.

(** [folder.glob(pattern)], in the order it yields, and
    [p.stat().st_mtime]. *)
Variable glob : string -> list string.
Variable st_mtime : string -> Q.

(** [max(best :: rest, key=...)]: an item replaces the best one so far only
    when its key is strictly greater. *)
Fixpoint max_by_mtime (best : string) (rest : list string) : string :=
  match rest with
  | [] => best
  | p :: rest' =>
      if Qlt_bool (st_mtime best) (st_mtime p)
      then max_by_mtime p rest'
      else max_by_mtime best rest'
  end.

(** The list [candidates] after the loop over the patterns. *)
Definition candidates : list string := flat_map glob IMAGE_EXTENSIONS.

(** [find_latest_image(folder)]; [None] is [SystemExit]. *)
Definition find_latest_image : option string :=
  match candidates with
  | [] => None
  | p :: rest => Some (max_by_mtime p rest)
  end.

End FindLatest.

End Files.

(** ** A sample folder *)

Module SampleFolder.

Import String.
Local Open Scope string_scope.

(** Two PNG files and a JPEG file; the last two are equally new. *)
Definition glob (pattern : string) : list string :=
  if pattern =? "*.png" then ["a.png"; "b.png"]
  else if pattern =? "*.jpg" then ["c.jpg"]
  else [].

Definition st_mtime (path : string) : Q :=
  if path =? "a.png" then 5 # 1 else 9 # 1.

Definition newest : string := "b.png".

(** An invocation without [--image]. *)
Definition no_image_args : CLI.Args :=
  CLI.mkArgs None "sketch_draw.py" 160 CLI.Sketch.


End SampleFolder.

(** ** Events that leave something behind *)

Module Trace.

Import CLI.

(** The events that write a file or run a script. *)
Definition writes_or_runs (e : event) : bool :=
  match e with
  | Write_text _ _ | Run_path _ => true
  | _ => false
  end.

End Trace.

(** ** Characters of a text *)

Module Chars.

Import String Ascii.

(** Every character of the text passes the test. *)
Fixpoint all_chars (f : ascii -> bool) (s : string) : bool :=
  match s with
  | EmptyString => true
  | String c rest => f c && all_chars f rest
  end.



End Chars.

(** ** The desktop window *)

Module GUI.

Import String Ascii Python Emitter.
Local Open Scope string_scope.

(** The widgets and fields of [MainWindow] that the handlers read or
    write: the text of the line edit, the radio button, the spin box, the
    status label, the code box, the two buttons, and the two fields. *)
Record Window : Type := mkWindow {
  image_path_edit : string;
  mode_sketch : bool;
  max_size_spin : Z;
  status_label : string;
  code_edit : string;
  save_btn : bool;
  preview_btn : bool;
  current_image : option string;
  current_code : string
}.

(** The window [__init__] builds. *)
Definition initial : Window :=
  mkWindow EmptyString true 160 EmptyString EmptyString false false
           None EmptyString.


(** What a handler does to the outside, in order.  The text of a
    [critical] box is given up to the text of the exception.  Paths are
    the strings given; what [pathlib] does to their spelling is not
    modelled. *)
Inductive event : Type :=
| Warning (title text : string)
| Critical (title text : string)
| Sample_sketch (image_path : string) (max_size : Z)
| Sample_color (image_path : string) (max_size : Z)
| Ask_save (default_name : string)
| Write_text (path text : string)
| Run_path (path : string).

(** The character U+2026 in UTF-8. *)
Definition ellipsis : string :=
  String "226"%char (String "128"%char (String "166"%char EmptyString)).

Definition line_break : string := String newline EmptyString.

Section Handlers.

(** The outside of the handlers: [str.strip], the answer of
    [converter.find_latest_image(Path("."))] ([None] when it exits),
    [Path.is_file], the decoders, [Path.stem], and whether
    [Path.write_text] and [runpy.run_path] succeed. *)
Variable strip : string -> string.
Variable find_latest_image : option string.
Variable is_file : string -> bool.
Variable open_L : string -> option (Image Z).
Variable open_RGB : string -> option (Image RGB).
Variable resample_L : Image Z -> Z -> Z -> Z -> Z -> Z.
Variable resample_RGB : Image RGB -> Z -> Z -> Z -> Z -> RGB.
Variable stem : string -> string.
Variable writes : string -> bool.
Variable runs : string -> bool.

(** [len(points)] in a status text. *)
Definition count {A : Type} (points : list A) : string :=
  decimal (Z.of_nat (List.length points)).

(** [generate_code]; [None] is the [SystemExit] of [find_latest_image],
    which no handler catches. *)
Definition generate_code (w : Window) : list event * option Window :=
  let text := strip (image_path_edit w) in
  let img_path :=
    match text with
    | String _ _ => Some text
    | EmptyString => find_latest_image
    end in
  match img_path with
  | None => ([], None)
  | Some img_path =>
      if negb (is_file img_path)
      then ([Warning "Image not found" ("Cannot find image: " ++ img_path)],
            Some w)
      else
        let w1 :=
          mkWindow (image_path_edit w) (mode_sketch w) (max_size_spin w)
                   (status_label w) (code_edit w) (save_btn w) (preview_btn w)
                   (Some img_path) (current_code w) in
        let max_size := max_size_spin w1 in
        let w2 :=
          mkWindow (image_path_edit w1) (mode_sketch w1) (max_size_spin w1)
                   ("Processing image" ++ ellipsis) (code_edit w1)
                   (save_btn w1) (preview_btn w1)
                   (current_image w1) (current_code w1) in
        let done (code status : string) : Window :=
          mkWindow (image_path_edit w2) (mode_sketch w2) (max_size_spin w2)
                   status code true true (current_image w2) code in
        let failed : list event * option Window :=
          ([Critical "Error" ("Failed to generate code:" ++ line_break)],
           Some (mkWindow (image_path_edit w2) (mode_sketch w2)
                          (max_size_spin w2) "Generation failed."
                          (code_edit w2) (save_btn w2) (preview_btn w2)
                          (current_image w2) (current_code w2))) in
        if mode_sketch w2 then
          match match open_L img_path with
                | Some img => image_to_points_sketch resample_L img max_size
                | None => None
                end with
          | Some ((wd, ht), points) =>
              let code := generate_python_code_sketch
                            (PyInt wd) (PyInt ht)
                            (CLI.sketch_points_value points) in
              ([Sample_sketch img_path max_size],
               Some (done code ("Generated sketch code with " ++ count points
                                ++ " edge points.")))
          | None => (Sample_sketch img_path max_size :: fst failed, snd failed)
          end
        else
          let size := if negb (max_size =? 160)%Z then max_size else 80 in
          match match open_RGB img_path with
                | Some img => image_to_points_color resample_RGB img size
                | None => None
                end with
          | Some ((wd, ht), points) =>
              let code := generate_python_code_color
                            (PyInt wd) (PyInt ht)
                            (CLI.color_points_value points) in
              ([Sample_color img_path size],
               Some (done code ("Generated color code with " ++ count points
                                ++ " pixels.")))
          | None => (Sample_color img_path size :: fst failed, snd failed)
          end
  end.

(** [save_code]; [chosen] is the path the file dialog returns, empty when
    it is cancelled. *)
Definition save_code (w : Window) (chosen : string) : list event * Window :=
  match current_code w with
  | EmptyString => ([], w)
  | String _ _ =>
      let default_name :=
        match current_image w with
        | Some p =>
            let base := match stem p with
                        | String c s => String c s
                        | EmptyString => "image_code"
                        end in
            base ++ ".py"
        | None => "image_code.py"
        end in
      match chosen with
      | EmptyString => ([Ask_save default_name], w)
      | String _ _ =>
          if writes chosen
          then ([Ask_save default_name; Write_text chosen (current_code w)],
                mkWindow (image_path_edit w) (mode_sketch w) (max_size_spin w)
                         ("Saved: " ++ chosen) (code_edit w) (save_btn w)
                         (preview_btn w) (current_image w) (current_code w))
          else ([Ask_save default_name;
                 Critical "Error" ("Failed to save file:" ++ line_break)], w)
      end
  end.


End Handlers.

(** The buttons are enabled exactly when there is code, and the code box
    shows that code. *)
Definition consistent (w : Window) : Prop :=
  code_edit w = current_code w
  /\ save_btn w = preview_btn w
  /\ (save_btn w = true <-> current_code w <> EmptyString).

End GUI.

(** ** Sample window *)

Module SampleWindow.

Import String GUI.
Local Open Scope string_scope.


(** A [strip] that leaves the text alone, a [stem] that answers [photo]. *)
Definition strip (text : string) : string := text.

Definition stem (path : string) : string := "photo".

End SampleWindow.

(** ** The icon converter *)

Module Icon.

Definition RGBA : Type := (Z * Z * Z * Z)%type.

Definition alpha (p : RGBA) : Z := let '(_, _, _, a) := p in a.

Definition transparent : RGBA := (0, 0, 0, 0).

Section IconConverter.

(** The resampling of [Image.thumbnail] for mode "RGBA", and what
    [Image.paste] with a mask makes of one destination pixel, one source
    pixel and the mask value there. *)
Variable resample : Image RGBA -> Z -> Z -> Z -> Z -> RGBA.
Variable blend : RGBA -> RGBA -> Z -> RGBA.

(** [Image.new("RGBA", size, color)]: a negative side raises
    [ValueError]. *)
Definition new (size : Z * Z) (color : RGBA) : option (Image RGBA) :=
  if (fst size <? 0) || (snd size <? 0) then None
  else Some (mkImage (fst size) (snd size) (fun _ _ => color)).

(** [canvas.paste(im, (x, y), mask)] for a mask of the size of [im]: the
    pixels of the canvas under the box take the blend, the others stay. *)
Definition paste (canvas im : Image RGBA) (box : Z * Z) (mask : Image RGBA)
  : Image RGBA :=
  let '(x, y) := box in
  mkImage (im_width canvas) (im_height canvas)
          (fun cx cy =>
             if (x <=? cx) && (cx <? x + im_width im)
                && (y <=? cy) && (cy <? y + im_height im)
             then blend (im_pixel canvas cx cy)
                        (im_pixel im (cx - x) (cy - y))
                        (alpha (im_pixel mask (cx - x) (cy - y)))
             else im_pixel canvas cx cy).

(** [IconConverter(size).image_to_png_icon(src, dst)], returning the
    canvas it saves; [img] is [Image.open(src).convert("RGBA")]. *)
Definition image_to_png_icon (size : Z) (img : Image RGBA)
  : option (Image RGBA) :=
  match Pillow.thumbnail resample img (size, size) with
  | None => None
  | Some img =>
      match new (size, size) transparent with
      | None => None
      | Some canvas =>
          let x := (size - im_width img) / 2 in
          let y := (size - im_height img) / 2 in
          Some (paste canvas img (x, y) img)
      end
  end.

End IconConverter.

(** Sample inputs: a 6x2 opaque image, nearest-neighbour resampling, and
    a blend that takes the source where the mask is not zero. *)
Definition bar_image : Image RGBA :=
  mkImage 6 2 (fun x y => (10 * x, 20 * y, 30, 255)).

Definition nearest (im : Image RGBA) (w h x y : Z) : RGBA :=
  im_pixel im (x * im_width im / w) (y * im_height im / h).

Definition cover (dst src : RGBA) (mask : Z) : RGBA :=
  if mask =? 0 then dst else src.

End Icon.

(** ** The code highlighter *)

Module Highlighter.

Import String Ascii.

(** The four character formats. *)
Inductive format : Type := Comment | Keyword | Quoted | Number.

(** A call [setFormat(start, count, format)]. *)
Definition call : Type := (nat * nat * format)%type.

(** [CodeHighlighter.KEYWORDS]. *)
Definition KEYWORDS : list string :=
  [ "import"; "from"; "def"; "return"; "if"; "elif"; "else"; "for";
    "while"; "in"; "as"; "with"; "True"; "False"; "None" ]%string.

Definition hash : ascii := "#"%char.
Definition single_quote : ascii := "039"%char.
Definition double_quote : ascii := "034"%char.

(** [text.find(c)]. *)
Fixpoint find (c : ascii) (text : list ascii) : option nat :=
  match text with
  | [] => None
  | x :: rest => if (x =? c)%char then Some 0%nat
                 else option_map S (find c rest)
  end.

(** The comment: from the first hash to the end of the line. *)
Definition comment_calls (text : list ascii) : list call :=
  match find hash text with
  | Some idx => [(idx, (List.length text - idx)%nat, Comment)]
  | None => []
  end.

(** The loop over [enumerate(text)], from index [i] on, with the state of
    its three variables. *)
Fixpoint quoted_calls (i : nat) (in_single in_double : bool) (start_idx : nat)
         (text : list ascii) : list call :=
  match text with
  | [] => []
  | ch :: rest =>
      if (ch =? single_quote)%char && negb in_double then
        if in_single
        then (start_idx, (i - start_idx + 1)%nat, Quoted)
               :: quoted_calls (S i) false in_double start_idx rest
        else quoted_calls (S i) true in_double i rest
      else if (ch =? double_quote)%char && negb in_single then
        if in_double
        then (start_idx, (i - start_idx + 1)%nat, Quoted)
               :: quoted_calls (S i) in_single false start_idx rest
        else quoted_calls (S i) in_single true i rest
      else quoted_calls (S i) in_single in_double start_idx rest
  end.

Definition between (lo hi : N) (c : ascii) : bool :=
  (lo <=? N_of_ascii c)%N && (N_of_ascii c <=? hi)%N.

(** [str.isdigit] and the class [\w] on the characters of ASCII. *)
Definition is_digit (c : ascii) : bool := between 48 57 c.

Definition is_word (c : ascii) : bool :=
  between 97 122 c || between 65 90 c || is_digit c || (c =? "_")%char.

Definition flush (acc : option (nat * list ascii)) : list (nat * list ascii) :=
  match acc with
  | Some m => [m]
  | None => []
  end.

(** The matches of [re.finditer] for a word between two word boundaries:
    the maximal runs of word characters, each with its start.  [acc] is the
    run that is open at index [i]. *)
Fixpoint word_matches (i : nat) (acc : option (nat * list ascii))
         (text : list ascii) : list (nat * list ascii) :=
  match text with
  | [] => flush acc
  | c :: rest =>
      if is_word c
      then word_matches (S i)
             (Some match acc with
                   | Some (s, w) => (s, (w ++ [c])%list)
                   | None => (i, [c])
                   end) rest
      else (flush acc ++ word_matches (S i) None rest)%list
  end.

Definition is_keyword (word : list ascii) : bool :=
  existsb (fun k => String.eqb k (string_of_list_ascii word)) KEYWORDS.

Definition isdigit (word : list ascii) : bool :=
  match word with
  | [] => false
  | _ => forallb is_digit word
  end.

Definition word_calls (text : list ascii) : list call :=
  flat_map (fun '(start, word) =>
              if is_keyword word then [(start, List.length word, Keyword)]
              else if isdigit word then [(start, List.length word, Number)]
              else [])
           (word_matches 0 None text).

(** A line of ASCII characters.  There a character of this model is a
    character of Python, and [\w] and [str.isdigit] are the tests above;
    the generated scripts, the only text the code box is given, are made of
    such lines. *)
Definition ascii_line (text : string) : Prop :=
  forallb (between 0 127) (list_ascii_of_string text) = true.

(** [highlightBlock(text)]: the calls of [setFormat], in order. *)
Definition highlightBlock (text : string) : list call :=
  let chars := list_ascii_of_string text in
  (comment_calls chars ++ quoted_calls 0 false false 0 chars
   ++ word_calls chars)%list.

(** The characters a call covers. *)
Definition covered (text : string) (c : call) : list ascii :=
  let '(start, count, _) := c in
  firstn count (skipn start (list_ascii_of_string text)).

(** The state of the loop over the quotes after the characters [prefix]:
    inside a string, [prefix] ends with the opening quote at [start_idx]
    and characters other than that quote. *)
Definition quote_state (prefix : list ascii) (in_single in_double : bool)
           (start_idx : nat) : Prop :=
  (in_single = true ->
   in_double = false
   /\ exists before middle,
        prefix = (before ++ single_quote :: middle)%list
        /\ List.length before = start_idx /\ ~ In single_quote middle)
  /\ (in_double = true ->
      in_single = false
      /\ exists before middle,
           prefix = (before ++ double_quote :: middle)%list
           /\ List.length before = start_idx /\ ~ In double_quote middle).

(** A span that opens and closes with the same quote and has none of it
    inside, at [start] and of [count] characters. *)
Definition quoted_span (text : list ascii) (start count : nat) : Prop :=
  exists q before middle after,
    (q = single_quote \/ q = double_quote)
    /\ text = (before ++ q :: middle ++ q :: after)%list
    /\ List.length before = start
    /\ count = (List.length middle + 2)%nat
    /\ ~ In q middle.

Definition is_quoted (c : call) : bool :=
  match snd c with
  | Quoted => true
  | _ => false
  end.

(** A sample line. *)
Definition sample_line : string := "x = 'a#b' + 'in' 12"%string.

(** The earlier call ends before the later one starts. *)
Definition ends_before (c1 c2 : call) : Prop :=
  (fst (fst c1) + snd (fst c1) <= fst (fst c2))%nat.

(** The state of the search for words after the characters [prefix]: an
    open run is a non-empty run of word characters that ends [prefix] and
    starts at a word boundary; without one, [prefix] does not end with a
    word character. *)
Definition no_word_at_end (prefix : list ascii) : Prop :=
  forall front c, prefix = (front ++ [c])%list -> is_word c = false.

Definition word_state (prefix : list ascii) (acc : option (nat * list ascii))
  : Prop :=
  match acc with
  | Some (s, w) =>
      exists before,
        prefix = (before ++ w)%list /\ List.length before = s
        /\ w <> [] /\ forallb is_word w = true /\ no_word_at_end before
  | None => no_word_at_end prefix
  end.

(** A maximal run of word characters at [start]. *)
Definition word_span (text : list ascii) (start : nat) (word : list ascii)
  : Prop :=
  exists before after,
    text = (before ++ word ++ after)%list
    /\ List.length before = start
    /\ word <> [] /\ forallb is_word word = true
    /\ no_word_at_end before
    /\ match after with
       | [] => True
       | c :: _ => is_word c = false
       end.

End Highlighter.

(** ** Reading a script back *)

Module Decode.

Import String Ascii Python.
Local Open Scope string_scope.

(** The characters of a decimal integer. *)
Definition is_num (c : ascii) : bool :=
  ((48 <=? N_of_ascii c)%N && (N_of_ascii c <=? 57)%N) || (c =? "-")%char.

Definition not_num (c : ascii) : bool := negb (is_num c).

Definition flush (acc : string) : list string :=
  match acc with
  | EmptyString => []
  | String _ _ => [acc]
  end.

(** The maximal runs of decimal characters of a text; [acc] is the run
    that is open. *)
Fixpoint fields (acc : string) (s : string) : list string :=
  match s with
  | EmptyString => flush acc
  | String c rest =>
      if is_num c then fields (acc ++ String c EmptyString) rest
      else (flush acc ++ fields EmptyString rest)%list
  end.

Definition parse_int (s : string) : option Z :=
  option_map Z.of_int (DecimalString.NilZero.int_of_string s).

Fixpoint sequence {A : Type} (l : list (option A)) : option (list A) :=
  match l with
  | [] => Some []
  | Some a :: rest => option_map (cons a) (sequence rest)
  | None :: _ => None
  end.

(** The integers of a line. *)
Definition integers (line : string) : option (list Z) :=
  sequence (map parse_int (fields EmptyString line)).

Fixpoint pairs (l : list Z) : option (list (Z * Z)) :=
  match l with
  | [] => Some []
  | x :: y :: rest => option_map (cons (x, y)) (pairs rest)
  | _ => None
  end.

Fixpoint quintuples (l : list Z) : option (list (Z * Z * RGB)) :=
  match l with
  | [] => Some []
  | x :: y :: r :: g :: b :: rest =>
      option_map (cons (x, y, (r, g, b))) (quintuples rest)
  | _ => None
  end.

(** The size and the points a script holds on its line of constants and
    its line of points ([points_line] counts lines from 0). *)
Definition decode {A : Type} (group : list Z -> option (list A))
           (points_line : nat) (text : string) : option (Z * Z * list A) :=
  let lines := split_lines text in
  match integers (nth 2 lines EmptyString),
        integers (nth points_line lines EmptyString) with
  | Some [width; height], Some numbers =>
      option_map (fun points => (width, height, points)) (group numbers)
  | _, _ => None
  end.

Definition decode_sketch : string -> option (Z * Z * list (Z * Z)) :=
  decode pairs 3.

Definition decode_color : string -> option (Z * Z * list (Z * Z * RGB)) :=
  decode quintuples 4.

End Decode.

(** ** More sample inputs *)

(** A 7x5 color image whose pixels tell their position. *)
Definition stripes_image : Image RGB := mkImage 7 5 (fun x y => (x, y, 0)).

Module SamplePaths.

Import String.
Local Open Scope string_scope.



End SamplePaths.

(** ** The command line with an output that may fail *)

Module CommandLine.

Import String CLI Python Emitter.
Local Open Scope string_scope.

Section Main.

Variable find_latest_image : option string.
Variable is_file : string -> bool.
Variable open_L : string -> option (Image Z).
Variable open_RGB : string -> option (Image RGB).
Variable resample_L : Image Z -> Z -> Z -> Z -> Z -> Z.
Variable resample_RGB : Image RGB -> Z -> Z -> Z -> Z -> RGB.

(** Whether [out_path.write_text(code, encoding="utf-8")] and
    [runpy.run_path(str(out_path))] return: both may raise. *)
Variable writes : string -> string -> bool.
Variable runs : string -> bool.

(** A call that is logged when it is made, and may raise. *)
Definition call (e : event) (returns : bool) : M unit :=
  ([e], if returns then Some tt else None).

(** [main], after [parse_args]: as [CLI.main], with the exceptions of the
    last two calls. *)
Definition main (args : Args) : M unit :=
  image_path <-
    match image args with
    | Some (String c p) => ret (String c p)
    | _ => match find_latest_image with
           | Some p => ret p
           | None => raise
           end
    end ;;
  (if is_file image_path then ret tt else raise) ;;;
  emit (Print ("Using image: " ++ image_path)) ;;;
  code <-
    match mode args with
    | Sketch =>
        r <- call_sketch open_L resample_L image_path (max_size args) ;;
        let '((w, h), points) := r in
        ret (generate_python_code_sketch
               (PyInt w) (PyInt h) (sketch_points_value points))
    | Color =>
        let size := if negb (max_size args =? 160)%Z
                    then max_size args else 80 in
        r <- call_color open_RGB resample_RGB image_path size ;;
        let '((w, h), points) := r in
        ret (generate_python_code_color
               (PyInt w) (PyInt h) (color_points_value points))
    end ;;
  call (Write_text (out args) code) (writes (out args) code) ;;;
  emit (Print ("Generated Python file: " ++ out args)) ;;;
  emit (Print "Opening drawing window...") ;;;
  call (Run_path (out args)) (runs (out args)).

End Main.

End CommandLine.

(** * Properties *)

(** ** Lists and ranges *)

Lemma range_length (n : Z) : List.length (range n) = Z.to_nat n.
Proof. unfold range. now rewrite length_map, length_seq. Qed.

Lemma range_In (n x : Z) : In x (range n) <-> 0 <= x < n.
Proof.
  unfold range. rewrite in_map_iff. split.
  - intros [k [<- Hk]]. apply in_seq in Hk. lia.
  - intros Hx. exists (Z.to_nat x). split; [lia | apply in_seq; lia].
Qed.

Lemma range_of_length (n : Z) : range (Z.of_nat (Z.to_nat n)) = range n.
Proof. unfold range. now rewrite Nat2Z.id. Qed.

Lemma range_nth (n : Z) (i : nat) (d : Z) :
  (i < Z.to_nat n)%nat -> nth i (range n) d = Z.of_nat i.
Proof.
  intros Hi. unfold range.
  rewrite (nth_indep _ d (Z.of_nat 0)) by now rewrite length_map, length_seq.
  rewrite map_nth, seq_nth by assumption. reflexivity.
Qed.

Lemma combine_map_self {A B : Type} (f : A -> B) (l : list A) :
  combine l (map f l) = map (fun i => (i, f i)) l.
Proof. induction l as [|a l IH]; simpl; [reflexivity | now rewrite IH]. Qed.

Lemma combine_snd_fst {A B : Type} (l : list (A * B)) :
  combine (map snd l) (map fst l) = map (fun p => (snd p, fst p)) l.
Proof. induction l as [|[a b] l IH]; simpl; [reflexivity | now rewrite IH]. Qed.

Lemma flat_map_of_map {A B C : Type} (f : B -> list C) (g : A -> B) (l : list A) :
  flat_map f (map g l) = flat_map (fun a => f (g a)) l.
Proof. induction l as [|a l IH]; simpl; [reflexivity | now rewrite IH]. Qed.

Lemma map_of_flat_map {A B C : Type} (f : B -> C) (g : A -> list B) (l : list A) :
  map f (flat_map g l) = flat_map (fun a => map f (g a)) l.
Proof.
  induction l as [|a l IH]; simpl; [reflexivity |].
  now rewrite map_app, IH.
Qed.

Lemma filter_of_map {A B : Type} (p : B -> bool) (g : A -> B) (l : list A) :
  List.filter p (map g l) = map g (List.filter (fun a => p (g a)) l).
Proof.
  induction l as [|a l IH]; simpl; [reflexivity |].
  destruct (p (g a)); simpl; now rewrite IH.
Qed.

Lemma enumerate_map_range {A : Type} (f : Z -> A) (n : Z) :
  Numpy.enumerate (map f (range n)) = map (fun i => (i, f i)) (range n).
Proof.
  unfold Numpy.enumerate.
  rewrite length_map, range_length, range_of_length.
  apply combine_map_self.
Qed.

Lemma argwhere_tabulated (w h : Z) (test : Z -> Z -> bool) :
  Numpy.argwhere
    (Numpy.mkArray (h, w)
                   (map (fun y => map (fun x => test x y) (range w)) (range h)))
  = flat_map (fun y => map (fun x => (y, x))
                           (List.filter (fun x => test x y) (range w)))
             (range h).
Proof.
  unfold Numpy.argwhere. simpl.
  rewrite enumerate_map_range, flat_map_of_map.
  apply flat_map_ext. intros y.
  rewrite enumerate_map_range, filter_of_map, map_map.
  reflexivity.
Qed.

Lemma where_zip_tabulated (w h : Z) (test : Z -> Z -> bool) :
  (let '(ys, xs) :=
     Numpy.np_where
       (Numpy.mkArray (h, w)
          (map (fun y => map (fun x => test x y) (range w)) (range h))) in
   combine xs ys) = scan w h test.
Proof.
  unfold Numpy.np_where. rewrite combine_snd_fst, argwhere_tabulated.
  unfold scan. rewrite map_of_flat_map.
  apply flat_map_ext. intros y. now rewrite map_map.
Qed.

Lemma scan_In (w h : Z) (test : Z -> Z -> bool) (x y : Z) :
  In (x, y) (scan w h test) <-> 0 <= x < w /\ 0 <= y < h /\ test x y = true.
Proof.
  unfold scan. rewrite in_flat_map. split.
  - intros [y' [Hy Hin]]. apply in_map_iff in Hin.
    destruct Hin as [x' [Heq Hx]]. inversion Heq; subst.
    apply filter_In in Hx. rewrite range_In in Hx, Hy. tauto.
  - intros (Hx & Hy & Ht). exists y. split; [now apply range_In |].
    apply in_map_iff. exists x. split; [reflexivity |].
    apply filter_In. split; [now apply range_In | assumption].
Qed.

(** ** Scan order *)

Lemma row_major_lt_irrefl (p : Z * Z) : ~ row_major_lt p p.
Proof. unfold row_major_lt. lia. Qed.

Lemma StronglySorted_append {A : Type} (R : A -> A -> Prop) (l1 l2 : list A) :
  StronglySorted R l1 -> StronglySorted R l2 ->
  (forall a b, In a l1 -> In b l2 -> R a b) ->
  StronglySorted R (l1 ++ l2).
Proof.
  induction l1 as [|a l1 IH]; simpl; intros H1 H2 Hc; [assumption |].
  apply StronglySorted_inv in H1. destruct H1 as [H1 Ha].
  constructor.
  - apply IH; auto.
  - apply Forall_app. split; [assumption |].
    apply Forall_forall. intros b Hb. apply Hc; auto.
Qed.

Lemma StronglySorted_filter {A : Type} (R : A -> A -> Prop) (p : A -> bool)
      (l : list A) :
  StronglySorted R l -> StronglySorted R (List.filter p l).
Proof.
  induction 1 as [|a l Hs IH Ha]; simpl; [constructor |].
  destruct (p a); [| assumption].
  constructor; [assumption |].
  apply Forall_forall. intros b Hb. apply filter_In in Hb.
  rewrite Forall_forall in Ha. now apply Ha.
Qed.

Lemma StronglySorted_NoDup {A : Type} (R : A -> A -> Prop) (l : list A) :
  (forall a, ~ R a a) -> StronglySorted R l -> NoDup l.
Proof.
  intros Hirr. induction 1 as [|a l Hs IH Ha]; constructor; [| assumption].
  intros Hin. rewrite Forall_forall in Ha. exact (Hirr a (Ha a Hin)).
Qed.

Lemma seq_sorted (k s : nat) : StronglySorted Z.lt (map Z.of_nat (seq s k)).
Proof.
  revert s. induction k as [|k IH]; intros s; simpl; constructor; [apply IH |].
  apply Forall_forall. intros z Hz. apply in_map_iff in Hz.
  destruct Hz as [i [<- Hi]]. apply in_seq in Hi. lia.
Qed.

Lemma range_sorted (n : Z) : StronglySorted Z.lt (range n).
Proof. apply seq_sorted. Qed.

Lemma row_sorted (y : Z) (xs : list Z) :
  StronglySorted Z.lt xs ->
  StronglySorted row_major_lt (map (fun x => (x, y)) xs).
Proof.
  induction 1 as [|a l Hs IH Ha]; simpl; constructor; [assumption |].
  apply Forall_forall. intros q Hq. apply in_map_iff in Hq.
  destruct Hq as [x [<- Hx]]. rewrite Forall_forall in Ha.
  right. simpl. split; [reflexivity | now apply Ha].
Qed.

Lemma rows_sorted (row : Z -> list Z) (ys : list Z) :
  (forall y, StronglySorted Z.lt (row y)) ->
  StronglySorted Z.lt ys ->
  StronglySorted row_major_lt
                 (flat_map (fun y => map (fun x => (x, y)) (row y)) ys).
Proof.
  intros Hrow. induction 1 as [|y ys Hs IH Hy]; simpl; [constructor |].
  apply StronglySorted_append; [now apply row_sorted | assumption |].
  intros p q Hp Hq. apply in_map_iff in Hp. destruct Hp as [x [<- _]].
  apply in_flat_map in Hq. destruct Hq as [y' [Hy' Hq]].
  apply in_map_iff in Hq. destruct Hq as [x' [<- _]].
  rewrite Forall_forall in Hy. left. simpl. now apply Hy.
Qed.

Lemma scan_sorted (w h : Z) (test : Z -> Z -> bool) :
  StronglySorted row_major_lt (scan w h test).
Proof.
  unfold scan. apply rows_sorted; [| apply range_sorted].
  intros y. apply StronglySorted_filter, range_sorted.
Qed.

(** ** The binary64 threshold *)

Lemma round_half_even_ge (a b : Z) : a / b <= Numpy.round_half_even a b.
Proof.
  unfold Numpy.round_half_even.
  destruct (2 * (a mod b) ?= b); [destruct (Z.even (a / b)) | |]; lia.
Qed.

Lemma round_half_even_low (a b : Z) :
  2 * (a mod b) < b -> Numpy.round_half_even a b = a / b.
Proof.
  intros H. unfold Numpy.round_half_even.
  destruct (Z.compare_spec (2 * (a mod b)) b); [lia | reflexivity | lia].
Qed.

Lemma round_half_even_le (a b : Z) : Numpy.round_half_even a b <= a / b + 1.
Proof.
  unfold Numpy.round_half_even.
  destruct (2 * (a mod b) ?= b); [destruct (Z.even (a / b)) | |]; lia.
Qed.

(** Rounding [s / n] to a grid of step [2^-k] finer than [1 / (2n)] never
    reaches an integer [v] from below. *)
Lemma round_below_integer (s n v k : Z) :
  0 < n -> 0 <= s -> 0 <= k -> n < 2 ^ (k + 1) ->
  Numpy.round_half_even (s * 2 ^ k) n < v * 2 ^ k <-> s < v * n.
Proof.
  intros Hn Hs Hk Hnk.
  replace (k + 1) with (Z.succ k) in Hnk by lia.
  rewrite Z.pow_succ_r in Hnk by assumption.
  assert (HK : 0 < 2 ^ k) by (apply Z.pow_pos_nonneg; lia).
  set (K := 2 ^ k) in *.
  pose proof (Z.div_mod (s * K) n ltac:(lia)) as Hdm.
  pose proof (Z.mod_pos_bound (s * K) n Hn) as Hr.
  set (q := s * K / n) in *. set (r := (s * K) mod n) in *.
  split.
  - intros Hlt.
    pose proof (round_half_even_ge (s * K) n) as Hge. fold q in Hge.
    assert (q < v * K) by lia.
    assert (n * q < n * (v * K)) by (apply Z.mul_lt_mono_pos_l; lia).
    nia.
  - intros Hlt.
    assert (Ha : s * K <= v * K * n - K) by nia.
    assert (Hq : q < v * K) by nia.
    destruct (Z_lt_le_dec q (v * K - 1)) as [Hsmall | Hbig].
    + pose proof (round_half_even_le (s * K) n) as Hle. fold q in Hle. lia.
    + assert (q = v * K - 1) by lia.
      assert (2 * r < n) by nia.
      rewrite round_half_even_low by (fold r; assumption).
      fold q. lia.
Qed.

(** The exponent [fl64_div] chooses for a quotient below 256. *)
Lemma fl64_div_exponent (s n : Z) :
  0 < n -> 0 < s -> s <= 255 * n ->
  exists k, 45 <= k /\
            Numpy.fl64_div s n
            = Numpy.Finite (Numpy.round_half_even (s * 2 ^ k) n) (- k).
Proof.
  intros Hn Hs Hb. unfold Numpy.fl64_div.
  replace (s =? 0) with false by (symmetry; apply Z.eqb_neq; lia).
  assert (Hd : Z.log2 s - Z.log2 n <= 8).
  { assert (Z.log2 s <= Z.log2 (n * 2 ^ 8)) by (apply Z.log2_le_mono; lia).
    rewrite Z.log2_mul_pow2 in H by lia. lia. }
  set (d := Z.log2 s - Z.log2 n) in *.
  assert (Hscaled : forall j, 0 <= j -> Numpy.scaled s j n = (s * 2 ^ j, n)).
  { intros j Hj. unfold Numpy.scaled.
    now replace (0 <=? j) with true by (symmetry; apply Z.leb_le; lia). }
  rewrite (Hscaled (52 - d)) by lia.
  destruct (n * 2 ^ 52 <=? s * 2 ^ (52 - d)) eqn:Hcmp.
  - assert (d <= 7).
    { destruct (Z.eq_dec d 8) as [E | E]; [| lia].
      rewrite E in Hcmp. apply Z.leb_le in Hcmp.
      change (2 ^ 52) with (2 ^ 8 * 2 ^ 44) in Hcmp.
      change (2 ^ (52 - 8)) with (2 ^ 44) in Hcmp. lia. }
    exists (52 - d). split; [lia |].
    replace (- (d - 52)) with (52 - d) by lia.
    rewrite Hscaled by lia. f_equal. lia.
  - exists (53 - d). split; [lia |].
    replace (- (d - 53)) with (53 - d) by lia.
    rewrite Hscaled by lia. f_equal. lia.
Qed.

(** Comparing an 8-bit entry with the binary64 quotient [s / n] decides
    the exact comparison, for fewer than 2^46 entries. *)
Lemma fl64_threshold_exact (s n v : Z) :
  0 < n -> n < 2 ^ 46 -> 0 <= s -> s <= 255 * n ->
  Numpy.f64_ltb (Numpy.fl64_div s n) (Numpy.Finite v 0) = true <-> s < v * n.
Proof.
  intros Hn Hn46 Hs Hb.
  destruct (Z.eq_dec s 0) as [-> | Hs0].
  - unfold Numpy.fl64_div, Numpy.f64_ltb. simpl.
    rewrite Z.ltb_lt. nia.
  - destruct (fl64_div_exponent s n) as [k [Hk ->]]; try lia.
    unfold Numpy.f64_ltb.
    replace (Z.min (- k) 0) with (- k) by lia.
    replace (- k - - k) with 0 by lia.
    replace (0 - - k) with k by lia.
    rewrite Z.ltb_lt, Z.pow_0_r, Z.mul_1_r.
    apply round_below_integer; try lia.
    apply Z.lt_le_trans with (2 ^ 46); [assumption |].
    apply Z.pow_le_mono_r; lia.
Qed.

(** ** Thumbnail sizes *)

Lemma inject_Z_nonzero (z : Z) : z <> 0 -> ~ (inject_Z z == 0)%Q.
Proof. intros Hz E. unfold Qeq in E. simpl in E. lia. Qed.

Lemma Qdiv_inject_le (a b c d : Z) :
  0 < b -> 0 < d ->
  (inject_Z a / inject_Z b <= inject_Z c / inject_Z d)%Q <-> a * d <= c * b.
Proof.
  intros Hb Hd.
  destruct b as [|p|p]; try lia. destruct d as [|q|q]; try lia.
  rewrite <- !Qmake_Qdiv. unfold Qle. simpl. reflexivity.
Qed.

Lemma round_aspect_choice (number : Q) (key : Z -> Q) :
  (0 < number)%Q ->
  Qfloor number <= Pillow.round_aspect number key <= Qceiling number
  /\ 1 <= Pillow.round_aspect number key.
Proof.
  intros Hpos. unfold Pillow.round_aspect.
  assert (Hlh : Qfloor number <= Qceiling number).
  { rewrite Zle_Qle. apply Qle_floor_ceiling. }
  assert (Hhi : 1 <= Qceiling number).
  { assert (0 < Qceiling number); [| lia].
    rewrite Zlt_Qlt. eapply Qlt_le_trans; [exact Hpos | apply Qle_ceiling]. }
  destruct (Qle_bool _ _); lia.
Qed.

Lemma floor_of_quotient (a b : Z) : Qfloor (inject_Z a / inject_Z b) = a / b.
Proof. symmetry. apply Zdiv_Qdiv. Qed.

Lemma ceiling_of_quotient (a b : Z) :
  Qceiling (inject_Z a / inject_Z b) = - ((- a) / b).
Proof.
  unfold Qceiling. f_equal. rewrite <- floor_of_quotient.
  apply Qfloor_comp. rewrite inject_Z_opp. unfold Qdiv. ring.
Qed.

(** The integers between the floor and the ceiling of [a / b]. *)
Lemma between_floor_ceiling (a b r : Z) :
  0 < b -> a / b <= r <= - ((- a) / b) -> Z.abs (r * b - a) < b.
Proof.
  intros Hb [Hlo Hhi].
  pose proof (Z.div_mod a b ltac:(lia)) as H1.
  pose proof (Z.mod_pos_bound a b Hb) as H2.
  pose proof (Z.div_mod (- a) b ltac:(lia)) as H3.
  pose proof (Z.mod_pos_bound (- a) b Hb) as H4.
  nia.
Qed.

Lemma round_aspect_quotient (number : Q) (key : Z -> Q) (a b : Z) :
  0 < a -> 0 < b -> (number == inject_Z a / inject_Z b)%Q ->
  a / b <= Pillow.round_aspect number key <= - ((- a) / b)
  /\ 1 <= Pillow.round_aspect number key.
Proof.
  intros Ha Hb Heq.
  assert (Hpos : (0 < number)%Q).
  { rewrite Heq. apply Qlt_shift_div_l.
    - unfold Qlt. simpl. lia.
    - rewrite Qmult_0_l. unfold Qlt. simpl. lia. }
  destruct (round_aspect_choice number key Hpos) as [Hc H1].
  rewrite (Qfloor_comp _ _ Heq), (Qceiling_comp _ _ Heq) in Hc.
  rewrite floor_of_quotient, ceiling_of_quotient in Hc. auto.
Qed.

(** What [preserve_aspect_ratio] answers for a square bound: either the
    image fits, or the longer side becomes the bound and the other side is
    the proportional value, rounded down or up. *)
Lemma preserve_aspect_ratio_square (w h m : Z) :
  1 <= w -> 1 <= h -> 1 <= m ->
  (w <= m /\ h <= m /\ Pillow.preserve_aspect_ratio w h (m, m) = Some None)
  \/ (exists x y,
        Pillow.preserve_aspect_ratio w h (m, m) = Some (Some (x, y))
        /\ (m < w \/ m < h)
        /\ 1 <= x <= w /\ 1 <= y <= h /\ Z.max x y = m
        /\ Z.abs (x * h - y * w) < Z.max w h).
Proof.
  intros Hw Hh Hm. unfold Pillow.preserve_aspect_ratio.
  destruct ((w <=? m) && (h <=? m)) eqn:Hfit.
  - apply andb_true_iff in Hfit. rewrite !Z.leb_le in Hfit. left. tauto.
  - right. apply andb_false_iff in Hfit. rewrite !Z.leb_gt in Hfit.
    replace (h =? 0) with false by (symmetry; apply Z.eqb_neq; lia).
    replace (m =? 0) with false by (symmetry; apply Z.eqb_neq; lia).
    destruct (Qle_bool _ _) eqn:Hbranch.
    + apply Qle_bool_iff in Hbranch.
      rewrite Qdiv_inject_le in Hbranch by lia.
      assert (Hwh : w <= h) by nia.
      match goal with |- context [Pillow.round_aspect ?n ?k] =>
        destruct (round_aspect_quotient n k (m * w) h) as [[Hlo Hhi] H1];
        [nia | lia | |]
      end.
      { rewrite inject_Z_mult. field. apply inject_Z_nonzero. lia. }
      eexists _, m. split; [reflexivity |].
      pose proof (between_floor_ceiling (m * w) h _ ltac:(lia) (conj Hlo Hhi)) as Habs.
      split; [lia |].
      pose proof (Z.div_mod (- (m * w)) h ltac:(lia)) as H3.
      pose proof (Z.mod_pos_bound (- (m * w)) h ltac:(lia)) as H4.
      repeat split; try lia; try nia.
    + assert (Hwh : h < w).
      { destruct (Z_lt_le_dec h w) as [|Hle]; [assumption | exfalso].
        assert (Qle_bool (inject_Z w / inject_Z h) (inject_Z m / inject_Z m) = true).
        { apply Qle_bool_iff. rewrite Qdiv_inject_le by lia. nia. }
        congruence. }
      replace (w =? 0) with false by (symmetry; apply Z.eqb_neq; lia).
      match goal with |- context [Pillow.round_aspect ?n ?k] =>
        destruct (round_aspect_quotient n k (m * h) w) as [[Hlo Hhi] H1];
        [nia | lia | |]
      end.
      { rewrite inject_Z_mult. field.
        split; apply inject_Z_nonzero; lia. }
      eexists m, _. split; [reflexivity |].
      pose proof (between_floor_ceiling (m * h) w _ ltac:(lia) (conj Hlo Hhi)) as Habs.
      split; [lia |].
      pose proof (Z.div_mod (- (m * h)) w ltac:(lia)) as H3.
      pose proof (Z.mod_pos_bound (- (m * h)) w ltac:(lia)) as H4.
      repeat split; try lia; try nia.
Qed.

(** [thumbnail] with a square bound of at least 1 on an image with positive
    sides returns an image, either the input itself or a resampling of it,
    whose sides are bounded by the bound and by the input's. *)
Lemma thumbnail_square {P : Type} (resample : Image P -> Z -> Z -> Z -> Z -> P)
      (img : Image P) (m : Z) :
  1 <= im_width img -> 1 <= im_height img -> 1 <= m ->
  exists img',
    Pillow.thumbnail resample img (m, m) = Some img'
    /\ (img' = img
        \/ img' = mkImage (im_width img') (im_height img')
                          (resample img (im_width img') (im_height img')))
    /\ 1 <= im_width img' <= im_width img
    /\ 1 <= im_height img' <= im_height img
    /\ Z.max (im_width img') (im_height img') <= m
    /\ Z.abs (im_width img' * im_height img - im_height img' * im_width img)
       < Z.max (im_width img) (im_height img).
Proof.
  intros Hw Hh Hm. unfold Pillow.thumbnail.
  destruct (preserve_aspect_ratio_square (im_width img) (im_height img) m Hw Hh Hm)
    as [(Hfw & Hfh & ->) | (x & y & -> & Hbig & Hx & Hy & Hmax & Habs)].
  - exists img. repeat split; try lia. now left.
  - simpl. destruct ((x =? im_width img) && (y =? im_height img)) eqn:Hsame.
    + apply andb_true_iff in Hsame. rewrite !Z.eqb_eq in Hsame. lia.
    + unfold Pillow.resize.
      replace ((x <=? 0) || (y <=? 0)) with false
        by (symmetry; apply orb_false_iff; rewrite !Z.leb_gt; lia).
      eexists. split; [reflexivity |]. simpl.
      repeat split; try lia. now right.
Qed.

(** ** The edge filter *)

Lemma filter_width (args : list Z * Z * Z) (im : Image Z) :
  im_width (Pillow.filter args im) = im_width im.
Proof.
  unfold Pillow.filter. destruct args as [[kernel scale] offset].
  destruct ((im_width im <? 3) || (im_height im <? 3)); reflexivity.
Qed.

Lemma filter_height (args : list Z * Z * Z) (im : Image Z) :
  im_height (Pillow.filter args im) = im_height im.
Proof.
  unfold Pillow.filter. destruct args as [[kernel scale] offset].
  destruct ((im_width im <? 3) || (im_height im <? 3)); reflexivity.
Qed.

Lemma clip8_range (v : Q) : 0 <= Pillow.clip8 v <= 255.
Proof.
  unfold Pillow.clip8.
  destruct (Qle_bool v 0) eqn:H0; [lia |].
  destruct (Qle_bool 255 v) eqn:H255; [lia |].
  assert (Hpos : ~ (v <= 0)%Q) by (rewrite <- Qle_bool_iff; congruence).
  assert (Hlt : ~ (255 <= v)%Q) by (rewrite <- Qle_bool_iff; congruence).
  apply Qnot_le_lt in Hpos, Hlt.
  split.
  - change 0 with (Qfloor (inject_Z 0)). apply Qfloor_resp_le, Qlt_le_weak, Hpos.
  - change 255 with (Qfloor (inject_Z 255)). apply Qfloor_resp_le, Qlt_le_weak, Hlt.
Qed.

Lemma filter_uint8 (args : list Z * Z * Z) (im : Image Z) :
  uint8_image im -> uint8_image (Pillow.filter args im).
Proof.
  intros Him x y. rewrite filter_width, filter_height. intros Hx Hy.
  unfold Pillow.filter. destruct args as [[kernel scale] offset].
  destruct ((im_width im <? 3) || (im_height im <? 3)); [now apply Him |].
  simpl.
  destruct ((y =? 0) || (y =? im_height im - 1) || (x =? 0) || (x =? im_width im - 1));
    [now apply Him | apply clip8_range].
Qed.


(** ** The array of an image *)

Lemma array_entries {P : Type} (im : Image P) (v : P) :
  In v (concat (Numpy.rows (Numpy.array im)))
  <-> exists x y, 0 <= x < im_width im /\ 0 <= y < im_height im
                  /\ v = im_pixel im x y.
Proof.
  simpl. rewrite in_concat. split.
  - intros [row [Hrow Hv]]. apply in_map_iff in Hrow.
    destruct Hrow as [y [<- Hy]]. apply in_map_iff in Hv.
    destruct Hv as [x [<- Hx]]. rewrite range_In in Hx, Hy.
    exists x, y. auto.
  - intros (x & y & Hx & Hy & ->).
    exists (map (fun x => im_pixel im x y) (range (im_width im))). split.
    + apply in_map_iff. exists y. split; [reflexivity | now apply range_In].
    + apply in_map_iff. exists x. split; [reflexivity | now apply range_In].
Qed.

Lemma tabulated_length {A : Type} (f : Z -> Z -> A) (xs ys : list Z) :
  List.length (concat (map (fun y => map (fun x => f x y) xs) ys))
  = (List.length ys * List.length xs)%nat.
Proof.
  induction ys as [|y ys IH]; simpl; [reflexivity |].
  now rewrite length_app, length_map, IH.
Qed.

Lemma array_size {P : Type} (im : Image P) :
  0 <= im_width im -> 0 <= im_height im ->
  Numpy.size (Numpy.array im) = im_width im * im_height im.
Proof.
  intros Hw Hh. unfold Numpy.size. simpl.
  rewrite tabulated_length, !range_length. lia.
Qed.

Lemma sum_bounds (l : list Z) :
  (forall v, In v l -> 0 <= v <= 255) ->
  0 <= fold_right Z.add 0 l <= 255 * Z.of_nat (List.length l).
Proof.
  induction l as [|a l IH]; intros Hl; [simpl; lia |].
  assert (0 <= a <= 255) by (apply Hl; now left).
  assert (0 <= fold_right Z.add 0 l <= 255 * Z.of_nat (List.length l))
    by (apply IH; intros v Hv; apply Hl; now right).
  cbn [fold_right List.length]. lia.
Qed.

Lemma array_sum_bounds (im : Image Z) :
  uint8_image im ->
  0 <= Numpy.sum (Numpy.array im) <= 255 * Numpy.size (Numpy.array im).
Proof.
  intros Him. unfold Numpy.sum, Numpy.size. apply sum_bounds.
  intros v Hv. apply array_entries in Hv.
  destruct Hv as (x & y & Hx & Hy & ->). now apply Him.
Qed.

Lemma gt_array (im : Image Z) (threshold : Numpy.float64) :
  Numpy.gt (Numpy.array im) threshold
  = Numpy.mkArray (im_height im, im_width im)
      (map (fun y =>
              map (fun x => Numpy.f64_ltb threshold (Numpy.Finite (im_pixel im x y) 0))
                  (range (im_width im)))
           (range (im_height im))).
Proof.
  unfold Numpy.gt. simpl. f_equal. rewrite map_map.
  apply map_ext. intros y. now rewrite map_map.
Qed.

Lemma sketch_unfold (resample : Image Z -> Z -> Z -> Z -> Z -> Z)
      (img img' : Image Z) (m : Z) :
  Pillow.thumbnail resample img (m, m) = Some img' ->
  image_to_points_sketch resample img m
  = Some ((im_width img', im_height img'),
          scan (im_width img') (im_height img')
               (above_threshold (Pillow.filter Pillow.FIND_EDGES img'))).
Proof.
  intros Hth. unfold image_to_points_sketch. rewrite Hth.
  rewrite gt_array.
  pose proof (where_zip_tabulated
                (im_width (Pillow.filter Pillow.FIND_EDGES img'))
                (im_height (Pillow.filter Pillow.FIND_EDGES img'))
                (above_threshold (Pillow.filter Pillow.FIND_EDGES img'))) as Hz.
  unfold above_threshold in *.
  destruct (Numpy.np_where _) as [ys xs].
  rewrite Hz, filter_width, filter_height. reflexivity.
Qed.

Lemma nth_map_range {A : Type} (F : Z -> A) (n i : Z) (d : A) :
  0 <= i < n -> nth (Z.to_nat i) (map F (range n)) d = F i.
Proof.
  intros Hi.
  rewrite (nth_indep _ d (F 0)) by (rewrite length_map, range_length; lia).
  rewrite map_nth, range_nth by lia. f_equal. lia.
Qed.

Lemma array_item {P : Type} (im : Image P) (x y : Z) (d : P) :
  0 <= x < im_width im -> 0 <= y < im_height im ->
  Numpy.item (Numpy.array im) y x d = im_pixel im x y.
Proof.
  intros Hx Hy. unfold Numpy.item. simpl.
  rewrite (nth_map_range (fun y => map (fun x => im_pixel im x y) (range (im_width im))))
    by assumption.
  now rewrite (nth_map_range (fun x => im_pixel im x y)).
Qed.

(** ** The mean threshold *)

Lemma Qlt_bool_iff (a b : Q) : Qlt_bool a b = true <-> (a < b)%Q.
Proof.
  unfold Qlt_bool. rewrite negb_true_iff. split.
  - intros H. apply Qnot_le_lt. rewrite <- Qle_bool_iff. congruence.
  - intros H. apply not_true_is_false. rewrite Qle_bool_iff.
    now apply Qlt_not_le.
Qed.

Lemma quotient_lt_integer (s n v : Z) :
  0 < n -> (inject_Z s / inject_Z n < inject_Z v)%Q <-> s < v * n.
Proof.
  intros Hn. destruct n as [|p|p]; try lia.
  rewrite <- Qmake_Qdiv. unfold Qlt. simpl. lia.
Qed.

(** The comparison with the binary64 mean decides the comparison with the
    arithmetic mean. *)
Lemma threshold_is_mean (im : Image Z) (v : Z) :
  1 <= im_width im -> 1 <= im_height im ->
  im_width im * im_height im <= 2 * MAX_IMAGE_PIXELS ->
  uint8_image im ->
  Numpy.f64_ltb (Numpy.mean (Numpy.array im)) (Numpy.Finite v 0) = true
  <-> (arithmetic_mean (Numpy.array im) < inject_Z v)%Q.
Proof.
  intros Hw Hh Hpix Him.
  pose proof (array_size im ltac:(lia) ltac:(lia)) as Hsize.
  pose proof (array_sum_bounds im Him) as Hsum.
  assert (Hn : 0 < Numpy.size (Numpy.array im)) by (rewrite Hsize; nia).
  unfold arithmetic_mean. rewrite quotient_lt_integer by assumption.
  unfold Numpy.mean.
  replace (Numpy.size (Numpy.array im) =? 0) with false
    by (symmetry; apply Z.eqb_neq; lia).
  apply fl64_threshold_exact; try lia.
  rewrite Hsize. eapply Z.le_lt_trans; [exact Hpix |]. reflexivity.
Qed.

Lemma scan_length (p : Z -> Z -> Z) (t : Z -> bool) (xs ys : list Z) :
  List.length
    (flat_map (fun y => map (fun x => (x, y))
                            (List.filter (fun x => t (p x y)) xs)) ys)
  = List.length
      (List.filter t (concat (map (fun y => map (fun x => p x y) xs) ys))).
Proof.
  induction ys as [|y ys IH]; simpl; [reflexivity |].
  rewrite length_app, filter_app, length_app, IH.
  now rewrite length_map, filter_of_map, length_map.
Qed.

Lemma thumbnail_decoded (resample : Image Z -> Z -> Z -> Z -> Z -> Z)
      (img : Image Z) (m : Z) :
  decoded_L img -> resample_uint8 resample -> 1 <= m ->
  exists img',
    Pillow.thumbnail resample img (m, m) = Some img' /\ decoded_L img'.
Proof.
  intros [Hw Hh Hpix Hu8] Hres Hm.
  destruct (thumbnail_square resample img m Hw Hh Hm)
    as (img' & Hth & Hshape & Hw' & Hh' & _ & _).
  exists img'. split; [assumption |].
  constructor; try lia; [nia |].
  destruct Hshape as [-> | ->]; [assumption |].
  intros x y _ _. apply Hres.
Qed.

Lemma sketch_returns (resample : Image Z -> Z -> Z -> Z -> Z -> Z)
      (img : Image Z) (m : Z) :
  1 <= im_width img -> 1 <= im_height img -> 1 <= m ->
  exists img',
    Pillow.thumbnail resample img (m, m) = Some img'
    /\ image_to_points_sketch resample img m
       = Some ((im_width img', im_height img'),
               scan (im_width img') (im_height img')
                    (above_threshold (Pillow.filter Pillow.FIND_EDGES img'))).
Proof.
  intros Hw Hh Hm.
  destruct (thumbnail_square resample img m Hw Hh Hm) as (img' & Hth & _).
  exists img'. split; [assumption | now apply sketch_unfold].
Qed.

(** C1: a coordinate is returned by the sketch sampler exactly when its
    edge-filtered intensity is strictly greater than the arithmetic mean of
    all edge-filtered intensities of the resized image; the number of
    points is the number of such intensities and is at most width times
    height. *)
Theorem sketch_points_above_mean
        (resample : Image Z -> Z -> Z -> Z -> Z -> Z) (img : Image Z)
        (max_size : Z) :
  decoded_L img -> resample_uint8 resample -> 1 <= max_size ->
  exists img' points,
    Pillow.thumbnail resample img (max_size, max_size) = Some img'
    /\ image_to_points_sketch resample img max_size
       = Some ((im_width img', im_height img'), points)
    /\ let arr := Numpy.array (Pillow.filter Pillow.FIND_EDGES img') in
       (forall x y,
           In (x, y) points
           <-> 0 <= x < im_width img' /\ 0 <= y < im_height img'
               /\ (arithmetic_mean arr < inject_Z (Numpy.item arr y x 0%Z))%Q)
       /\ List.length points = count_above_mean arr
       /\ Z.of_nat (List.length points) <= im_width img' * im_height img'.
Proof.
  intros Himg Hres Hm.
  destruct (thumbnail_decoded resample img max_size Himg Hres Hm)
    as (img' & Hth & [Hw Hh Hpix Hu8]).
  exists img'. eexists. split; [assumption |].
  split; [now apply sketch_unfold |].
  set (edges := Pillow.filter Pillow.FIND_EDGES img').
  assert (Hew : im_width edges = im_width img') by apply filter_width.
  assert (Heh : im_height edges = im_height img') by apply filter_height.
  assert (Heu : uint8_image edges) by now apply filter_uint8.
  assert (Hdec : forall v,
             Numpy.f64_ltb (Numpy.mean (Numpy.array edges)) (Numpy.Finite v 0) = true
             <-> (arithmetic_mean (Numpy.array edges) < inject_Z v)%Q).
  { intros v. apply threshold_is_mean; rewrite ?Hew, ?Heh; assumption. }
  assert (Hlen : List.length (scan (im_width img') (im_height img')
                                   (above_threshold edges))
                 = count_above_mean (Numpy.array edges)).
  { unfold scan, above_threshold, count_above_mean.
    rewrite (scan_length (im_pixel edges)
               (fun v => Numpy.f64_ltb (Numpy.mean (Numpy.array edges))
                                       (Numpy.Finite v 0))).
    simpl Numpy.rows. rewrite Hew, Heh. f_equal.
    apply filter_ext. intros v.
    apply eq_true_iff_eq. rewrite Hdec, Qlt_bool_iff. reflexivity. }
  cbv zeta. split; [| split].
  - intros x y. rewrite scan_In. fold edges.
    split; intros (Hx & Hy & Ht); (split; [| split]); try assumption.
    + rewrite array_item by (rewrite ?Hew, ?Heh; assumption).
      apply Hdec. exact Ht.
    + rewrite array_item in Ht by (rewrite ?Hew, ?Heh; assumption).
      apply Hdec. exact Ht.
  - exact Hlen.
  - rewrite Hlen. unfold count_above_mean.
    etransitivity; [apply inj_le, filter_length_le |].
    fold (Numpy.size (Numpy.array edges)).
    rewrite array_size by (rewrite ?Hew, ?Heh; lia).
    rewrite Hew, Heh. lia.
Qed.

(** C8: the points of the sketch sampler are in strict row-major order of
    the resized image, hence without duplicates. *)
Theorem sketch_points_row_major
        (resample : Image Z -> Z -> Z -> Z -> Z -> Z) (img : Image Z)
        (max_size : Z) :
  1 <= im_width img -> 1 <= im_height img -> 1 <= max_size ->
  exists size points,
    image_to_points_sketch resample img max_size = Some (size, points)
    /\ StronglySorted row_major_lt points
    /\ NoDup points.
Proof.
  intros Hw Hh Hm.
  destruct (sketch_returns resample img max_size Hw Hh Hm) as (img' & _ & Hrun).
  eexists _, _. split; [exact Hrun |].
  split; [apply scan_sorted |].
  apply StronglySorted_NoDup with row_major_lt;
    [exact row_major_lt_irrefl | apply scan_sorted].
Qed.

(** C10: every point of the sketch sampler lies inside the returned
    dimensions, which are the shape (height, width) of the filtered
    array. *)
Theorem sketch_points_in_bounds
        (resample : Image Z -> Z -> Z -> Z -> Z -> Z) (img : Image Z)
        (max_size : Z) :
  1 <= im_width img -> 1 <= im_height img -> 1 <= max_size ->
  exists img' width height points,
    Pillow.thumbnail resample img (max_size, max_size) = Some img'
    /\ image_to_points_sketch resample img max_size
       = Some ((width, height), points)
    /\ Numpy.shape (Numpy.array (Pillow.filter Pillow.FIND_EDGES img'))
       = (height, width)
    /\ forall x y, In (x, y) points -> 0 <= x < width /\ 0 <= y < height.
Proof.
  intros Hw Hh Hm.
  destruct (sketch_returns resample img max_size Hw Hh Hm) as (img' & Hth & Hrun).
  exists img'. eexists _, _, _. split; [exact Hth |]. split; [exact Hrun |].
  split; [cbn [Numpy.shape Numpy.array]; now rewrite filter_width, filter_height |].
  intros x y Hin. apply scan_In in Hin. tauto.
Qed.

(** ** The color sampler *)

Lemma flat_map_ext_In {A B : Type} (f g : A -> list B) (l : list A) :
  (forall a, In a l -> f a = g a) -> flat_map f l = flat_map g l.
Proof.
  induction l as [|a l IH]; intros H; simpl; [reflexivity |].
  rewrite (H a) by now left. f_equal. apply IH. intros b Hb. apply H. now right.
Qed.

Lemma color_unfold (resample : Image RGB -> Z -> Z -> Z -> Z -> RGB)
      (img img' : Image RGB) (m : Z) :
  Pillow.thumbnail resample img (m, m) = Some img' ->
  image_to_points_color resample img m
  = Some ((im_width img', im_height img'), pixels_row_major img').
Proof.
  intros Hth. unfold image_to_points_color. rewrite Hth.
  cbn [Numpy.shape Numpy.array].
  apply (f_equal Some), (f_equal (pair _)).
  unfold pixels_row_major. apply flat_map_ext_In. intros y Hy.
  apply map_ext_in. intros x Hx. rewrite range_In in Hx, Hy.
  rewrite array_item by assumption.
  now destruct (im_pixel img' x y) as [[r g] b].
Qed.

Lemma color_returns (resample : Image RGB -> Z -> Z -> Z -> Z -> RGB)
      (img : Image RGB) (m : Z) :
  1 <= im_width img -> 1 <= im_height img -> 1 <= m ->
  exists img',
    Pillow.thumbnail resample img (m, m) = Some img'
    /\ image_to_points_color resample img m
       = Some ((im_width img', im_height img'), pixels_row_major img').
Proof.
  intros Hw Hh Hm.
  destruct (thumbnail_square resample img m Hw Hh Hm) as (img' & Hth & _).
  exists img'. split; [assumption | now apply color_unfold].
Qed.

Lemma rows_nth_error {A B : Type} (g : A -> list B) (n : nat) (ys : list A)
      (i j : nat) (y : A) :
  (forall a, In a ys -> List.length (g a) = n) ->
  (j < n)%nat -> nth_error ys i = Some y ->
  nth_error (flat_map g ys) (i * n + j) = nth_error (g y) j.
Proof.
  intros Hlen Hj. revert i.
  induction ys as [|a ys IH]; intros i Hi; [destruct i; discriminate |].
  destruct i as [|i]; simpl in Hi |- *.
  - inversion Hi; subst. apply nth_error_app1.
    rewrite (Hlen y) by now left. assumption.
  - rewrite nth_error_app2 by (rewrite (Hlen a) by (now left); lia).
    rewrite (Hlen a) by now left.
    replace (n + i * n + j - n)%nat with (i * n + j)%nat by lia.
    apply IH; [| assumption]. intros b Hb. apply Hlen. now right.
Qed.

Lemma range_nth_error (n i : Z) :
  0 <= i < n -> nth_error (range n) (Z.to_nat i) = Some i.
Proof.
  intros Hi. unfold range.
  rewrite nth_error_map, nth_error_seq.
  destruct (Nat.ltb_spec (Z.to_nat i) (Z.to_nat n)); [| lia].
  simpl. f_equal. lia.
Qed.

Lemma pixels_row_major_nth {P : Type} (im : Image P) (x y : Z) :
  0 <= x < im_width im -> 0 <= y < im_height im ->
  nth_error (pixels_row_major im) (Z.to_nat (y * im_width im + x))
  = Some (x, y, im_pixel im x y).
Proof.
  intros Hx Hy. unfold pixels_row_major.
  replace (Z.to_nat (y * im_width im + x))
    with (Z.to_nat y * Z.to_nat (im_width im) + Z.to_nat x)%nat by nia.
  rewrite (rows_nth_error _ (Z.to_nat (im_width im)) _ _ _ y).
  - rewrite nth_error_map, range_nth_error by assumption. reflexivity.
  - intros a _. now rewrite length_map, range_length.
  - lia.
  - now apply range_nth_error.
Qed.

Lemma pixels_row_major_length {P : Type} (im : Image P) :
  0 <= im_width im -> 0 <= im_height im ->
  Z.of_nat (List.length (pixels_row_major im)) = im_width im * im_height im.
Proof.
  intros Hw Hh. unfold pixels_row_major.
  rewrite flat_map_concat_map.
  rewrite (tabulated_length (fun x y => (x, y, im_pixel im x y))).
  rewrite !range_length. lia.
Qed.

Lemma pixels_row_major_coordinates {P : Type} (im : Image P) :
  map fst (pixels_row_major im)
  = scan (im_width im) (im_height im) (fun _ _ => true).
Proof.
  unfold pixels_row_major, scan. rewrite map_of_flat_map.
  apply flat_map_ext. intros y. rewrite map_map. simpl.
  f_equal. symmetry. apply forallb_filter_id.
  apply forallb_forall. reflexivity.
Qed.

(** C2: the color sampler returns one entry per pixel of the resized image,
    in row-major order: the entry at index [y * width + x] is
    [(x, y, color at (x, y))]; the coordinates are pairwise distinct and are
    exactly those of the grid. *)
Theorem color_points_dense
        (resample : Image RGB -> Z -> Z -> Z -> Z -> RGB) (img : Image RGB)
        (max_size : Z) :
  1 <= im_width img -> 1 <= im_height img -> 1 <= max_size ->
  exists img' points,
    Pillow.thumbnail resample img (max_size, max_size) = Some img'
    /\ image_to_points_color resample img max_size
       = Some ((im_width img', im_height img'), points)
    /\ Z.of_nat (List.length points) = im_width img' * im_height img'
    /\ (forall x y,
           0 <= x < im_width img' -> 0 <= y < im_height img' ->
           nth_error points (Z.to_nat (y * im_width img' + x))
           = Some (x, y, im_pixel img' x y))
    /\ NoDup (map fst points)
    /\ (forall x y,
           In (x, y) (map fst points)
           <-> 0 <= x < im_width img' /\ 0 <= y < im_height img').
Proof.
  intros Hw Hh Hm.
  destruct (thumbnail_square resample img max_size Hw Hh Hm)
    as (img' & Hth & _ & Hw' & Hh' & _).
  exists img', (pixels_row_major img').
  split; [assumption |].
  split; [now apply color_unfold |].
  split; [apply pixels_row_major_length; lia |].
  split; [intros x y; apply pixels_row_major_nth |].
  rewrite pixels_row_major_coordinates. split.
  - apply StronglySorted_NoDup with row_major_lt;
      [exact row_major_lt_irrefl | apply scan_sorted].
  - intros x y. rewrite scan_In. tauto.
Qed.


(** ** Uniform images *)



Lemma sum_constant (c : Z) (l : list Z) :
  (forall v, In v l -> v = c) ->
  fold_right Z.add 0 l = c * Z.of_nat (List.length l).
Proof.
  induction l as [|a l IH]; intros Hl; [simpl; lia |].
  cbn [fold_right List.length].
  rewrite IH by (intros v Hv; apply Hl; now right).
  rewrite (Hl a) by now left. lia.
Qed.


Lemma scan_ext (w h : Z) (t t' : Z -> Z -> bool) :
  (forall x y, 0 <= x < w -> 0 <= y < h -> t x y = t' x y) ->
  scan w h t = scan w h t'.
Proof.
  intros Heq. unfold scan. apply flat_map_ext_In. intros y Hy.
  f_equal. apply filter_ext_in. intros x Hx.
  rewrite range_In in Hx, Hy. now apply Heq.
Qed.

Lemma scan_none (w h : Z) : scan w h (fun _ _ => false) = [].
Proof.
  assert (Hrow : forall xs : list Z, List.filter (fun _ => false) xs = []).
  { induction xs as [|x xs IHx]; simpl; [reflexivity | exact IHx]. }
  unfold scan. induction (range h) as [|y ys IH]; simpl; [reflexivity |].
  now rewrite IH, Hrow.
Qed.

(** The comparison the sampler makes, on integers. *)
Lemma above_threshold_spec (edges : Image Z) (x y : Z) :
  decoded_L edges ->
  above_threshold edges x y = true
  <-> Numpy.sum (Numpy.array edges)
      < im_pixel edges x y * Numpy.size (Numpy.array edges).
Proof.
  intros [Hw Hh Hpix Hu8]. unfold above_threshold.
  rewrite threshold_is_mean by assumption.
  unfold arithmetic_mean. apply quotient_lt_integer.
  rewrite array_size by lia. nia.
Qed.

Lemma uniform_no_points (edges : Image Z) (c : Z) :
  decoded_L edges -> uniform edges c ->
  scan (im_width edges) (im_height edges) (above_threshold edges) = [].
Proof.
  intros Hdec Hu. rewrite <- (scan_none (im_width edges) (im_height edges)).
  apply scan_ext. intros x y Hx Hy.
  apply not_true_is_false. rewrite above_threshold_spec by assumption.
  rewrite (Hu x y) by assumption.
  unfold Numpy.sum, Numpy.size.
  rewrite (sum_constant c); [lia |].
  intros v Hv. apply array_entries in Hv.
  destruct Hv as (x' & y' & Hx' & Hy' & ->). now apply Hu.
Qed.



(** * Properties of the emitters *)

Module EmitterFacts.

Import String Ascii Python Emitter.
Local Open Scope string_scope.

Lemma no_newline_app (a b : string) :
  no_newline (a ++ b) = no_newline a && no_newline b.
Proof.
  induction a as [|c a IH]; simpl; [reflexivity |].
  now rewrite IH, andb_assoc.
Qed.

Lemma no_newline_join (sep : string) (parts : list string) :
  no_newline sep = true -> forallb no_newline parts = true ->
  no_newline (join sep parts) = true.
Proof.
  intros Hsep. induction parts as [|p rest IH]; intros Hparts; [reflexivity |].
  simpl in Hparts. apply andb_true_iff in Hparts. destruct Hparts as [Hp Hrest].
  destruct rest as [|q rest]; [exact Hp |].
  change (join sep (p :: q :: rest)) with (p ++ sep ++ join sep (q :: rest)).
  rewrite !no_newline_app, Hp, Hsep, IH by assumption. reflexivity.
Qed.

Lemma no_newline_uint (d : Decimal.uint) :
  no_newline (DecimalString.NilEmpty.string_of_uint d) = true.
Proof. induction d; simpl; assumption || reflexivity. Qed.

Lemma no_newline_decimal (z : Z) : no_newline (decimal z) = true.
Proof.
  unfold decimal, DecimalString.NilZero.string_of_int,
    DecimalString.NilZero.string_of_uint.
  destruct (Z.to_int z) as [d | d]; destruct d;
    try reflexivity; simpl; apply no_newline_uint.
Qed.

(** Induction on values, with the items of tuples and lists. *)
Lemma pyvalue_induction (Q : pyvalue -> Prop) :
  (forall z, Q (PyInt z)) -> Q PyNan -> (forall b, Q (PyInf b)) ->
  (forall items, Forall Q items -> Q (PyTuple items)) ->
  (forall items, Forall Q items -> Q (PyList items)) ->
  forall v, Q v.
Proof.
  intros Hint Hnan Hinf Htuple Hlist.
  fix IH 1. intros [z | | b | items | items].
  - apply Hint.
  - apply Hnan.
  - apply Hinf.
  - apply Htuple. induction items as [|x xs IHxs]; constructor; [apply IH | exact IHxs].
  - apply Hlist. induction items as [|x xs IHxs]; constructor; [apply IH | exact IHxs].
Qed.

Lemma forallb_map_repr (items : list pyvalue) :
  Forall (fun v => no_newline (repr v) = true) items ->
  forallb no_newline (map repr items) = true.
Proof.
  induction 1 as [|x xs Hx Hxs IH]; simpl; [reflexivity |].
  now rewrite Hx, IH.
Qed.

Lemma no_newline_repr (v : pyvalue) : no_newline (repr v) = true.
Proof.
  induction v as [z | | b | items IH | items IH] using pyvalue_induction.
  - apply no_newline_decimal.
  - reflexivity.
  - now destruct b.
  - assert (Hj : no_newline (join ", " (map repr items)) = true)
      by (apply no_newline_join; [reflexivity | now apply forallb_map_repr]).
    destruct items as [|x [|y rest]].
    + reflexivity.
    + inversion IH; subst. cbn [repr].
      rewrite !no_newline_app. simpl. now rewrite H1.
    + cbn [repr]. rewrite !no_newline_app, Hj. reflexivity.
  - cbn [repr]. rewrite !no_newline_app.
    rewrite no_newline_join; [reflexivity | reflexivity | now apply forallb_map_repr].
Qed.

Lemma split_lines_line (l rest : string) :
  no_newline l = true ->
  split_lines (l ++ String newline rest) = l :: split_lines rest.
Proof.
  induction l as [|c l IH]; intros Hl; [reflexivity |].
  simpl in Hl. apply andb_true_iff in Hl. destruct Hl as [Hc Hl].
  apply negb_true_iff in Hc.
  cbn [append split_lines]. rewrite Hc, IH by assumption. reflexivity.
Qed.

Lemma split_lines_unlines (lines : list string) :
  forallb no_newline lines = true ->
  split_lines (unlines lines) = (lines ++ [EmptyString])%list.
Proof.
  induction lines as [|l rest IH]; intros H; [reflexivity |].
  simpl in H. apply andb_true_iff in H. destruct H as [Hl Hrest].
  cbn [unlines]. rewrite split_lines_line, IH by assumption. reflexivity.
Qed.

Lemma join_unlines (lines : list string) :
  join (String newline EmptyString) (lines ++ [EmptyString])%list = unlines lines.
Proof.
  induction lines as [|l rest IH]; [reflexivity |].
  cbn [unlines]. rewrite <- IH.
  destruct rest as [|q rest]; reflexivity.
Qed.

Lemma margin_stays_empty (indents : list string) :
  fold_left margin_step indents (Some EmptyString) = Some EmptyString.
Proof.
  induction indents as [|i rest IH]; [reflexivity |].
  simpl. destruct i; exact IH.
Qed.

(** [dedent] returns a text unchanged when its first line starts with a
    character that is no blank and no line is made of blanks only. *)
Lemma dedent_unindented (c : ascii) (first : string) (rest : list string) :
  is_blank c = false ->
  forallb plain_line (String c first :: rest) = true ->
  dedent (unlines (String c first :: rest)) = unlines (String c first :: rest).
Proof.
  intros Hc Hplain.
  set (lines := String c first :: rest) in *.
  assert (Hnl : forallb no_newline lines = true).
  { rewrite forallb_forall in *. intros l Hl.
    specialize (Hplain l Hl). unfold plain_line in Hplain.
    apply andb_true_iff in Hplain. tauto. }
  assert (Hnorm : map (fun l => if whitespace_only l then EmptyString else l)
                      (lines ++ [EmptyString])%list
                  = (lines ++ [EmptyString])%list).
  { rewrite <- (map_id (lines ++ [EmptyString])%list) at 2.
    apply map_ext_in. intros l Hl. apply in_app_or in Hl.
    destruct Hl as [Hl | [<- | []]]; [| reflexivity].
    rewrite forallb_forall in Hplain. specialize (Hplain l Hl).
    unfold plain_line in Hplain. apply andb_true_iff in Hplain.
    destruct Hplain as [_ Hws]. apply negb_true_iff in Hws. now rewrite Hws. }
  unfold dedent. rewrite split_lines_unlines, Hnorm by assumption.
  unfold lines at 1. cbn [app flat_map].
  unfold leading_whitespace at 1. cbn [span_blank]. rewrite Hc.
  cbn [app fold_left margin_step]. rewrite margin_stays_empty.
  apply join_unlines.
Qed.

Lemma sketch_template_plain (width height points : pyvalue) :
  forallb plain_line (sketch_template width height points) = true.
Proof.
  unfold sketch_template, plain_line. cbn [forallb].
  repeat rewrite no_newline_app.
  unfold str. rewrite !no_newline_repr. reflexivity.
Qed.

Lemma color_template_plain (width height points : pyvalue) :
  forallb plain_line (color_template width height points) = true.
Proof.
  unfold color_template, plain_line. cbn [forallb].
  repeat rewrite no_newline_app.
  unfold str. rewrite !no_newline_repr. reflexivity.
Qed.

(** The emitters are their templates: [dedent] changes nothing. *)
Lemma generate_sketch_template (width height points : pyvalue) :
  generate_python_code_sketch width height points
  = unlines (sketch_template width height points).
Proof.
  unfold generate_python_code_sketch.
  pose proof (sketch_template_plain width height points) as Hplain.
  unfold sketch_template in *.
  apply dedent_unindented; [reflexivity | exact Hplain].
Qed.

Lemma generate_color_template (width height points : pyvalue) :
  generate_python_code_color width height points
  = unlines (color_template width height points).
Proof.
  unfold generate_python_code_color.
  pose proof (color_template_plain width height points) as Hplain.
  unfold color_template in *.
  apply dedent_unindented; [reflexivity | exact Hplain].
Qed.




(** C9: for width 10, height 10 and no points both emitters return the
    whole script, with the line of the constants and an empty list of
    points. *)
Theorem emitters_empty_points :
  generate_python_code_sketch (PyInt 10) (PyInt 10) (PyList [])
  = unlines Expected.sketch_10_10_empty
  /\ generate_python_code_color (PyInt 10) (PyInt 10) (PyList [])
     = unlines Expected.color_10_10_empty
  /\ nth 2 Expected.sketch_10_10_empty EmptyString = Expected.constants_line
  /\ nth 3 Expected.sketch_10_10_empty EmptyString = Expected.empty_points_line
  /\ nth 2 Expected.color_10_10_empty EmptyString = Expected.constants_line
  /\ nth 4 Expected.color_10_10_empty EmptyString = Expected.empty_points_line.
Proof. repeat split; vm_compute; reflexivity. Qed.

End EmitterFacts.

(** * Properties of the command line *)

Module CLIFacts.

Import String CLI.
Local Open Scope string_scope.

(** The one sampler call of a run of [main] that reaches it. *)
Lemma main_sampler_calls
      (find_latest_image : option string) (is_file : string -> bool)
      (open_L : string -> option (Image Z))
      (open_RGB : string -> option (Image RGB))
      (resample_L : Image Z -> Z -> Z -> Z -> Z -> Z)
      (resample_RGB : Image RGB -> Z -> Z -> Z -> Z -> RGB)
      (args : Args) (image_path : string) :
  resolved_image find_latest_image args image_path ->
  is_file image_path = true ->
  sampler_calls (main find_latest_image is_file open_L open_RGB
                      resample_L resample_RGB args)
  = [match mode args with
     | Sketch => Sample_sketch image_path (max_size args)
     | Color => Sample_color image_path
                             (if (max_size args =? 160)%Z then 80
                              else max_size args)
     end].
Proof.
  intros Hres Hfile. unfold main, resolved_image in *.
  assert (Hpath :
            match image args with
            | Some (String c p) => ret (String c p)
            | _ => match find_latest_image with
                   | Some p => ret p
                   | None => raise
                   end
            end = ret image_path).
  { destruct (image args) as [[|c p] |]; rewrite Hres; reflexivity. }
  rewrite Hpath. unfold sampler_calls, bind, ret, emit. cbn [fst snd].
  rewrite Hfile. cbn [app].
  destruct (mode args).
  - unfold call_sketch.
    destruct (match open_L image_path with
              | Some img => image_to_points_sketch resample_L img (max_size args)
              | None => None
              end) as [[[w h] points] |]; reflexivity.
  - destruct (Z.eqb_spec (max_size args) 160) as [-> | Hne]; cbn [negb];
      unfold call_color;
      match goal with
      | |- context [match ?r with Some _ => _ | None => _ end] =>
          destruct r as [[[w h] points] |]; reflexivity
      end.
Qed.

(** C7: in color mode a [--max-size] of 160 reaches the sampler as 80 and
    any other value unchanged; in sketch mode the value is passed
    unchanged. *)
Theorem main_sampler_max_size
        (find_latest_image : option string) (is_file : string -> bool)
        (open_L : string -> option (Image Z))
        (open_RGB : string -> option (Image RGB))
        (resample_L : Image Z -> Z -> Z -> Z -> Z -> Z)
        (resample_RGB : Image RGB -> Z -> Z -> Z -> Z -> RGB)
        (args : Args) (image_path : string) :
  resolved_image find_latest_image args image_path ->
  is_file image_path = true ->
  let calls :=
    sampler_calls (main find_latest_image is_file open_L open_RGB
                        resample_L resample_RGB args) in
  (mode args = Color -> max_size args = 160 ->
   calls = [Sample_color image_path 80])
  /\ (mode args = Color -> max_size args <> 160 ->
      calls = [Sample_color image_path (max_size args)])
  /\ (mode args = Sketch ->
      calls = [Sample_sketch image_path (max_size args)]).
Proof.
  intros Hres Hfile calls. unfold calls.
  rewrite (main_sampler_calls _ _ _ _ _ _ args image_path Hres Hfile).
  repeat split.
  - intros -> ->. reflexivity.
  - intros -> Hne.
    now replace (max_size args =? 160)%Z with false
      by (symmetry; apply Z.eqb_neq; assumption).
  - intros ->. reflexivity.
Qed.

End CLIFacts.

(** * Sample runs *)

(** The division agrees with [SpecFloat.SFdiv] on every quotient of two
    integers up to 64, and on totals of 8-bit entries over large counts. *)
Example fl64_div_agrees_small :
  forallb (fun s => forallb (fun n => fl64_div_agrees (Pos.of_nat s) (Pos.of_nat n))
                            (seq 1 64))
          (seq 1 64) = true.
Proof. vm_compute. reflexivity. Qed.

Example fl64_div_agrees_large :
  forallb (fun '(s, n) => fl64_div_agrees s n)
          [(800, 9); (255, 4); (1, 178956970); (45634027349, 178956970);
           (45634027350, 178956970); (12345678901, 89478485);
           (16777215, 65536); (6553599, 25600)]%positive = true.
Proof. vm_compute. reflexivity. Qed.

(** A 2x2 image with one bright pixel: the sampler keeps that pixel. *)
Example sketch_corner_image :
  image_to_points_sketch nearest_L corner_image 160 = Some ((2, 2), [(1, 1)]).
Proof. vm_compute. reflexivity. Qed.

(** A 7x5 image bounded by 4 is sampled at 4x3. *)
Example sketch_band_image :
  image_to_points_sketch nearest_L band_image 4
  = Some ((4, 3), [(0, 0); (1, 0); (0, 1); (1, 1); (2, 2)]).
Proof. vm_compute. reflexivity. Qed.

(** A 3x3 image of solid red in color mode: nine red points. *)
Example color_red_image :
  image_to_points_color nearest_RGB red_image 80
  = Some ((3, 3),
          [(0, 0, (255, 0, 0)); (1, 0, (255, 0, 0)); (2, 0, (255, 0, 0));
           (0, 1, (255, 0, 0)); (1, 1, (255, 0, 0)); (2, 1, (255, 0, 0));
           (0, 2, (255, 0, 0)); (1, 2, (255, 0, 0)); (2, 2, (255, 0, 0))]).
Proof. vm_compute. reflexivity. Qed.

(** A bound of zero or less makes [thumbnail] raise. *)
Example sketch_zero_bound :
  image_to_points_sketch nearest_L band_image 0 = None
  /\ image_to_points_sketch nearest_L band_image (-2) = None.
Proof. split; vm_compute; reflexivity. Qed.

(** * The theorems at sample inputs *)


(** C1 on the band image bounded by 4. *)
Lemma sketch_points_above_mean_witness :
  decoded_L band_image /\ resample_uint8 nearest_L /\ 1 <= 4
  /\ exists img' points,
       image_to_points_sketch nearest_L band_image 4
       = Some ((im_width img', im_height img'), points)
       /\ List.length points
          = count_above_mean (Numpy.array (Pillow.filter Pillow.FIND_EDGES img')).
Proof.
  assert (H1 : decoded_L band_image).
  { constructor; cbn; try lia.
    intros x y _ _. cbn. destruct (Z.abs (x - y) <=? 1); lia. }
  assert (H2 : resample_uint8 nearest_L).
  { intros im w h x y. unfold nearest_L. lia. }
  assert (H3 : 1 <= 4) by lia.
  split; [exact H1 |]. split; [exact H2 |]. split; [exact H3 |].
  destruct (sketch_points_above_mean nearest_L band_image 4 H1 H2 H3)
    as (img' & points & _ & Hrun & _ & Hlen & _).
  exists img', points. split; assumption.
Defined.

(** C8 on the band image bounded by 4. *)
Lemma sketch_points_row_major_witness :
  1 <= im_width band_image /\ 1 <= im_height band_image /\ 1 <= 4
  /\ exists size points,
       image_to_points_sketch nearest_L band_image 4 = Some (size, points)
       /\ StronglySorted row_major_lt points
       /\ NoDup points.
Proof.
  assert (H1 : 1 <= im_width band_image) by (cbn; lia).
  assert (H2 : 1 <= im_height band_image) by (cbn; lia).
  assert (H3 : 1 <= 4) by lia.
  split; [exact H1 |]. split; [exact H2 |]. split; [exact H3 |].
  exact (sketch_points_row_major nearest_L band_image 4 H1 H2 H3).
Defined.

(** C10 on the band image bounded by 4. *)
Lemma sketch_points_in_bounds_witness :
  1 <= im_width band_image /\ 1 <= im_height band_image /\ 1 <= 4
  /\ exists width height points,
       image_to_points_sketch nearest_L band_image 4
       = Some ((width, height), points)
       /\ forall x y, In (x, y) points -> 0 <= x < width /\ 0 <= y < height.
Proof.
  assert (H1 : 1 <= im_width band_image) by (cbn; lia).
  assert (H2 : 1 <= im_height band_image) by (cbn; lia).
  assert (H3 : 1 <= 4) by lia.
  split; [exact H1 |]. split; [exact H2 |]. split; [exact H3 |].
  destruct (sketch_points_in_bounds nearest_L band_image 4 H1 H2 H3)
    as (img' & width & height & points & _ & Hrun & _ & Hin).
  exists width, height, points. split; assumption.
Defined.

(** C2 on the red image bounded by 2. *)
Lemma color_points_dense_witness :
  1 <= im_width red_image /\ 1 <= im_height red_image /\ 1 <= 2
  /\ exists (img' : Image RGB) points,
       image_to_points_color nearest_RGB red_image 2
       = Some ((im_width img', im_height img'), points)
       /\ Z.of_nat (List.length points) = im_width img' * im_height img'
       /\ NoDup (map fst points).
Proof.
  assert (H1 : 1 <= im_width red_image) by (cbn; lia).
  assert (H2 : 1 <= im_height red_image) by (cbn; lia).
  assert (H3 : 1 <= 2) by lia.
  split; [exact H1 |]. split; [exact H2 |]. split; [exact H3 |].
  destruct (color_points_dense nearest_RGB red_image 2 H1 H2 H3)
    as (img' & points & _ & Hrun & Hlen & _ & Hnodup & _).
  exists img', points. repeat split; assumption.
Defined.




(** C7 on [--image photo.png --mode color] with the default size. *)
Lemma main_sampler_max_size_witness :
  CLI.resolved_image None CLI.sample_color_args CLI.sample_path
  /\ CLI.sampler_calls
       (CLI.main None (fun _ => true) (fun _ => Some band_image)
                 (fun _ => Some red_image) nearest_L nearest_RGB
                 CLI.sample_color_args)
     = [CLI.Sample_color CLI.sample_path 80].
Proof.
  assert (H1 : CLI.resolved_image None CLI.sample_color_args CLI.sample_path)
    by reflexivity.
  split; [exact H1 |].
  exact (proj1 (CLIFacts.main_sampler_max_size
                  None (fun _ => true) (fun _ => Some band_image)
                  (fun _ => Some red_image) nearest_L nearest_RGB
                  CLI.sample_color_args CLI.sample_path H1 eq_refl)
               eq_refl eq_refl).
Defined.

(** * Properties of the choice of the newest image *)

Module FilesFacts.

Import Files.

Lemma max_by_mtime_spec (st_mtime : String.string -> Q)
      (best : String.string) (rest : list String.string) :
  exists before after,
    best :: rest = (before ++ max_by_mtime st_mtime best rest :: after)%list
    /\ (forall q, In q before ->
                  (st_mtime q < st_mtime (max_by_mtime st_mtime best rest))%Q)
    /\ (forall q, In q after ->
                  (st_mtime q <= st_mtime (max_by_mtime st_mtime best rest))%Q)
    /\ (st_mtime best <= st_mtime (max_by_mtime st_mtime best rest))%Q.
Proof.
  revert best. induction rest as [|p rest IH]; intros best.
  - exists [], []. simpl. repeat split; try contradiction. apply Qle_refl.
  - cbn [max_by_mtime]. destruct (Qlt_bool (st_mtime best) (st_mtime p)) eqn:Hlt.
    + apply Qlt_bool_iff in Hlt.
      destruct (IH p) as (before & after & Heq & Hbefore & Hafter & Hp).
      exists (best :: before), after. rewrite Heq. split; [reflexivity |].
      split; [| split].
      * intros q [<- | Hq]; [| now apply Hbefore].
        eapply Qlt_le_trans; eassumption.
      * assumption.
      * apply Qlt_le_weak. eapply Qlt_le_trans; eassumption.
    + assert (Hge : (st_mtime p <= st_mtime best)%Q).
      { apply Qnot_lt_le. rewrite <- Qlt_bool_iff. congruence. }
      destruct (IH best) as (before & after & Heq & Hbefore & Hafter & Hb).
      destruct before as [|b before].
      * simpl in Heq. injection Heq as Hbest Hrest.
        exists [], (p :: rest).
        split; [simpl; now rewrite <- Hbest |].
        split; [intros q Hq; contradiction |].
        split; [| exact Hb].
        intros q [Hq | Hq].
        -- subst q. rewrite <- Hbest. exact Hge.
        -- apply Hafter. now rewrite <- Hrest.
      * simpl in Heq. injection Heq as Hbest Hrest. subst b.
        exists (best :: p :: before), after.
        split; [simpl; now rewrite Hrest at 1 |].
        split; [| split; assumption].
        intros q [<- | [<- | Hq]].
        -- apply Hbefore. now left.
        -- eapply Qle_lt_trans; [exact Hge | apply Hbefore; now left].
        -- apply Hbefore. now right.
Qed.

(** [find_latest_image] exits exactly when no pattern matches a file. *)
Theorem find_latest_image_exits
        (glob : String.string -> list String.string)
        (st_mtime : String.string -> Q) :
  find_latest_image glob st_mtime = None
  <-> forall pattern, In pattern IMAGE_EXTENSIONS -> glob pattern = [].
Proof.
  unfold find_latest_image, candidates. split.
  - intros Hnone pattern Hin.
    destruct (flat_map glob IMAGE_EXTENSIONS) as [|p rest] eqn:Hc; [| discriminate].
    destruct (glob pattern) as [|q qs] eqn:Hg; [reflexivity | exfalso].
    assert (Hq : In q (flat_map glob IMAGE_EXTENSIONS)).
    { apply in_flat_map. exists pattern. split; [assumption |].
      rewrite Hg. now left. }
    rewrite Hc in Hq. contradiction.
  - intros Hall.
    destruct (flat_map glob IMAGE_EXTENSIONS) as [|p rest] eqn:Hc; [reflexivity |].
    exfalso.
    assert (Hp : In p (flat_map glob IMAGE_EXTENSIONS)) by (rewrite Hc; now left).
    apply in_flat_map in Hp. destruct Hp as (pattern & Hin & Hp).
    rewrite (Hall pattern Hin) in Hp. contradiction.
Qed.

(** The image [find_latest_image] returns is a candidate that no candidate
    is newer than, and the first such one in the order of the patterns:
    every candidate before it is strictly older. *)
Theorem find_latest_image_newest
        (glob : String.string -> list String.string)
        (st_mtime : String.string -> Q) (p : String.string) :
  find_latest_image glob st_mtime = Some p ->
  exists before after,
    candidates glob = (before ++ p :: after)%list
    /\ (forall q, In q before -> (st_mtime q < st_mtime p)%Q)
    /\ (forall q, In q (candidates glob) -> (st_mtime q <= st_mtime p)%Q).
Proof.
  unfold find_latest_image. intros Hsome.
  destruct (candidates glob) as [|c rest] eqn:Hc; [discriminate |].
  inversion Hsome as [Hp].
  destruct (max_by_mtime_spec st_mtime c rest)
    as (before & after & Heq & Hbefore & Hafter & _).
  rewrite Hp in *. exists before, after. split; [assumption |].
  split; [assumption |].
  intros q Hq. rewrite Heq in Hq. apply in_app_or in Hq.
  destruct Hq as [Hq | [<- | Hq]].
  - apply Qlt_le_weak. now apply Hbefore.
  - apply Qle_refl.
  - now apply Hafter.
Qed.

End FilesFacts.

(** [find_latest_image] on the sample folder: of the two newest files the
    one the patterns reach first. *)
Lemma find_latest_image_newest_witness :
  Files.find_latest_image SampleFolder.glob SampleFolder.st_mtime
  = Some SampleFolder.newest
  /\ exists before after,
       Files.candidates SampleFolder.glob
       = (before ++ SampleFolder.newest :: after)%list
       /\ (forall q, In q before ->
                     (SampleFolder.st_mtime q
                      < SampleFolder.st_mtime SampleFolder.newest)%Q)
       /\ (forall q, In q (Files.candidates SampleFolder.glob) ->
                     (SampleFolder.st_mtime q
                      <= SampleFolder.st_mtime SampleFolder.newest)%Q).
Proof.
  assert (H : Files.find_latest_image SampleFolder.glob SampleFolder.st_mtime
              = Some SampleFolder.newest) by (vm_compute; reflexivity).
  split; [exact H |].
  exact (FilesFacts.find_latest_image_newest
           SampleFolder.glob SampleFolder.st_mtime SampleFolder.newest H).
Defined.

(** * Properties of a run of the command line *)

Module MainFacts.

Import String CLI Python Emitter.
Local Open Scope string_scope.

Section Run.

Variable find_latest_image : option string.
Variable is_file : string -> bool.
Variable open_L : string -> option (Image Z).
Variable open_RGB : string -> option (Image RGB).
Variable resample_L : Image Z -> Z -> Z -> Z -> Z -> Z.
Variable resample_RGB : Image RGB -> Z -> Z -> Z -> Z -> RGB.
Variable writes : string -> string -> bool.
Variable runs : string -> bool.

(** Either no path that [main] can settle on is a file, or it settles on
    a file. *)
Lemma resolved_cases (args : Args) :
  (forall p, resolved_image find_latest_image args p -> is_file p = false)
  \/ exists p, resolved_image find_latest_image args p /\ is_file p = true.
Proof.
  unfold resolved_image.
  destruct (image args) as [[|c s] |].
  - destruct find_latest_image as [q |].
    + destruct (is_file q) eqn:Hq; [right; eauto | left; congruence].
    + left. discriminate.
  - destruct (is_file (String c s)) eqn:Hq; [right; eauto | left; congruence].
  - destruct find_latest_image as [q |].
    + destruct (is_file q) eqn:Hq; [right; eauto | left; congruence].
    + left. discriminate.
Qed.

Lemma resolved_path (args : Args) (image_path : string) :
  resolved_image find_latest_image args image_path ->
  match image args with
  | Some (String c p) => ret (String c p)
  | _ => match find_latest_image with
         | Some p => ret p
         | None => raise
         end
  end = ret image_path.
Proof.
  unfold resolved_image.
  destruct (image args) as [[|c p] |]; intros Hres; rewrite Hres; reflexivity.
Qed.

(** [main] stops before its first event when no image is found or the
    path it settles on is no file. *)
Lemma main_without_image (args : Args) :
  (forall image_path,
      resolved_image find_latest_image args image_path ->
      is_file image_path = false) ->
  CommandLine.main find_latest_image is_file open_L open_RGB
                   resample_L resample_RGB writes runs args
  = ([], None).
Proof.
  intros Hno. unfold CommandLine.main, resolved_image in *.
  destruct (image args) as [[|c p] |]; cbn [bind ret raise];
    try (destruct find_latest_image as [q |]; cbn [bind ret raise];
         [rewrite (Hno q eq_refl) |]; reflexivity).
  rewrite (Hno (String c p) eq_refl). reflexivity.
Qed.

(** What [main] does once it has an image: the sampler call decides
    whether [write_text] is called, and [write_text] whether the script is
    run. *)
Lemma main_with_image (args : Args) (image_path : string) :
  resolved_image find_latest_image args image_path ->
  is_file image_path = true ->
  let code : option string :=
    match mode args with
    | Sketch =>
        match snd (call_sketch open_L resample_L image_path (max_size args)) with
        | Some ((w, h), points) =>
            Some (generate_python_code_sketch
                    (PyInt w) (PyInt h) (sketch_points_value points))
        | None => None
        end
    | Color =>
        match snd (call_color open_RGB resample_RGB image_path
                              (if (max_size args =? 160)%Z then 80
                               else max_size args)) with
        | Some ((w, h), points) =>
            Some (generate_python_code_color
                    (PyInt w) (PyInt h) (color_points_value points))
        | None => None
        end
    end in
  let called : event :=
    match mode args with
    | Sketch => Sample_sketch image_path (max_size args)
    | Color => Sample_color image_path
                            (if (max_size args =? 160)%Z then 80
                             else max_size args)
    end in
  CommandLine.main find_latest_image is_file open_L open_RGB
                   resample_L resample_RGB writes runs args
  = match code with
    | Some text =>
        if writes (out args) text
        then ([Print ("Using image: " ++ image_path); called;
               Write_text (out args) text;
               Print ("Generated Python file: " ++ out args);
               Print "Opening drawing window...";
               Run_path (out args)],
              if runs (out args) then Some tt else None)
        else ([Print ("Using image: " ++ image_path); called;
               Write_text (out args) text], None)
    | None => ([Print ("Using image: " ++ image_path); called], None)
    end.
Proof.
  intros Hres Hfile. unfold CommandLine.main.
  rewrite (resolved_path args image_path Hres).
  unfold bind, ret, emit, CommandLine.call. cbn [fst snd]. rewrite Hfile.
  cbn [app]. destruct (mode args).
  - unfold call_sketch. cbn [snd].
    destruct (match open_L image_path with
              | Some img => image_to_points_sketch resample_L img (max_size args)
              | None => None
              end) as [[[w h] points] |]; [| reflexivity].
    destruct (writes _ _); [| reflexivity]. destruct (runs _); reflexivity.
  - destruct (Z.eqb_spec (max_size args) 160) as [-> | Hne]; cbn [negb];
      unfold call_color; cbn [snd];
      match goal with
      | |- context [match ?r with Some _ => _ | None => _ end] =>
          destruct r as [[[w h] points] |]; [| reflexivity]
      end;
      (destruct (writes _ _); [| reflexivity]); destruct (runs _); reflexivity.
Qed.

Lemma bind_ext {A B : Type} (m : M A) (k k' : A -> M B) :
  (forall a, k a = k' a) -> bind m k = bind m k'.
Proof.
  intros H. destruct m as [t [a |]]; [| reflexivity].
  unfold bind. now rewrite H.
Qed.

(** When [write_text] and [run_path] return, [main] is the [main] of the
    sampler calls. *)
Lemma main_refines (args : Args) :
  (forall text, writes (out args) text = true) -> runs (out args) = true ->
  CommandLine.main find_latest_image is_file open_L open_RGB
                   resample_L resample_RGB writes runs args
  = CLI.main find_latest_image is_file open_L open_RGB
             resample_L resample_RGB args.
Proof.
  intros Hwrites Hruns. unfold CommandLine.main, CLI.main.
  apply bind_ext; intros image_path. apply bind_ext; intros _.
  apply bind_ext; intros _. apply bind_ext; intros code.
  rewrite Hwrites, Hruns. reflexivity.
Qed.

End Run.

End MainFacts.

(** * Further properties of the samplers *)

Lemma thumbnail_fits {P : Type} (resample : Image P -> Z -> Z -> Z -> Z -> P)
      (img : Image P) (m : Z) :
  im_width img <= m -> im_height img <= m ->
  Pillow.thumbnail resample img (m, m) = Some img.
Proof.
  intros Hw Hh. unfold Pillow.thumbnail, Pillow.preserve_aspect_ratio.
  replace ((im_width img <=? m) && (im_height img <=? m)) with true;
    [reflexivity |].
  symmetry. apply andb_true_iff. rewrite !Z.leb_le. auto.
Qed.

Lemma thumbnail_nonpositive {P : Type}
      (resample : Image P -> Z -> Z -> Z -> Z -> P) (img : Image P) (m : Z) :
  1 <= im_width img -> 1 <= im_height img -> m <= 0 ->
  Pillow.thumbnail resample img (m, m) = None.
Proof.
  intros Hw Hh Hm. unfold Pillow.thumbnail, Pillow.preserve_aspect_ratio.
  replace ((im_width img <=? m) && (im_height img <=? m)) with false
    by (symmetry; apply andb_false_iff; left; apply Z.leb_gt; lia).
  replace (im_height img =? 0) with false by (symmetry; apply Z.eqb_neq; lia).
  destruct (Z.eqb_spec m 0) as [Hm0 | Hm0]; [reflexivity |].
  assert (Hresize : forall a b, a = m \/ b = m ->
                                Pillow.resize resample img (a, b) = None).
  { intros a b Hab. unfold Pillow.resize.
    replace ((a <=? 0) || (b <=? 0)) with true; [reflexivity |].
    symmetry. apply orb_true_iff. rewrite !Z.leb_le. lia. }
  destruct (Qle_bool _ _).
  - cbn [fst snd].
    replace (m =? im_height img) with false by (symmetry; apply Z.eqb_neq; lia).
    rewrite andb_false_r. apply Hresize. now right.
  - replace (im_width img =? 0) with false by (symmetry; apply Z.eqb_neq; lia).
    cbn [fst snd].
    replace (m =? im_width img) with false by (symmetry; apply Z.eqb_neq; lia).
    cbn [andb]. apply Hresize. now left.
Qed.

Lemma thumbnail_large {P : Type} (resample : Image P -> Z -> Z -> Z -> Z -> P)
      (img : Image P) (m : Z) :
  1 <= im_width img -> 1 <= im_height img -> 1 <= m ->
  m < im_width img \/ m < im_height img ->
  exists w h,
    Pillow.thumbnail resample img (m, m)
    = Some (mkImage w h (resample img w h))
    /\ 1 <= w /\ 1 <= h /\ Z.max w h = m.
Proof.
  intros Hw Hh Hm Hbig. unfold Pillow.thumbnail.
  destruct (preserve_aspect_ratio_square (im_width img) (im_height img) m Hw Hh Hm)
    as [(Hfw & Hfh & _) | (x & y & -> & _ & Hx & Hy & Hmax & _)]; [lia |].
  cbn [fst snd].
  replace ((x =? im_width img) && (y =? im_height img)) with false
    by (symmetry; apply andb_false_iff; rewrite !Z.eqb_neq; lia).
  unfold Pillow.resize.
  replace ((x <=? 0) || (y <=? 0)) with false
    by (symmetry; apply orb_false_iff; rewrite !Z.leb_gt; lia).
  exists x, y. repeat split; try lia.
Qed.

(** Both samplers raise exactly when the bound is zero or negative, for an
    image with positive sides. *)
Theorem samplers_raise_iff_bound_not_positive
        (resample_L : Image Z -> Z -> Z -> Z -> Z -> Z)
        (resample_RGB : Image RGB -> Z -> Z -> Z -> Z -> RGB)
        (img_L : Image Z) (img_RGB : Image RGB) (max_size : Z) :
  1 <= im_width img_L -> 1 <= im_height img_L ->
  1 <= im_width img_RGB -> 1 <= im_height img_RGB ->
  (image_to_points_sketch resample_L img_L max_size = None <-> max_size <= 0)
  /\ (image_to_points_color resample_RGB img_RGB max_size = None
      <-> max_size <= 0).
Proof.
  intros HwL HhL HwC HhC. split; split.
  - intros Hnone. destruct (Z_le_gt_dec max_size 0) as [|Hpos]; [assumption |].
    destruct (sketch_returns resample_L img_L max_size HwL HhL ltac:(lia))
      as (img' & _ & Hrun). congruence.
  - intros Hm. unfold image_to_points_sketch.
    now rewrite thumbnail_nonpositive.
  - intros Hnone. destruct (Z_le_gt_dec max_size 0) as [|Hpos]; [assumption |].
    destruct (color_returns resample_RGB img_RGB max_size HwC HhC ltac:(lia))
      as (img' & _ & Hrun). congruence.
  - intros Hm. unfold image_to_points_color.
    now rewrite thumbnail_nonpositive.
Qed.

(** An image no larger than the bound is sampled as it is: its own size is
    returned, nothing is resampled, and in color mode the points are its
    own pixels. *)
Theorem small_image_sampled_unchanged
        (resample_L resample_L' : Image Z -> Z -> Z -> Z -> Z -> Z)
        (resample_RGB : Image RGB -> Z -> Z -> Z -> Z -> RGB)
        (img_L : Image Z) (img_RGB : Image RGB) (max_size : Z) :
  im_width img_L <= max_size -> im_height img_L <= max_size ->
  im_width img_RGB <= max_size -> im_height img_RGB <= max_size ->
  (exists points,
      image_to_points_sketch resample_L img_L max_size
      = Some ((im_width img_L, im_height img_L), points)
      /\ image_to_points_sketch resample_L' img_L max_size
         = Some ((im_width img_L, im_height img_L), points))
  /\ image_to_points_color resample_RGB img_RGB max_size
     = Some ((im_width img_RGB, im_height img_RGB), pixels_row_major img_RGB).
Proof.
  intros HwL HhL HwC HhC. split.
  - eexists. split; apply sketch_unfold, thumbnail_fits; assumption.
  - apply color_unfold, thumbnail_fits; assumption.
Qed.

(** An image larger than the bound on some side is resized so that its
    longer side is exactly the bound, in both modes. *)
Theorem large_image_longer_side_is_bound
        (resample_L : Image Z -> Z -> Z -> Z -> Z -> Z)
        (resample_RGB : Image RGB -> Z -> Z -> Z -> Z -> RGB)
        (img_L : Image Z) (img_RGB : Image RGB) (max_size : Z) :
  1 <= im_width img_L -> 1 <= im_height img_L ->
  max_size < im_width img_L \/ max_size < im_height img_L ->
  1 <= im_width img_RGB -> 1 <= im_height img_RGB ->
  max_size < im_width img_RGB \/ max_size < im_height img_RGB ->
  1 <= max_size ->
  (exists width height points,
      image_to_points_sketch resample_L img_L max_size
      = Some ((width, height), points)
      /\ Z.max width height = max_size)
  /\ (exists width height points,
         image_to_points_color resample_RGB img_RGB max_size
         = Some ((width, height), points)
         /\ Z.max width height = max_size).
Proof.
  intros HwL HhL HbigL HwC HhC HbigC Hm. split.
  - destruct (thumbnail_large resample_L img_L max_size HwL HhL Hm HbigL)
      as (w & h & Hth & _ & _ & Hmax).
    exists w, h. eexists. split; [| exact Hmax].
    rewrite (sketch_unfold _ _ _ _ Hth). reflexivity.
  - destruct (thumbnail_large resample_RGB img_RGB max_size HwC HhC Hm HbigC)
      as (w & h & Hth & _ & _ & Hmax).
    exists w, h. eexists. split; [| exact Hmax].
    rewrite (color_unfold _ _ _ _ Hth). reflexivity.
Qed.

(** Sampling the resized image again with the same bound changes nothing:
    the second pass returns the size and the points of the first. *)
Theorem sampling_resized_image_again
        (resample_L : Image Z -> Z -> Z -> Z -> Z -> Z)
        (resample_RGB : Image RGB -> Z -> Z -> Z -> Z -> RGB)
        (img_L : Image Z) (img_RGB : Image RGB) (max_size : Z) :
  1 <= im_width img_L -> 1 <= im_height img_L ->
  1 <= im_width img_RGB -> 1 <= im_height img_RGB ->
  1 <= max_size ->
  (exists resized,
      Pillow.thumbnail resample_L img_L (max_size, max_size) = Some resized
      /\ image_to_points_sketch resample_L resized max_size
         = image_to_points_sketch resample_L img_L max_size)
  /\ (exists resized,
         Pillow.thumbnail resample_RGB img_RGB (max_size, max_size)
         = Some resized
         /\ image_to_points_color resample_RGB resized max_size
            = image_to_points_color resample_RGB img_RGB max_size).
Proof.
  intros HwL HhL HwC HhC Hm. split.
  - destruct (thumbnail_square resample_L img_L max_size HwL HhL Hm)
      as (img' & Hth & _ & Hw' & Hh' & Hmax & _).
    exists img'. split; [assumption |].
    rewrite (sketch_unfold _ _ _ _ Hth).
    apply sketch_unfold, thumbnail_fits; lia.
  - destruct (thumbnail_square resample_RGB img_RGB max_size HwC HhC Hm)
      as (img' & Hth & _ & Hw' & Hh' & Hmax & _).
    exists img'. split; [assumption |].
    rewrite (color_unfold _ _ _ _ Hth).
    apply color_unfold, thumbnail_fits; lia.
Qed.

(** ** What the mean threshold keeps *)

Lemma sum_scaled (n : Z) (l : list Z) :
  fold_right Z.add 0 (map (fun v => v * n) l) = n * fold_right Z.add 0 l.
Proof. induction l as [|a l IH]; simpl; [lia | rewrite IH; lia]. Qed.

Lemma sum_le_bound (s : Z) (l : list Z) :
  (forall a, In a l -> a <= s) ->
  fold_right Z.add 0 l <= Z.of_nat (List.length l) * s.
Proof.
  induction l as [|a l IH]; intros Hl; [simpl; lia |].
  assert (a <= s) by (apply Hl; now left).
  assert (fold_right Z.add 0 l <= Z.of_nat (List.length l) * s)
    by (apply IH; intros b Hb; apply Hl; now right).
  cbn [fold_right List.length]. lia.
Qed.

(** Terms that are all at most [s] and add up to [length * s] are all
    equal to [s]. *)
Lemma sum_tight (s : Z) (l : list Z) :
  (forall a, In a l -> a <= s) ->
  fold_right Z.add 0 l = Z.of_nat (List.length l) * s ->
  forall a, In a l -> a = s.
Proof.
  induction l as [|b l IH]; intros Hl Hsum a Ha; [contradiction |].
  assert (Hb : b <= s) by (apply Hl; now left).
  assert (Hrest : forall c, In c l -> c <= s) by (intros c Hc; apply Hl; now right).
  pose proof (sum_le_bound s l Hrest) as Hle.
  cbn [fold_right List.length] in Hsum.
  destruct Ha as [<- | Ha]; [lia |].
  apply IH; [assumption | lia | assumption].
Qed.

(** Some entry is not above the mean. *)
Lemma entry_not_above_mean (l : list Z) :
  l <> [] ->
  exists v, In v l /\ v * Z.of_nat (List.length l) <= fold_right Z.add 0 l.
Proof.
  intros Hne.
  destruct (Exists_dec (fun v => v * Z.of_nat (List.length l)
                                 <= fold_right Z.add 0 l) l) as [Hex | Hnex].
  - intros v. destruct (Z_le_gt_dec (v * Z.of_nat (List.length l))
                                    (fold_right Z.add 0 l)); [left | right]; lia.
  - apply Exists_exists in Hex. exact Hex.
  - exfalso.
    assert (Hall : forall v, In v l ->
                   fold_right Z.add 0 l + 1 <= v * Z.of_nat (List.length l)).
    { intros v Hv.
      destruct (Z_le_gt_dec (v * Z.of_nat (List.length l)) (fold_right Z.add 0 l));
        [| lia].
      exfalso. apply Hnex, Exists_exists. eauto. }
    assert (Hlow : Z.of_nat (List.length l) * (fold_right Z.add 0 l + 1)
                   <= fold_right Z.add 0 (map (fun v => v * Z.of_nat (List.length l)) l)).
    { clear Hnex Hne. revert Hall.
      generalize (fold_right Z.add 0 l + 1) as s.
      generalize (Z.of_nat (List.length l)) at 1 3 as n.
      intros n s Hall.
      induction l as [|a l IH]; [simpl; lia |].
      assert (s <= a * n) by (apply Hall; now left).
      assert (Z.of_nat (List.length l) * s
              <= fold_right Z.add 0 (map (fun v => v * n) l))
        by (apply IH; intros v Hv; apply Hall; now right).
      cbn [fold_right List.length map]. lia. }
    rewrite sum_scaled in Hlow.
    destruct l as [|a l]; [contradiction |].
    assert (0 < Z.of_nat (List.length (a :: l))) by (cbn [List.length]; lia).
    nia.
Qed.

Lemma filter_length_lt {A : Type} (f : A -> bool) (l : list A) (a : A) :
  In a l -> f a = false ->
  (List.length (List.filter f l) < List.length l)%nat.
Proof.
  induction l as [|b l IH]; intros Hin Hf; [contradiction |].
  simpl. destruct Hin as [-> | Hin].
  - rewrite Hf. pose proof (filter_length_le f l). lia.
  - specialize (IH Hin Hf). destruct (f b); simpl; lia.
Qed.

(** The sketch sampler never returns every pixel: at least one pixel of the
    resized image is left out. *)
Theorem sketch_points_leave_a_pixel_out
        (resample : Image Z -> Z -> Z -> Z -> Z -> Z) (img : Image Z)
        (max_size : Z) :
  decoded_L img -> resample_uint8 resample -> 1 <= max_size ->
  exists width height points,
    image_to_points_sketch resample img max_size
    = Some ((width, height), points)
    /\ Z.of_nat (List.length points) < width * height.
Proof.
  intros Himg Hres Hm.
  destruct (thumbnail_decoded resample img max_size Himg Hres Hm)
    as (img' & Hth & [Hw Hh Hpix Hu8]).
  exists (im_width img'), (im_height img'). eexists.
  split; [now apply sketch_unfold |].
  set (edges := Pillow.filter Pillow.FIND_EDGES img').
  assert (Hew : im_width edges = im_width img') by apply filter_width.
  assert (Heh : im_height edges = im_height img') by apply filter_height.
  assert (Hedec : decoded_L edges).
  { constructor; rewrite ?Hew, ?Heh; try assumption. now apply filter_uint8. }
  pose proof (array_size edges ltac:(lia) ltac:(lia)) as Hsize.
  rewrite Hew, Heh in Hsize.
  unfold scan, above_threshold.
  rewrite (scan_length (im_pixel edges)
             (fun v => Numpy.f64_ltb (Numpy.mean (Numpy.array edges))
                                     (Numpy.Finite v 0))).
  rewrite <- Hew, <- Heh.
  change (map (fun y => map (fun x => im_pixel edges x y) (range (im_width edges)))
              (range (im_height edges)))
    with (Numpy.rows (Numpy.array edges)).
  set (entries := concat (Numpy.rows (Numpy.array edges))).
  assert (Hlen : Z.of_nat (List.length entries) = im_width img' * im_height img')
    by exact Hsize.
  assert (Hne : entries <> []).
  { intros E. rewrite E in Hlen. simpl in Hlen. nia. }
  destruct (entry_not_above_mean entries Hne) as (v & Hv & Hle).
  rewrite Hew, Heh, <- Hlen. apply inj_lt.
  apply filter_length_lt with v; [assumption |].
  apply not_true_is_false. intros Habove.
  apply array_entries in Hv. destruct Hv as (x & y & Hx & Hy & ->).
  change (above_threshold edges x y = true) in Habove.
  rewrite above_threshold_spec in Habove by assumption.
  unfold Numpy.sum, Numpy.size in Habove. fold entries in Habove. lia.
Qed.

(** The sketch sampler returns no point exactly when all edge-filtered
    intensities of the resized image are equal. *)
Theorem sketch_points_empty_iff_constant
        (resample : Image Z -> Z -> Z -> Z -> Z -> Z) (img : Image Z)
        (max_size : Z) :
  decoded_L img -> resample_uint8 resample -> 1 <= max_size ->
  exists resized points,
    Pillow.thumbnail resample img (max_size, max_size) = Some resized
    /\ image_to_points_sketch resample img max_size
       = Some ((im_width resized, im_height resized), points)
    /\ (points = []
        <-> exists c, uniform (Pillow.filter Pillow.FIND_EDGES resized) c).
Proof.
  intros Himg Hres Hm.
  destruct (thumbnail_decoded resample img max_size Himg Hres Hm)
    as (img' & Hth & [Hw Hh Hpix Hu8]).
  exists img'. eexists. split; [assumption |].
  split; [now apply sketch_unfold |].
  set (edges := Pillow.filter Pillow.FIND_EDGES img').
  assert (Hew : im_width edges = im_width img') by apply filter_width.
  assert (Heh : im_height edges = im_height img') by apply filter_height.
  assert (Hedec : decoded_L edges).
  { constructor; rewrite ?Hew, ?Heh; try assumption. now apply filter_uint8. }
  pose proof (array_size edges ltac:(lia) ltac:(lia)) as Hsize.
  split.
  - intros Hempty.
    set (n := Numpy.size (Numpy.array edges)) in *.
    set (entries := concat (Numpy.rows (Numpy.array edges))).
    assert (Hn : 0 < n) by (rewrite Hsize, Hew, Heh; nia).
    assert (Hnot : forall x y, 0 <= x < im_width edges -> 0 <= y < im_height edges ->
                               im_pixel edges x y * n <= Numpy.sum (Numpy.array edges)).
    { intros x y Hx Hy.
      destruct (Z_le_gt_dec (im_pixel edges x y * n) (Numpy.sum (Numpy.array edges)))
        as [|Hgt]; [assumption | exfalso].
      assert (Hin : In (x, y) (scan (im_width img') (im_height img')
                                    (above_threshold edges))).
      { apply scan_In. rewrite <- Hew, <- Heh. repeat split; try lia.
        apply above_threshold_spec; [assumption |]. fold n. lia. }
      rewrite Hempty in Hin. contradiction. }
    assert (Hall : forall a, In a (map (fun v => v * n) entries) ->
                             a = Numpy.sum (Numpy.array edges)).
    { apply sum_tight.
      - intros a Ha. apply in_map_iff in Ha. destruct Ha as (v & <- & Hv).
        apply array_entries in Hv. destruct Hv as (x & y & Hx & Hy & ->).
        now apply Hnot.
      - rewrite sum_scaled, length_map. unfold n, Numpy.size, Numpy.sum.
        fold entries. lia. }
    exists (im_pixel edges 0 0). intros x y Hx Hy.
    assert (Hxy : im_pixel edges x y * n = Numpy.sum (Numpy.array edges)).
    { apply Hall. apply in_map_iff. exists (im_pixel edges x y).
      split; [reflexivity |]. apply array_entries. eauto. }
    assert (H00 : im_pixel edges 0 0 * n = Numpy.sum (Numpy.array edges)).
    { apply Hall. apply in_map_iff. exists (im_pixel edges 0 0).
      split; [reflexivity |]. apply array_entries. exists 0, 0.
      rewrite Hew, Heh. repeat split; lia. }
    nia.
  - intros [c Hc]. rewrite <- Hew, <- Heh.
    now apply uniform_no_points with c.
Qed.

(** * Properties of the whole pipeline *)

Module PipelineFacts.

Import String CLI Python Emitter.
Local Open Scope string_scope.

Lemma no_candidates (glob : string -> list string) (st_mtime : string -> Q) :
  (forall pattern, In pattern Files.IMAGE_EXTENSIONS -> glob pattern = []) ->
  Files.find_latest_image glob st_mtime = None.
Proof.
  intros Hall. unfold Files.find_latest_image, Files.candidates.
  destruct (flat_map glob Files.IMAGE_EXTENSIONS) as [|p rest] eqn:Hc;
    [reflexivity | exfalso].
  assert (Hp : In p (flat_map glob Files.IMAGE_EXTENSIONS)) by (rewrite Hc; now left).
  apply in_flat_map in Hp. destruct Hp as (pattern & Hin & Hp).
  rewrite (Hall pattern Hin) in Hp. contradiction.
Qed.

(** Without [--image] (or with an empty one) in a folder where no pattern
    matches, and with a path that is no file, [main] exits before its
    first event: nothing is printed, sampled, written or run. *)
Theorem main_exits_before_any_event
        (glob : string -> list string) (st_mtime : string -> Q)
        (is_file : string -> bool)
        (open_L : string -> option (Image Z))
        (open_RGB : string -> option (Image RGB))
        (resample_L : Image Z -> Z -> Z -> Z -> Z -> Z)
        (resample_RGB : Image RGB -> Z -> Z -> Z -> Z -> RGB)
        (writes : string -> string -> bool) (runs : string -> bool)
        (args : Args) :
  ((image args = None \/ image args = Some EmptyString)
   /\ forall pattern, In pattern Files.IMAGE_EXTENSIONS -> glob pattern = [])
  \/ (exists image_path,
         resolved_image (Files.find_latest_image glob st_mtime) args image_path
         /\ is_file image_path = false) ->
  CommandLine.main (Files.find_latest_image glob st_mtime) is_file
                   open_L open_RGB resample_L resample_RGB writes runs args
  = ([], None).
Proof.
  intros Hcase. apply MainFacts.main_without_image. intros p Hres.
  destruct Hcase as [[Himage Hempty] | (q & Hq & Hfile)].
  - exfalso. rewrite (no_candidates glob st_mtime Hempty) in Hres.
    unfold resolved_image in Hres.
    destruct Himage as [E | E]; rewrite E in Hres; discriminate.
  - unfold resolved_image in *.
    destruct (image args) as [[|c s] |]; congruence.
Qed.

(** In every run [main] calls [write_text] at most once and [run_path] at
    most once, both on [--out]; the script is run only after [write_text]
    has returned; and [main] returns exactly when both calls were made and
    returned.  A run that raises earlier has written and run nothing. *)
Theorem main_writes_then_runs
        (find_latest_image : option string) (is_file : string -> bool)
        (open_L : string -> option (Image Z))
        (open_RGB : string -> option (Image RGB))
        (resample_L : Image Z -> Z -> Z -> Z -> Z -> Z)
        (resample_RGB : Image RGB -> Z -> Z -> Z -> Z -> RGB)
        (writes : string -> string -> bool) (runs : string -> bool)
        (args : Args) :
  let run := CommandLine.main find_latest_image is_file open_L open_RGB
                              resample_L resample_RGB writes runs args in
  let calls := List.filter Trace.writes_or_runs (fst run) in
  (calls = [] /\ snd run = None)
  \/ exists text,
       (calls = [Write_text (out args) text]
        /\ writes (out args) text = false /\ snd run = None)
       \/ (calls = [Write_text (out args) text; Run_path (out args)]
           /\ writes (out args) text = true
           /\ snd run = if runs (out args) then Some tt else None).
Proof.
  intros run calls. unfold calls, run.
  destruct (MainFacts.resolved_cases find_latest_image is_file args)
    as [Hno | (p & Hres & Hfile)].
  - rewrite (MainFacts.main_without_image _ _ _ _ _ _ _ _ args Hno).
    left. split; reflexivity.
  - rewrite (MainFacts.main_with_image _ _ _ _ _ _ _ _ args p Hres Hfile).
    cbv zeta.
    assert (Hcode : forall (code : option string) (called : event),
               Trace.writes_or_runs called = false ->
               let run :=
                 match code with
                 | Some text =>
                     if writes (out args) text
                     then ([Print ("Using image: " ++ p); called;
                            Write_text (out args) text;
                            Print ("Generated Python file: " ++ out args);
                            Print "Opening drawing window...";
                            Run_path (out args)],
                           if runs (out args) then Some tt else None)
                     else ([Print ("Using image: " ++ p); called;
                            Write_text (out args) text], None)
                 | None => ([Print ("Using image: " ++ p); called], None)
                 end in
               (List.filter Trace.writes_or_runs (fst run) = [] /\ snd run = None)
               \/ exists text,
                    (List.filter Trace.writes_or_runs (fst run)
                     = [Write_text (out args) text]
                     /\ writes (out args) text = false /\ snd run = None)
                    \/ (List.filter Trace.writes_or_runs (fst run)
                        = [Write_text (out args) text; Run_path (out args)]
                        /\ writes (out args) text = true
                        /\ snd run = if runs (out args) then Some tt else None)).
    { intros [text |] called Hcalled; cbv zeta.
      - right. exists text. destruct (writes (out args) text) eqn:Hw.
        + right. cbn. rewrite Hcalled. auto.
        + left. cbn. rewrite Hcalled. auto.
      - left. cbn. rewrite Hcalled. auto. }
    apply Hcode. now destruct (mode args).
Qed.


End PipelineFacts.

(** * Further properties of the emitters *)

Module ScriptFacts.

Import String Ascii Python Emitter Chars.
Local Open Scope string_scope.









(** However many points there are, the sketch script has 20 lines and the
    color script 25: all points are on one line, the fourth of the sketch
    script and the fifth of the color script. *)
Theorem scripts_keep_points_on_one_line (width height points : pyvalue) :
  List.length (split_lines (generate_python_code_sketch width height points))
  = 21%nat
  /\ nth 3 (split_lines (generate_python_code_sketch width height points))
         EmptyString
     = "POINTS = " ++ repr points
  /\ List.length (split_lines (generate_python_code_color width height points))
     = 26%nat
  /\ nth 4 (split_lines (generate_python_code_color width height points))
         EmptyString
     = "POINTS = " ++ repr points.
Proof.
  rewrite EmitterFacts.generate_sketch_template,
    EmitterFacts.generate_color_template.
  assert (Hnl : forall lines, forallb plain_line lines = true ->
                              forallb no_newline lines = true).
  { intros lines H. rewrite forallb_forall in *. intros l Hl.
    specialize (H l Hl). unfold plain_line in H.
    apply andb_true_iff in H. tauto. }
  rewrite (EmitterFacts.split_lines_unlines (sketch_template width height points))
    by apply Hnl, EmitterFacts.sketch_template_plain.
  rewrite (EmitterFacts.split_lines_unlines (color_template width height points))
    by apply Hnl, EmitterFacts.color_template_plain.
  split; [reflexivity |]. split; [reflexivity |]. split; reflexivity.
Qed.

End ScriptFacts.

(** * Properties of the desktop window *)

Module GUIFacts.

Import String Ascii Python Emitter GUI.
Local Open Scope string_scope.

Lemma sketch_script_not_empty (width height points : pyvalue) :
  generate_python_code_sketch width height points <> EmptyString.
Proof. rewrite EmitterFacts.generate_sketch_template. discriminate. Qed.

Lemma color_script_not_empty (width height points : pyvalue) :
  generate_python_code_color width height points <> EmptyString.
Proof. rewrite EmitterFacts.generate_color_template. discriminate. Qed.

Section HandlerFacts.

Variable strip : string -> string.
Variable find_latest_image : option string.
Variable is_file : string -> bool.
Variable open_L : string -> option (Image Z).
Variable open_RGB : string -> option (Image RGB).
Variable resample_L : Image Z -> Z -> Z -> Z -> Z -> Z.
Variable resample_RGB : Image RGB -> Z -> Z -> Z -> Z -> RGB.

(** The path [generate_code] settles on. *)
Lemma generate_code_path (w : Window) :
  match strip (image_path_edit w) with
  | String _ _ => Some (strip (image_path_edit w))
  | EmptyString => find_latest_image
  end
  = match strip (image_path_edit w) with
    | String c s => Some (String c s)
    | EmptyString => find_latest_image
    end.
Proof. destruct (strip (image_path_edit w)); reflexivity. Qed.

(** [generate_code] keeps the window consistent and leaves the path, the
    mode and the size as they were. *)
Lemma generate_code_consistent (w w' : Window) (events : list event) :
  consistent w ->
  generate_code strip find_latest_image is_file open_L open_RGB
                resample_L resample_RGB w = (events, Some w') ->
  consistent w'
  /\ image_path_edit w' = image_path_edit w
  /\ mode_sketch w' = mode_sketch w
  /\ max_size_spin w' = max_size_spin w.
Proof.
  intros (Hedit & Hbtn & Hcode) Hrun. unfold generate_code in Hrun.
  destruct (match strip (image_path_edit w) with
            | String _ _ => Some (strip (image_path_edit w))
            | EmptyString => find_latest_image
            end) as [p |]; [| discriminate].
  destruct (negb (is_file p)).
  - injection Hrun as _ <-. unfold consistent. auto.
  - cbn [mode_sketch max_size_spin image_path_edit code_edit save_btn
         preview_btn current_image current_code fst snd] in Hrun.
    destruct (mode_sketch w).
    + destruct (match open_L p with
                | Some img => image_to_points_sketch resample_L img (max_size_spin w)
                | None => None
                end) as [[[wd ht] points] |];
        injection Hrun as _ <-; unfold consistent; cbn; repeat split; auto.
      * intros _. apply sketch_script_not_empty.
      * apply Hcode.
      * apply Hcode.
    + destruct (match open_RGB p with
                | Some img => image_to_points_color resample_RGB img _
                | None => None
                end) as [[[wd ht] points] |];
        injection Hrun as _ <-; unfold consistent; cbn; repeat split; auto.
      * intros _. apply color_script_not_empty.
      * apply Hcode.
      * apply Hcode.
Qed.

End HandlerFacts.

End GUIFacts.

Module WindowFacts.

Import String Ascii Python Emitter GUI.
Local Open Scope string_scope.

(** The window starts consistent and every handler keeps it so: the Save
    and Preview buttons are enabled exactly when there is code, and the
    code box shows the code that Save would write. *)
Theorem handlers_keep_window_consistent
        (strip : string -> string) (find_latest_image : option string)
        (is_file : string -> bool)
        (open_L : string -> option (Image Z))
        (open_RGB : string -> option (Image RGB))
        (resample_L : Image Z -> Z -> Z -> Z -> Z -> Z)
        (resample_RGB : Image RGB -> Z -> Z -> Z -> Z -> RGB)
        (stem : string -> string) (writes : string -> bool)
        (w : Window) :
  consistent w ->
  consistent initial
  /\ (forall events w',
         generate_code strip find_latest_image is_file open_L open_RGB
                       resample_L resample_RGB w = (events, Some w') ->
         consistent w')
  /\ (forall chosen, consistent (snd (save_code stem writes w chosen))).
Proof.
  intros Hw. split; [| split].
  - unfold consistent, initial. cbn. repeat split; try discriminate.
    intros H. now contradiction H.
  - intros events w' Hrun.
    now destruct (GUIFacts.generate_code_consistent
                    strip find_latest_image is_file open_L open_RGB
                    resample_L resample_RGB w w' events Hw Hrun).
  - intros chosen. unfold save_code.
    destruct (current_code w) eqn:Hcode; [exact Hw |].
    destruct chosen; [exact Hw |].
    destruct (writes _); [| exact Hw].
    destruct Hw as (H1 & H2 & H3). unfold consistent. cbn.
    rewrite Hcode in *. auto.
Qed.




End WindowFacts.

(** * Properties of the icon converter *)

Module IconFacts.

Import Icon.

(** For an image of positive sides and a size of at least 1 the icon is a
    square canvas of that size; the resized image lies wholly inside it,
    centred to within one pixel on each axis, and touches the canvas
    sides along its longer axis when the image was larger than the size;
    outside it the canvas is transparent, inside it every pixel is the
    blend of a transparent pixel with the image's pixel under its own
    alpha. *)
Theorem icon_is_a_centred_square
        (resample : Image RGBA -> Z -> Z -> Z -> Z -> RGBA)
        (blend : RGBA -> RGBA -> Z -> RGBA)
        (img : Image RGBA) (size : Z) :
  1 <= im_width img -> 1 <= im_height img -> 1 <= size ->
  exists resized canvas,
    Pillow.thumbnail resample img (size, size) = Some resized
    /\ image_to_png_icon resample blend size img = Some canvas
    /\ im_width canvas = size /\ im_height canvas = size
    /\ let x := (size - im_width resized) / 2 in
       let y := (size - im_height resized) / 2 in
       0 <= x /\ x + im_width resized <= size
       /\ 0 <= y /\ y + im_height resized <= size
       /\ 0 <= size - im_width resized - 2 * x <= 1
       /\ 0 <= size - im_height resized - 2 * y <= 1
       /\ (size < im_width img \/ size < im_height img -> x = 0 \/ y = 0)
       /\ forall cx cy,
            0 <= cx < size -> 0 <= cy < size ->
            im_pixel canvas cx cy
            = if (x <=? cx) && (cx <? x + im_width resized)
                 && (y <=? cy) && (cy <? y + im_height resized)
              then blend transparent
                         (im_pixel resized (cx - x) (cy - y))
                         (alpha (im_pixel resized (cx - x) (cy - y)))
              else transparent.
Proof.
  intros Hw Hh Hs.
  destruct (thumbnail_square resample img size Hw Hh Hs)
    as (img' & Hth & _ & Hw' & Hh' & Hmax & _).
  exists img'. eexists. split; [assumption |].
  unfold image_to_png_icon, new. rewrite Hth. cbn [fst snd].
  replace ((size <? 0) || (size <? 0)) with false
    by (symmetry; apply orb_false_iff; rewrite !Z.ltb_ge; lia).
  split; [reflexivity |]. split; [reflexivity |]. split; [reflexivity |].
  cbv zeta.
  pose proof (Z.div_mod (size - im_width img') 2 ltac:(lia)) as Hx.
  pose proof (Z.mod_pos_bound (size - im_width img') 2 ltac:(lia)) as Hxm.
  pose proof (Z.div_mod (size - im_height img') 2 ltac:(lia)) as Hy.
  pose proof (Z.mod_pos_bound (size - im_height img') 2 ltac:(lia)) as Hym.
  repeat (split; [lia |]).
  split.
  - intros Hbig.
    destruct (thumbnail_large resample img size Hw Hh Hs Hbig)
      as (w & h & Hth' & _ & _ & Hmax').
    rewrite Hth in Hth'. injection Hth' as ->. cbn [im_width im_height] in *.
    destruct (Z.max_spec w h) as [[_ E] | [_ E]]; rewrite E in Hmax'; subst.
    + right. rewrite Z.sub_diag. reflexivity.
    + left. rewrite Z.sub_diag. reflexivity.
  - intros cx cy Hcx Hcy. reflexivity.
Qed.


End IconFacts.

(** * Properties of the code highlighter *)

Module HighlighterFacts.

Import Ascii Highlighter.

Lemma quoted_calls_spans (suffix prefix : list ascii)
      (in_single in_double : bool) (start_idx : nat) :
  quote_state prefix in_single in_double start_idx ->
  forall start count f,
    In (start, count, f)
       (quoted_calls (List.length prefix) in_single in_double start_idx suffix) ->
    f = Quoted
    /\ quoted_span (prefix ++ suffix) start count
    /\ ((if in_single || in_double then start_idx else List.length prefix)
        <= start)%nat.
Proof.
  revert prefix in_single in_double start_idx.
  induction suffix as [|ch rest IH]; intros prefix in_s in_d start_idx Hst
    start count f Hin; [contradiction |].
  assert (Hlen : List.length (prefix ++ [ch]) = S (List.length prefix))
    by (rewrite length_app; simpl; lia).
  assert (Happ : (prefix ++ ch :: rest = (prefix ++ [ch]) ++ rest)%list)
    by (rewrite <- app_assoc; reflexivity).
  destruct Hst as [Hs Hd].
  cbn [quoted_calls] in Hin.
  destruct ((ch =? single_quote)%char && negb in_d) eqn:T1.
  - apply andb_true_iff in T1. destruct T1 as [Hch Hnd].
    apply Ascii.eqb_eq in Hch. apply negb_true_iff in Hnd. subst ch in_d.
    destruct in_s.
    + destruct (Hs eq_refl) as (_ & before & middle & Hp & Hb & Hm).
      destruct Hin as [Heq | Hin].
      * injection Heq as <- <- <-. split; [reflexivity |]. split; [| cbn; lia].
        exists single_quote, before, middle, rest.
        split; [now left |]. split; [rewrite Hp, <- app_assoc; reflexivity |].
        split; [assumption |]. split; [| assumption].
        rewrite Hp, length_app. cbn [List.length]. lia.
      * rewrite <- Hlen in Hin.
        destruct (IH (prefix ++ [single_quote])%list false false start_idx)
          with (start := start) (count := count) (f := f)
          as (Hf & Hspan & Hlow); [| assumption |].
        { split; discriminate. }
        rewrite <- Happ in Hspan. split; [assumption |].
        split; [assumption |]. cbn in *.
        rewrite Hp, length_app in Hlow. cbn in Hlow.
        rewrite length_app in Hlow. cbn in Hlow. lia.
    + rewrite <- Hlen in Hin.
      destruct (IH (prefix ++ [single_quote])%list true false (List.length prefix))
        with (start := start) (count := count) (f := f)
        as (Hf & Hspan & Hlow); [| assumption |].
      { split; [| discriminate]. intros _. split; [reflexivity |].
        exists prefix, []. repeat split; auto. }
      rewrite <- Happ in Hspan. cbn in *. auto.
  - destruct ((ch =? double_quote)%char && negb in_s) eqn:T2.
    + apply andb_true_iff in T2. destruct T2 as [Hch Hns].
      apply Ascii.eqb_eq in Hch. apply negb_true_iff in Hns. subst ch in_s.
      destruct in_d.
      * destruct (Hd eq_refl) as (_ & before & middle & Hp & Hb & Hm).
        destruct Hin as [Heq | Hin].
        -- injection Heq as <- <- <-. split; [reflexivity |]. split; [| cbn; lia].
           exists double_quote, before, middle, rest.
           split; [now right |]. split; [rewrite Hp, <- app_assoc; reflexivity |].
           split; [assumption |]. split; [| assumption].
           rewrite Hp, length_app. cbn [List.length]. lia.
        -- rewrite <- Hlen in Hin.
           destruct (IH (prefix ++ [double_quote])%list false false start_idx)
             with (start := start) (count := count) (f := f)
             as (Hf & Hspan & Hlow); [| assumption |].
           { split; discriminate. }
           rewrite <- Happ in Hspan. split; [assumption |].
           split; [assumption |]. cbn in *.
           rewrite Hp, length_app in Hlow. cbn in Hlow.
           rewrite length_app in Hlow. cbn in Hlow. lia.
      * rewrite <- Hlen in Hin.
        destruct (IH (prefix ++ [double_quote])%list false true (List.length prefix))
          with (start := start) (count := count) (f := f)
          as (Hf & Hspan & Hlow); [| assumption |].
        { split; [discriminate |]. intros _. split; [reflexivity |].
          exists prefix, []. repeat split; auto. }
        rewrite <- Happ in Hspan. cbn in *. auto.
    + rewrite <- Hlen in Hin.
      destruct (IH (prefix ++ [ch])%list in_s in_d start_idx)
        with (start := start) (count := count) (f := f)
        as (Hf & Hspan & Hlow); [| assumption |].
      { split.
        - intros E. destruct (Hs E) as (Hd0 & before & middle & Hp & Hb & Hm).
          split; [assumption |]. exists before, (middle ++ [ch])%list.
          split; [rewrite Hp, <- app_assoc; reflexivity |].
          split; [assumption |].
          intros Hc. apply in_app_or in Hc. destruct Hc as [Hc | [Hc | []]];
            [now apply Hm |].
          subst ch in_d. rewrite Ascii.eqb_refl in T1. discriminate.
        - intros E. destruct (Hd E) as (Hs0 & before & middle & Hp & Hb & Hm).
          split; [assumption |]. exists before, (middle ++ [ch])%list.
          split; [rewrite Hp, <- app_assoc; reflexivity |].
          split; [assumption |].
          intros Hc. apply in_app_or in Hc. destruct Hc as [Hc | [Hc | []]];
            [now apply Hm |].
          subst ch in_s. rewrite Ascii.eqb_refl in T2. discriminate. }
      rewrite <- Happ in Hspan. split; [assumption |]. split; [assumption |].
      rewrite Hlen in Hlow. destruct (in_s || in_d); lia.
Qed.

End HighlighterFacts.

Module HighlighterWords.

Import Ascii Highlighter.

Lemma quoted_calls_sorted (suffix prefix : list ascii)
      (in_single in_double : bool) (start_idx : nat) :
  quote_state prefix in_single in_double start_idx ->
  StronglySorted ends_before
    (quoted_calls (List.length prefix) in_single in_double start_idx suffix).
Proof.
  revert prefix in_single in_double start_idx.
  induction suffix as [|ch rest IH]; intros prefix in_s in_d start_idx Hst;
    [constructor |].
  assert (Hlen : List.length (prefix ++ [ch]) = S (List.length prefix))
    by (rewrite length_app; simpl; lia).
  assert (Hnext : forall s d i,
             quote_state (prefix ++ [ch]) s d i ->
             StronglySorted ends_before
               (quoted_calls (S (List.length prefix)) s d i rest)).
  { intros s d i H. rewrite <- Hlen. now apply IH. }
  assert (Hout : quote_state (prefix ++ [ch]) false false start_idx)
    by (split; discriminate).
  assert (Hemit : (start_idx < List.length prefix)%nat ->
            StronglySorted ends_before
              ((start_idx, (List.length prefix - start_idx + 1)%nat, Quoted)
                 :: quoted_calls (S (List.length prefix)) false false start_idx rest)).
  { intros Hlt. constructor; [now apply Hnext |].
    apply Forall_forall. intros [[s n] f] Hc. rewrite <- Hlen in Hc.
    destruct (HighlighterFacts.quoted_calls_spans rest (prefix ++ [ch]) false false
                start_idx Hout s n f Hc) as (_ & _ & Hlow).
    unfold ends_before. cbn in *. lia. }
  destruct Hst as [Hs Hd]. cbn [quoted_calls].
  destruct ((ch =? single_quote)%char && negb in_d) eqn:T1.
  - apply andb_true_iff in T1. destruct T1 as [Hch Hnd].
    apply Ascii.eqb_eq in Hch. apply negb_true_iff in Hnd. subst ch in_d.
    destruct in_s.
    + destruct (Hs eq_refl) as (_ & before & middle & Hp & Hb & Hm).
      apply Hemit. rewrite Hp, length_app. cbn. lia.
    + apply Hnext. split; [| discriminate]. intros _. split; [reflexivity |].
      exists prefix, []. repeat split; auto.
  - destruct ((ch =? double_quote)%char && negb in_s) eqn:T2.
    + apply andb_true_iff in T2. destruct T2 as [Hch Hns].
      apply Ascii.eqb_eq in Hch. apply negb_true_iff in Hns. subst ch in_s.
      destruct in_d.
      * destruct (Hd eq_refl) as (_ & before & middle & Hp & Hb & Hm).
        apply Hemit. rewrite Hp, length_app. cbn. lia.
      * apply Hnext. split; [discriminate |]. intros _. split; [reflexivity |].
        exists prefix, []. repeat split; auto.
    + apply Hnext. split.
      * intros E. destruct (Hs E) as (Hd0 & before & middle & Hp & Hb & Hm).
        split; [assumption |]. exists before, (middle ++ [ch])%list.
        split; [rewrite Hp, <- app_assoc; reflexivity |].
        split; [assumption |].
        intros Hc. apply in_app_or in Hc. destruct Hc as [Hc | [Hc | []]];
          [now apply Hm |].
        subst ch in_d. rewrite Ascii.eqb_refl in T1. discriminate.
      * intros E. destruct (Hd E) as (Hs0 & before & middle & Hp & Hb & Hm).
        split; [assumption |]. exists before, (middle ++ [ch])%list.
        split; [rewrite Hp, <- app_assoc; reflexivity |].
        split; [assumption |].
        intros Hc. apply in_app_or in Hc. destruct Hc as [Hc | [Hc | []]];
          [now apply Hm |].
        subst ch in_s. rewrite Ascii.eqb_refl in T2. discriminate.
Qed.

Lemma no_word_at_end_snoc (prefix : list ascii) (c : ascii) :
  is_word c = false -> no_word_at_end (prefix ++ [c]).
Proof.
  intros Hc front d E. apply app_inj_tail in E. destruct E as [_ <-]. exact Hc.
Qed.

Lemma word_matches_spans (suffix prefix : list ascii)
      (acc : option (nat * list ascii)) :
  word_state prefix acc ->
  forall start word,
    In (start, word) (word_matches (List.length prefix) acc suffix) ->
    word_span (prefix ++ suffix) start word.
Proof.
  revert prefix acc.
  induction suffix as [|c rest IH]; intros prefix acc Hst start word Hin.
  - cbn [word_matches] in Hin. destruct acc as [[s w] |]; [| contradiction].
    destruct Hin as [Heq | []]. injection Heq as <- <-.
    destruct Hst as (before & Hp & Hb & Hne & Hall & Hbound).
    exists before, []. rewrite !app_nil_r. repeat split; auto.
  - assert (Hlen : List.length (prefix ++ [c]) = S (List.length prefix))
      by (rewrite length_app; simpl; lia).
    assert (Happ : (prefix ++ c :: rest = (prefix ++ [c]) ++ rest)%list)
      by (rewrite <- app_assoc; reflexivity).
    cbn [word_matches] in Hin. destruct (is_word c) eqn:Hc.
    + rewrite <- Hlen in Hin. rewrite Happ. apply IH with (2 := Hin).
      destruct acc as [[s w] |].
      * destruct Hst as (before & Hp & Hb & Hne & Hall & Hbound).
        exists before. split; [rewrite Hp, <- app_assoc; reflexivity |].
        split; [assumption |]. split; [now destruct w |].
        split; [| assumption].
        rewrite forallb_app, Hall. cbn. now rewrite Hc.
      * exists prefix. repeat split; auto; [discriminate |].
        cbn. now rewrite Hc.
    + apply in_app_or in Hin. destruct Hin as [Hin | Hin].
      * destruct acc as [[s w] |]; [| contradiction].
        destruct Hin as [Heq | []]. injection Heq as <- <-.
        destruct Hst as (before & Hp & Hb & Hne & Hall & Hbound).
        exists before, (c :: rest). rewrite Hp, <- app_assoc.
        repeat split; auto.
      * rewrite <- Hlen in Hin. rewrite Happ. apply IH with (2 := Hin).
        now apply no_word_at_end_snoc.
Qed.

End HighlighterWords.

Module HighlighterTheorems.

Import Ascii Highlighter.

Lemma find_decomposes (c : ascii) (text : list ascii) (idx : nat) :
  find c text = Some idx ->
  exists before after,
    text = (before ++ c :: after)%list
    /\ List.length before = idx /\ ~ In c before.
Proof.
  revert idx. induction text as [|x rest IH]; intros idx H; [discriminate |].
  cbn [find] in H. destruct (Ascii.eqb_spec x c) as [-> | Hne].
  - injection H as <-. exists [], rest. repeat split; auto.
  - destruct (find c rest) as [j |]; [| discriminate].
    injection H as <-. destruct (IH j eq_refl) as (before & after & -> & Hb & Hn).
    exists (x :: before), after. split; [reflexivity |].
    split; [cbn; lia |]. intros [E | E]; [now apply Hne | now apply Hn].
Qed.

Lemma find_none (c : ascii) (text : list ascii) :
  find c text = None -> ~ In c text.
Proof.
  induction text as [|x rest IH]; intros H; [intros [] |].
  cbn [find] in H. destruct (Ascii.eqb_spec x c) as [-> | Hne]; [discriminate |].
  destruct (find c rest); [discriminate |].
  intros [E | E]; [now apply Hne | now apply IH].
Qed.

Lemma filter_flat_map_nil {A B : Type} (p : B -> bool) (F : A -> list B)
      (l : list A) :
  (forall a, List.filter p (F a) = []) -> List.filter p (flat_map F l) = [].
Proof.
  intros H. induction l as [|a l IH]; [reflexivity |].
  simpl. now rewrite filter_app, H, IH.
Qed.

Lemma start_state : quote_state [] false false 0.
Proof. split; discriminate. Qed.

Lemma start_words : word_state [] None.
Proof. intros front c E. now destruct front. Qed.

Lemma word_call_inv (text : list ascii) (start count : nat) (f : format) :
  In (start, count, f) (word_calls text) ->
  exists word,
    word_span text start word /\ count = List.length word
    /\ ((f = Keyword /\ In (String.string_of_list_ascii word) KEYWORDS)
        \/ (f = Number /\ forallb is_digit word = true)).
Proof.
  unfold word_calls. intros Hin. apply in_flat_map in Hin.
  destruct Hin as ([s w] & Hm & Hc).
  pose proof (HighlighterWords.word_matches_spans text [] None start_words s w Hm)
    as Hspan.
  destruct (is_keyword w) eqn:Hk.
  - destruct Hc as [Heq | []]. injection Heq as <- <- <-.
    exists w. split; [assumption |]. split; [reflexivity |]. left.
    split; [reflexivity |]. unfold is_keyword in Hk.
    apply existsb_exists in Hk. destruct Hk as (k & Hin & Hk).
    apply String.eqb_eq in Hk. now subst k.
  - destruct (isdigit w) eqn:Hd; [| contradiction].
    destruct Hc as [Heq | []]. injection Heq as <- <- <-.
    exists w. split; [assumption |]. split; [reflexivity |]. right.
    split; [reflexivity |]. unfold isdigit in Hd. now destruct w.
Qed.

(** On a line of ASCII characters every call of [setFormat] covers at
    least one character and stays inside the line. *)
Theorem highlight_stays_inside_the_line
        (text : String.string) (start count : nat) (f : format) :
  ascii_line text ->
  In (start, count, f) (highlightBlock text) ->
  (1 <= count)%nat
  /\ (start + count <= List.length (String.list_ascii_of_string text))%nat.
Proof.
  unfold highlightBlock. set (chars := String.list_ascii_of_string text).
  intros _ Hin. apply in_app_or in Hin. destruct Hin as [Hin | Hin].
  - unfold comment_calls in Hin. destruct (find hash chars) as [idx |] eqn:Hf;
      [| contradiction].
    destruct Hin as [Heq | []]. injection Heq as <- <- <-.
    destruct (find_decomposes _ _ _ Hf) as (before & after & -> & <- & _).
    rewrite length_app. cbn. lia.
  - apply in_app_or in Hin. destruct Hin as [Hin | Hin].
    + destruct (HighlighterFacts.quoted_calls_spans chars [] false false 0%nat
                  start_state start count f Hin)
        as (_ & (q & before & middle & after & _ & Ht & Hb & Hn & _) & _).
      cbn [app] in Ht. rewrite Ht, !length_app. cbn. rewrite length_app. cbn. lia.
    + destruct (word_call_inv chars start count f Hin)
        as (word & (before & after & Ht & Hb & Hne & _) & -> & _).
      rewrite Ht, !length_app. destruct word; [contradiction | cbn; lia].
Qed.

(** On a line of ASCII characters every span formatted as a string opens
    and closes with the same quote character and has no such quote inside;
    these spans come in order and do not overlap. *)
Theorem quoted_spans_are_delimited (text : String.string) :
  ascii_line text ->
  (forall start count,
      In (start, count, Quoted) (highlightBlock text) ->
      quoted_span (String.list_ascii_of_string text) start count)
  /\ StronglySorted ends_before (List.filter is_quoted (highlightBlock text)).
Proof.
  unfold highlightBlock. set (chars := String.list_ascii_of_string text).
  intros _.
  assert (Hq : forall start count f,
             In (start, count, f) (quoted_calls 0 false false 0 chars) ->
             f = Quoted /\ quoted_span chars start count).
  { intros start count f Hin.
    destruct (HighlighterFacts.quoted_calls_spans chars [] false false 0%nat
                start_state start count f Hin) as (Hf & Hspan & _). auto. }
  split.
  - intros start count Hin. apply in_app_or in Hin. destruct Hin as [Hin | Hin].
    + unfold comment_calls in Hin. destruct (find hash chars); [| contradiction].
      destruct Hin as [Heq | []]. discriminate.
    + apply in_app_or in Hin.
      destruct Hin as [Hin | Hin]; [exact (proj2 (Hq _ _ _ Hin)) |].
      destruct (word_call_inv chars start count Quoted Hin)
        as (_ & _ & _ & [[E _] | [E _]]); discriminate.
  - rewrite !filter_app.
    assert (Hc : List.filter is_quoted (comment_calls chars) = []).
    { unfold comment_calls. now destruct (find hash chars). }
    assert (Hw : List.filter is_quoted (word_calls chars) = []).
    { unfold word_calls. apply filter_flat_map_nil. intros [s w].
      destruct (is_keyword w); [reflexivity |]. now destruct (isdigit w). }
    assert (Hs : List.filter is_quoted (quoted_calls 0 false false 0 chars)
                 = quoted_calls 0 false false 0 chars).
    { apply forallb_filter_id. apply forallb_forall. intros [[s n] f] Hin.
      destruct (Hq s n f Hin) as [-> _]. reflexivity. }
    rewrite Hc, Hw, Hs, app_nil_r. cbn [app].
    exact (HighlighterWords.quoted_calls_sorted chars [] false false 0%nat start_state).
Qed.

(** On a line of ASCII characters every span formatted as a keyword or as
    a number is a whole word, a maximal run of word characters: a keyword
    of the list, or a run of digits. *)
Theorem keywords_and_numbers_are_whole_words
        (text : String.string) (start count : nat) (f : format) :
  ascii_line text ->
  In (start, count, f) (highlightBlock text) ->
  f = Keyword \/ f = Number ->
  exists word,
    word_span (String.list_ascii_of_string text) start word
    /\ count = List.length word
    /\ (f = Keyword -> In (String.string_of_list_ascii word) KEYWORDS)
    /\ (f = Number -> forallb is_digit word = true).
Proof.
  unfold highlightBlock. set (chars := String.list_ascii_of_string text).
  intros _ Hin Hf. apply in_app_or in Hin. destruct Hin as [Hin | Hin].
  - unfold comment_calls in Hin. destruct (find hash chars); [| contradiction].
    destruct Hin as [Heq | []]. injection Heq as _ _ <-.
    destruct Hf; discriminate.
  - apply in_app_or in Hin. destruct Hin as [Hin | Hin].
    + destruct (HighlighterFacts.quoted_calls_spans chars [] false false 0%nat
                  start_state start count f Hin) as (-> & _).
      destruct Hf; discriminate.
    + destruct (word_call_inv chars start count f Hin)
        as (word & Hspan & Hn & Hcase).
      exists word. split; [assumption |]. split; [assumption |].
      destruct Hcase as [[-> Hk] | [-> Hd]]; split; intros E;
        try discriminate; assumption.
Qed.

(** On a line of ASCII characters the comment format is applied exactly
    when the line holds a hash, from the first hash to the end of the line,
    whether or not that hash stands between quotes. *)
Theorem comment_runs_from_the_first_hash (text : String.string) :
  ascii_line text ->
  (In hash (String.list_ascii_of_string text)
   <-> exists start count, In (start, count, Comment) (highlightBlock text))
  /\ forall start count,
       In (start, count, Comment) (highlightBlock text) ->
       exists before after,
         String.list_ascii_of_string text = (before ++ hash :: after)%list
         /\ ~ In hash before
         /\ start = List.length before
         /\ count = S (List.length after).
Proof.
  unfold highlightBlock. set (chars := String.list_ascii_of_string text).
  intros _.
  assert (Hcomment : forall start count,
             In (start, count, Comment)
                (comment_calls chars ++ quoted_calls 0 false false 0 chars
                 ++ word_calls chars) ->
             In (start, count, Comment) (comment_calls chars)).
  { intros start count Hin. apply in_app_or in Hin.
    destruct Hin as [Hin | Hin]; [assumption | exfalso].
    apply in_app_or in Hin. destruct Hin as [Hin | Hin].
    - destruct (HighlighterFacts.quoted_calls_spans chars [] false false 0%nat
                  start_state start count Comment Hin) as (E & _). discriminate.
    - destruct (word_call_inv chars start count Comment Hin)
        as (_ & _ & _ & [[E _] | [E _]]); discriminate. }
  split; [split |].
  - intros Hin. unfold comment_calls.
    destruct (find hash chars) as [idx |] eqn:Hf.
    + eexists _, _. apply in_or_app. left. now left.
    + exfalso. now apply (find_none hash chars Hf).
  - intros (start & count & Hin). apply Hcomment in Hin.
    unfold comment_calls in Hin.
    destruct (find hash chars) as [idx |] eqn:Hf; [| contradiction].
    destruct (find_decomposes _ _ _ Hf) as (before & after & -> & _).
    apply in_or_app. right. now left.
  - intros start count Hin. apply Hcomment in Hin.
    unfold comment_calls in Hin.
    destruct (find hash chars) as [idx |] eqn:Hf; [| contradiction].
    destruct Hin as [Heq | []]. injection Heq as <- <-.
    destruct (find_decomposes _ _ _ Hf) as (before & after & Ht & Hb & Hn).
    exists before, after. split; [assumption |]. split; [assumption |].
    split; [now symmetry |].
    rewrite Ht, length_app. cbn. lia.
Qed.

End HighlighterTheorems.

(** * Reading the scripts back *)

Module DecodeFacts.

Import String Ascii Python Emitter Chars Decode.
Local Open Scope string_scope.

Lemma append_assoc (a b c : string) : (a ++ b) ++ c = a ++ (b ++ c).
Proof. induction a as [|x a IH]; simpl; [reflexivity | now rewrite IH]. Qed.

Lemma append_empty (a : string) : a ++ EmptyString = a.
Proof. induction a as [|x a IH]; simpl; [reflexivity | now rewrite IH]. Qed.

Lemma fields_run (n acc rest : string) :
  all_chars is_num n = true -> fields acc (n ++ rest) = fields (acc ++ n) rest.
Proof.
  revert acc. induction n as [|c n IH]; intros acc H.
  - now rewrite append_empty.
  - simpl in H. apply andb_true_iff in H. destruct H as [Hc Hn].
    cbn [append fields]. rewrite Hc, IH by assumption.
    now rewrite append_assoc.
Qed.

Lemma fields_skip (d rest : string) :
  all_chars not_num d = true ->
  fields EmptyString (d ++ rest) = fields EmptyString rest.
Proof.
  induction d as [|c d IH]; intros H; [reflexivity |].
  simpl in H. apply andb_true_iff in H. destruct H as [Hc Hd].
  unfold not_num in Hc. apply negb_true_iff in Hc.
  cbn [append fields]. rewrite Hc. cbn [flush app]. now apply IH.
Qed.

(** A number followed by a character that is not of a number. *)
Lemma fields_number (n : string) (c : ascii) (rest : string) :
  all_chars is_num n = true -> n <> EmptyString -> is_num c = false ->
  fields EmptyString (n ++ String c rest) = n :: fields EmptyString rest.
Proof.
  intros Hn Hne Hc. rewrite fields_run by assumption.
  cbn [append fields]. rewrite Hc. now destruct n.
Qed.

Lemma fields_last_number (n : string) :
  all_chars is_num n = true -> n <> EmptyString ->
  fields EmptyString n = [n].
Proof.
  intros Hn Hne. rewrite <- (append_empty n) at 1.
  rewrite fields_run by assumption. cbn. now destruct n.
Qed.

Lemma num_uint (d : Decimal.uint) :
  all_chars is_num (DecimalString.NilEmpty.string_of_uint d) = true.
Proof. induction d; simpl; assumption || reflexivity. Qed.

Lemma decimal_is_number (z : Z) :
  all_chars is_num (decimal z) = true /\ decimal z <> EmptyString.
Proof.
  unfold decimal, DecimalString.NilZero.string_of_int,
    DecimalString.NilZero.string_of_uint.
  destruct (Z.to_int z) as [d | d]; destruct d; split;
    try reflexivity; try discriminate; simpl; apply num_uint.
Qed.

Lemma to_uint_not_nil (p : positive) : Pos.to_uint p <> Decimal.Nil.
Proof. apply DecimalPos.Unsigned.to_uint_nonnil. Qed.

(** Reading a printed integer gives the integer. *)
Lemma parse_decimal (z : Z) : parse_int (decimal z) = Some z.
Proof.
  unfold parse_int, decimal.
  rewrite DecimalString.NilZero.isi.
  - cbn. now rewrite DecimalZ.of_to.
  - destruct z; cbn; try discriminate.
    intros E. injection E as E. now apply to_uint_not_nil in E.
  - destruct z; cbn; try discriminate.
    intros E. injection E as E. now apply to_uint_not_nil in E.
Qed.

Lemma sequence_decimals (l : list Z) :
  sequence (map parse_int (map decimal l)) = Some l.
Proof.
  induction l as [|z l IH]; [reflexivity |].
  cbn [map sequence]. now rewrite parse_decimal, IH.
Qed.

End DecodeFacts.

Module RoundTrip.

Import String Ascii Python Emitter Chars Decode DecodeFacts.
Local Open Scope string_scope.

Lemma fields_joined {A : Type} (P : A -> pyvalue) (nums : A -> list Z) :
  (forall a rest,
      fields EmptyString (repr (P a) ++ rest)
      = (map decimal (nums a) ++ fields EmptyString rest)%list) ->
  forall l rest,
    fields EmptyString (join ", " (map repr (map P l)) ++ rest)
    = (map decimal (flat_map nums l) ++ fields EmptyString rest)%list.
Proof.
  intros HP. induction l as [|a l IH]; intros rest; [reflexivity |].
  destruct l as [|b l].
  - cbn [map join flat_map]. rewrite HP, app_nil_r. reflexivity.
  - change (join ", " (map repr (map P (a :: b :: l))))
      with (repr (P a) ++ ", " ++ join ", " (map repr (map P (b :: l)))).
    rewrite !append_assoc, HP.
    change (fields EmptyString (", " ++ join ", " (map repr (map P (b :: l))) ++ rest))
      with (fields EmptyString (join ", " (map repr (map P (b :: l))) ++ rest)).
    rewrite IH.
    change (flat_map nums (a :: b :: l))
      with (nums a ++ flat_map nums (b :: l))%list.
    now rewrite map_app, <- app_assoc.
Qed.

Lemma fields_sketch_point (p : Z * Z) (rest : string) :
  fields EmptyString
         (repr (let '(x, y) := p in PyTuple [PyInt x; PyInt y]) ++ rest)
  = (map decimal (let '(x, y) := p in [x; y]) ++ fields EmptyString rest)%list.
Proof.
  destruct p as [x y].
  destruct (decimal_is_number x) as [Hx Hx'].
  destruct (decimal_is_number y) as [Hy Hy'].
  cbn [repr map join]. rewrite !append_assoc.
  change (fields EmptyString ("(" ++ decimal x ++ ", " ++ decimal y ++ ")" ++ rest))
    with (fields EmptyString
                 (decimal x ++ String "," (String " " (decimal y ++ String ")" rest)))).
  rewrite (fields_number (decimal x) "," _ Hx Hx' eq_refl).
  change (fields EmptyString (String " " (decimal y ++ String ")" rest)))
    with (fields EmptyString (decimal y ++ String ")" rest)).
  rewrite (fields_number (decimal y) ")" _ Hy Hy' eq_refl).
  reflexivity.
Qed.

Lemma fields_color_point (p : Z * Z * RGB) (rest : string) :
  fields EmptyString
         (repr (let '(x, y, (r, g, b)) := p in
                PyTuple [PyInt x; PyInt y; PyTuple [PyInt r; PyInt g; PyInt b]])
          ++ rest)
  = (map decimal (let '(x, y, (r, g, b)) := p in [x; y; r; g; b])
     ++ fields EmptyString rest)%list.
Proof.
  destruct p as [[x y] [[r g] b]].
  destruct (decimal_is_number x) as [Hx Hx'].
  destruct (decimal_is_number y) as [Hy Hy'].
  destruct (decimal_is_number r) as [Hr Hr'].
  destruct (decimal_is_number g) as [Hg Hg'].
  destruct (decimal_is_number b) as [Hb Hb'].
  cbn [repr map join]. rewrite !append_assoc.
  change (fields EmptyString
            ("(" ++ decimal x ++ ", " ++ decimal y ++ ", "
                 ++ "(" ++ decimal r ++ ", " ++ decimal g ++ ", " ++ decimal b
                 ++ ")" ++ ")" ++ rest))
    with (fields EmptyString
            (decimal x ++ String "," (String " "
               (decimal y ++ String "," (String " " (String "("
                  (decimal r ++ String "," (String " "
                     (decimal g ++ String "," (String " "
                        (decimal b ++ String ")" (String ")" rest)))))))))))).
  rewrite (fields_number (decimal x) "," _ Hx Hx' eq_refl).
  change (fields EmptyString
            (String " " (decimal y ++ String "," (String " " (String "("
               (decimal r ++ String "," (String " "
                  (decimal g ++ String "," (String " "
                     (decimal b ++ String ")" (String ")" rest)))))))))))
    with (fields EmptyString
            (decimal y ++ String "," (String " " (String "("
               (decimal r ++ String "," (String " "
                  (decimal g ++ String "," (String " "
                     (decimal b ++ String ")" (String ")" rest)))))))))).
  rewrite (fields_number (decimal y) "," _ Hy Hy' eq_refl).
  change (fields EmptyString
            (String " " (String "("
               (decimal r ++ String "," (String " "
                  (decimal g ++ String "," (String " "
                     (decimal b ++ String ")" (String ")" rest)))))))))
    with (fields EmptyString
            (decimal r ++ String "," (String " "
               (decimal g ++ String "," (String " "
                  (decimal b ++ String ")" (String ")" rest))))))).
  rewrite (fields_number (decimal r) "," _ Hr Hr' eq_refl).
  change (fields EmptyString
            (String " " (decimal g ++ String "," (String " "
               (decimal b ++ String ")" (String ")" rest))))))
    with (fields EmptyString
            (decimal g ++ String "," (String " "
               (decimal b ++ String ")" (String ")" rest))))).
  rewrite (fields_number (decimal g) "," _ Hg Hg' eq_refl).
  change (fields EmptyString
            (String " " (decimal b ++ String ")" (String ")" rest))))
    with (fields EmptyString (decimal b ++ String ")" (String ")" rest))).
  rewrite (fields_number (decimal b) ")" _ Hb Hb' eq_refl).
  reflexivity.
Qed.

End RoundTrip.

Module ReadBack.

Import String Ascii Python Emitter Chars Decode DecodeFacts.
Local Open Scope string_scope.

Lemma pairs_flat (points : list (Z * Z)) :
  pairs (flat_map (fun p : Z * Z => let '(x, y) := p in [x; y]) points)
  = Some points.
Proof.
  induction points as [|[x y] l IH]; [reflexivity |].
  cbn [flat_map app pairs]. now rewrite IH.
Qed.

Lemma quintuples_flat (points : list (Z * Z * RGB)) :
  quintuples (flat_map (fun p : Z * Z * RGB =>
                          let '(x, y, (r, g, b)) := p in [x; y; r; g; b])
                       points)
  = Some points.
Proof.
  induction points as [|[[x y] [[r g] b]] l IH]; [reflexivity |].
  cbn [flat_map app quintuples]. now rewrite IH.
Qed.

Lemma integers_constants (width height : Z) :
  integers ("WIDTH, HEIGHT = " ++ str (PyInt width) ++ ", " ++ str (PyInt height))
  = Some [width; height].
Proof.
  destruct (decimal_is_number width) as [Hw Hw'].
  destruct (decimal_is_number height) as [Hh Hh'].
  unfold integers, str. cbn [repr].
  rewrite (fields_skip "WIDTH, HEIGHT = ") by reflexivity.
  change (decimal width ++ ", " ++ decimal height)
    with (decimal width ++ String "," (String " " (decimal height))).
  rewrite (fields_number (decimal width) "," _ Hw Hw' eq_refl).
  change (fields EmptyString (String " " (decimal height)))
    with (fields EmptyString (decimal height)).
  rewrite (fields_last_number (decimal height) Hh Hh').
  exact (sequence_decimals [width; height]).
Qed.

Lemma integers_points {A : Type} (P : A -> pyvalue) (nums : A -> list Z)
      (points : list A) :
  (forall a rest,
      fields EmptyString (repr (P a) ++ rest)
      = (map decimal (nums a) ++ fields EmptyString rest)%list) ->
  integers ("POINTS = " ++ repr (PyList (map P points)))
  = Some (flat_map nums points).
Proof.
  intros HP. unfold integers. cbn [repr].
  rewrite (fields_skip "POINTS = ") by reflexivity.
  change ("[" ++ join ", " (map repr (map P points)) ++ "]")
    with (String "[" (join ", " (map repr (map P points)) ++ "]")).
  cbn [fields is_num]. 
  change (is_num "[") with false. cbn [flush app].
  rewrite (RoundTrip.fields_joined P nums HP). cbn [fields flush].
  change (is_num "]") with false. cbn [flush app].
  rewrite app_nil_r. apply sequence_decimals.
Qed.

Lemma sketch_read_back (width height : Z) (points : list (Z * Z)) :
  decode_sketch (generate_python_code_sketch
                   (PyInt width) (PyInt height) (CLI.sketch_points_value points))
  = Some (width, height, points).
Proof.
  unfold decode_sketch, decode.
  rewrite EmitterFacts.generate_sketch_template.
  rewrite (EmitterFacts.split_lines_unlines (sketch_template _ _ _)).
  - unfold sketch_template. cbn [nth app].
    rewrite integers_constants. unfold CLI.sketch_points_value.
    rewrite (integers_points _ (fun p : Z * Z => let '(x, y) := p in [x; y])).
    + now rewrite pairs_flat.
    + apply RoundTrip.fields_sketch_point.
  - pose proof (EmitterFacts.sketch_template_plain
                  (PyInt width) (PyInt height) (CLI.sketch_points_value points)) as H.
    rewrite forallb_forall in *. intros l Hl. specialize (H l Hl).
    unfold plain_line in H. apply andb_true_iff in H. tauto.
Qed.

Lemma color_read_back (width height : Z) (points : list (Z * Z * RGB)) :
  decode_color (generate_python_code_color
                  (PyInt width) (PyInt height) (CLI.color_points_value points))
  = Some (width, height, points).
Proof.
  unfold decode_color, decode.
  rewrite EmitterFacts.generate_color_template.
  rewrite (EmitterFacts.split_lines_unlines (color_template _ _ _)).
  - unfold color_template. cbn [nth app].
    rewrite integers_constants. unfold CLI.color_points_value.
    rewrite (integers_points _ (fun p : Z * Z * RGB =>
                                  let '(x, y, (r, g, b)) := p in [x; y; r; g; b])).
    + now rewrite quintuples_flat.
    + apply RoundTrip.fields_color_point.
  - pose proof (EmitterFacts.color_template_plain
                  (PyInt width) (PyInt height) (CLI.color_points_value points)) as H.
    rewrite forallb_forall in *. intros l Hl. specialize (H l Hl).
    unfold plain_line in H. apply andb_true_iff in H. tauto.
Qed.

(** The script holds the whole sample: reading the integers of its line
    of constants and of its line of points gives back the width, the
    height and the points, so two samples with the same script are the
    same sample. *)
Theorem scripts_hold_the_whole_sample :
  (forall width height points,
      decode_sketch (generate_python_code_sketch
                       (PyInt width) (PyInt height)
                       (CLI.sketch_points_value points))
      = Some (width, height, points))
  /\ (forall width height points,
         decode_color (generate_python_code_color
                         (PyInt width) (PyInt height)
                         (CLI.color_points_value points))
         = Some (width, height, points))
  /\ (forall w1 h1 p1 w2 h2 p2,
         generate_python_code_sketch
           (PyInt w1) (PyInt h1) (CLI.sketch_points_value p1)
         = generate_python_code_sketch
             (PyInt w2) (PyInt h2) (CLI.sketch_points_value p2) ->
         (w1, h1, p1) = (w2, h2, p2))
  /\ (forall w1 h1 p1 w2 h2 p2,
         generate_python_code_color
           (PyInt w1) (PyInt h1) (CLI.color_points_value p1)
         = generate_python_code_color
             (PyInt w2) (PyInt h2) (CLI.color_points_value p2) ->
         (w1, h1, p1) = (w2, h2, p2)).
Proof.
  split; [exact sketch_read_back |]. split; [exact color_read_back |]. split.
  - intros w1 h1 p1 w2 h2 p2 E.
    pose proof (sketch_read_back w1 h1 p1) as H1.
    rewrite E, sketch_read_back in H1. now injection H1 as <- <- <-.
  - intros w1 h1 p1 w2 h2 p2 E.
    pose proof (color_read_back w1 h1 p1) as H1.
    rewrite E, color_read_back in H1. now injection H1 as <- <- <-.
Qed.

End ReadBack.

(** * The further theorems at sample inputs *)

(** A bound of 0 on the band image and the red image. *)
Lemma samplers_raise_iff_bound_not_positive_witness :
  1 <= im_width band_image /\ 1 <= im_height band_image
  /\ 1 <= im_width red_image /\ 1 <= im_height red_image
  /\ image_to_points_sketch nearest_L band_image 0 = None
  /\ image_to_points_color nearest_RGB red_image 0 = None.
Proof.
  assert (H1 : 1 <= im_width band_image) by (cbn; lia).
  assert (H2 : 1 <= im_height band_image) by (cbn; lia).
  assert (H3 : 1 <= im_width red_image) by (cbn; lia).
  assert (H4 : 1 <= im_height red_image) by (cbn; lia).
  split; [exact H1 |]. split; [exact H2 |]. split; [exact H3 |].
  split; [exact H4 |].
  destruct (samplers_raise_iff_bound_not_positive
              nearest_L nearest_RGB band_image red_image 0 H1 H2 H3 H4)
    as [Hs Hc].
  split; [apply Hs | apply Hc]; lia.
Defined.

(** The corner image and the red image under a bound of 160. *)
Lemma small_image_sampled_unchanged_witness :
  im_width corner_image <= 160 /\ im_height corner_image <= 160
  /\ im_width red_image <= 160 /\ im_height red_image <= 160
  /\ image_to_points_color nearest_RGB red_image 160
     = Some ((im_width red_image, im_height red_image),
             pixels_row_major red_image).
Proof.
  assert (H1 : im_width corner_image <= 160) by (cbn; lia).
  assert (H2 : im_height corner_image <= 160) by (cbn; lia).
  assert (H3 : im_width red_image <= 160) by (cbn; lia).
  assert (H4 : im_height red_image <= 160) by (cbn; lia).
  split; [exact H1 |]. split; [exact H2 |]. split; [exact H3 |].
  split; [exact H4 |].
  exact (proj2 (small_image_sampled_unchanged
                  nearest_L nearest_L nearest_RGB corner_image red_image 160
                  H1 H2 H3 H4)).
Defined.

(** The band image and the stripes image, both 7x5, under a bound of 4. *)
Lemma large_image_longer_side_is_bound_witness :
  (4 < im_width band_image \/ 4 < im_height band_image)
  /\ (4 < im_width stripes_image \/ 4 < im_height stripes_image)
  /\ exists width height points,
       image_to_points_sketch nearest_L band_image 4
       = Some ((width, height), points)
       /\ Z.max width height = 4.
Proof.
  assert (H1 : 1 <= im_width band_image) by (cbn; lia).
  assert (H2 : 1 <= im_height band_image) by (cbn; lia).
  assert (H3 : 4 < im_width band_image \/ 4 < im_height band_image)
    by (left; cbn; lia).
  assert (H4 : 1 <= im_width stripes_image) by (cbn; lia).
  assert (H5 : 1 <= im_height stripes_image) by (cbn; lia).
  assert (H6 : 4 < im_width stripes_image \/ 4 < im_height stripes_image)
    by (left; cbn; lia).
  assert (H7 : 1 <= 4) by lia.
  split; [exact H3 |]. split; [exact H6 |].
  exact (proj1 (large_image_longer_side_is_bound
                  nearest_L nearest_RGB band_image stripes_image 4
                  H1 H2 H3 H4 H5 H6 H7)).
Defined.

(** The band image and the stripes image sampled twice under a bound
    of 4. *)
Lemma sampling_resized_image_again_witness :
  1 <= im_width band_image /\ 1 <= im_height band_image
  /\ 1 <= im_width stripes_image /\ 1 <= im_height stripes_image /\ 1 <= 4
  /\ exists resized,
       Pillow.thumbnail nearest_RGB stripes_image (4, 4) = Some resized
       /\ image_to_points_color nearest_RGB resized 4
          = image_to_points_color nearest_RGB stripes_image 4.
Proof.
  assert (H1 : 1 <= im_width band_image) by (cbn; lia).
  assert (H2 : 1 <= im_height band_image) by (cbn; lia).
  assert (H3 : 1 <= im_width stripes_image) by (cbn; lia).
  assert (H4 : 1 <= im_height stripes_image) by (cbn; lia).
  assert (H5 : 1 <= 4) by lia.
  split; [exact H1 |]. split; [exact H2 |]. split; [exact H3 |].
  split; [exact H4 |]. split; [exact H5 |].
  exact (proj2 (sampling_resized_image_again
                  nearest_L nearest_RGB band_image stripes_image 4
                  H1 H2 H3 H4 H5)).
Defined.

(** The band image under a bound of 4: fewer points than pixels. *)
Lemma sketch_points_leave_a_pixel_out_witness :
  decoded_L band_image /\ resample_uint8 nearest_L /\ 1 <= 4
  /\ exists width height points,
       image_to_points_sketch nearest_L band_image 4
       = Some ((width, height), points)
       /\ Z.of_nat (List.length points) < width * height.
Proof.
  assert (H1 : decoded_L band_image).
  { constructor; cbn; try lia.
    intros x y _ _. cbn. destruct (Z.abs (x - y) <=? 1); lia. }
  assert (H2 : resample_uint8 nearest_L).
  { intros im w h x y. unfold nearest_L. lia. }
  assert (H3 : 1 <= 4) by lia.
  split; [exact H1 |]. split; [exact H2 |]. split; [exact H3 |].
  exact (sketch_points_leave_a_pixel_out nearest_L band_image 4 H1 H2 H3).
Defined.

(** The band image under a bound of 4: points, so no constant array. *)
Lemma sketch_points_empty_iff_constant_witness :
  decoded_L band_image /\ resample_uint8 nearest_L /\ 1 <= 4
  /\ exists resized points,
       Pillow.thumbnail nearest_L band_image (4, 4) = Some resized
       /\ image_to_points_sketch nearest_L band_image 4
          = Some ((im_width resized, im_height resized), points)
       /\ (points = []
           <-> exists c, uniform (Pillow.filter Pillow.FIND_EDGES resized) c).
Proof.
  assert (H1 : decoded_L band_image).
  { constructor; cbn; try lia.
    intros x y _ _. cbn. destruct (Z.abs (x - y) <=? 1); lia. }
  assert (H2 : resample_uint8 nearest_L).
  { intros im w h x y. unfold nearest_L. lia. }
  assert (H3 : 1 <= 4) by lia.
  split; [exact H1 |]. split; [exact H2 |]. split; [exact H3 |].
  exact (sketch_points_empty_iff_constant nearest_L band_image 4 H1 H2 H3).
Defined.

(** No [--image] in a folder without images. *)
Lemma main_exits_before_any_event_witness :
  CLI.image SampleFolder.no_image_args = None
  /\ CommandLine.main
       (Files.find_latest_image (fun _ => []) SampleFolder.st_mtime)
       (fun _ => true) (fun _ => Some band_image)
       (fun _ => Some stripes_image) nearest_L nearest_RGB
       (fun _ _ => true) (fun _ => true) SampleFolder.no_image_args
     = ([], None).
Proof.
  assert (H1 : CLI.image SampleFolder.no_image_args = None) by reflexivity.
  split; [exact H1 |].
  apply PipelineFacts.main_exits_before_any_event.
  left. split; [left; exact H1 | intros pattern _; reflexivity].
Defined.


(** The initial window. *)
Lemma handlers_keep_window_consistent_witness :
  GUI.consistent GUI.initial
  /\ forall chosen,
       GUI.consistent
         (snd (GUI.save_code SampleWindow.stem (fun _ => true) GUI.initial chosen)).
Proof.
  assert (H1 : GUI.consistent GUI.initial).
  { unfold GUI.consistent, GUI.initial. cbn. repeat split; try discriminate.
    intros H. now contradiction H. }
  split; [exact H1 |].
  exact (proj2 (proj2 (WindowFacts.handlers_keep_window_consistent
                         SampleWindow.strip None (fun _ => true)
                         (fun _ => Some band_image) (fun _ => Some stripes_image)
                         nearest_L nearest_RGB SampleWindow.stem (fun _ => true)
                         GUI.initial H1))).
Defined.




(** The 6x2 bar image as an icon of size 4. *)
Lemma icon_is_a_centred_square_witness :
  1 <= im_width Icon.bar_image /\ 1 <= im_height Icon.bar_image /\ 1 <= 4
  /\ exists resized canvas,
       Pillow.thumbnail Icon.nearest Icon.bar_image (4, 4) = Some resized
       /\ Icon.image_to_png_icon Icon.nearest Icon.cover 4 Icon.bar_image
          = Some canvas
       /\ im_width canvas = 4 /\ im_height canvas = 4.
Proof.
  assert (H1 : 1 <= im_width Icon.bar_image) by (cbn; lia).
  assert (H2 : 1 <= im_height Icon.bar_image) by (cbn; lia).
  assert (H3 : 1 <= 4) by lia.
  split; [exact H1 |]. split; [exact H2 |]. split; [exact H3 |].
  destruct (IconFacts.icon_is_a_centred_square
              Icon.nearest Icon.cover Icon.bar_image 4 H1 H2 H3)
    as (resized & canvas & Hth & Hicon & Hw & Hh & _).
  exists resized, canvas. repeat split; assumption.
Defined.


(** The keyword [in] between quotes on the sample line. *)
Lemma highlight_stays_inside_the_line_witness :
  Highlighter.ascii_line Highlighter.sample_line
  /\ In (13%nat, 2%nat, Highlighter.Keyword)
        (Highlighter.highlightBlock Highlighter.sample_line)
  /\ (13 + 2
      <= List.length (String.list_ascii_of_string Highlighter.sample_line))%nat.
Proof.
  assert (H0 : Highlighter.ascii_line Highlighter.sample_line)
    by (vm_compute; reflexivity).
  assert (H1 : In (13%nat, 2%nat, Highlighter.Keyword)
                  (Highlighter.highlightBlock Highlighter.sample_line)).
  { vm_compute. do 3 right. left. reflexivity. }
  split; [exact H0 |]. split; [exact H1 |].
  exact (proj2 (HighlighterTheorems.highlight_stays_inside_the_line
                  Highlighter.sample_line 13 2 Highlighter.Keyword H0 H1)).
Defined.

(** The two strings of the sample line. *)
Lemma quoted_spans_are_delimited_witness :
  Highlighter.ascii_line Highlighter.sample_line
  /\ Highlighter.quoted_span
       (String.list_ascii_of_string Highlighter.sample_line) 4 5
  /\ Highlighter.quoted_span
       (String.list_ascii_of_string Highlighter.sample_line) 12 4.
Proof.
  assert (H0 : Highlighter.ascii_line Highlighter.sample_line)
    by (vm_compute; reflexivity).
  split; [exact H0 |].
  destruct (HighlighterTheorems.quoted_spans_are_delimited
              Highlighter.sample_line H0) as [Hspans _].
  split; apply Hspans; vm_compute.
  - right. left. reflexivity.
  - do 2 right. left. reflexivity.
Defined.

(** The number 12 on the sample line. *)
Lemma keywords_and_numbers_are_whole_words_witness :
  Highlighter.ascii_line Highlighter.sample_line
  /\ In (17%nat, 2%nat, Highlighter.Number)
        (Highlighter.highlightBlock Highlighter.sample_line)
  /\ exists word,
       Highlighter.word_span
         (String.list_ascii_of_string Highlighter.sample_line) 17 word
       /\ forallb Highlighter.is_digit word = true.
Proof.
  assert (H0 : Highlighter.ascii_line Highlighter.sample_line)
    by (vm_compute; reflexivity).
  assert (H1 : In (17%nat, 2%nat, Highlighter.Number)
                  (Highlighter.highlightBlock Highlighter.sample_line)).
  { vm_compute. do 4 right. left. reflexivity. }
  split; [exact H0 |]. split; [exact H1 |].
  destruct (HighlighterTheorems.keywords_and_numbers_are_whole_words
              Highlighter.sample_line 17 2 Highlighter.Number H0 H1
              (or_intror eq_refl))
    as (word & Hspan & _ & _ & Hdigits).
  exists word. split; [assumption | now apply Hdigits].
Defined.

(** The hash between quotes on the sample line. *)
Lemma comment_runs_from_the_first_hash_witness :
  Highlighter.ascii_line Highlighter.sample_line
  /\ exists start count,
       In (start, count, Highlighter.Comment)
          (Highlighter.highlightBlock Highlighter.sample_line).
Proof.
  assert (H0 : Highlighter.ascii_line Highlighter.sample_line)
    by (vm_compute; reflexivity).
  split; [exact H0 |].
  apply (HighlighterTheorems.comment_runs_from_the_first_hash
           Highlighter.sample_line H0).
  vm_compute. do 6 right. left. reflexivity.
Defined.
